(** * go-clockify: a shallow embedding of the client library

    The embedding follows [main.go] of package [clockify].  Go strings and
    byte slices are sequences of bytes and are both modelled by [string]
    (a sequence of 8-bit [ascii] characters).  The packages of the Go
    standard library that the program calls ([fmt], [net/url], [net/http],
    [encoding/json], [log]) are modelled in modules of the same name, to the
    extent the program uses them. *)

From Stdlib Require Import ZArith Ascii String List Bool Lia.
From stdpp Require Import base option list strings gmap sorting.

Set Warnings "-register-all".

Local Open Scope string_scope.
Local Open Scope Z_scope.

(** ** Bytes *)

Definition byte (c : ascii) : Z := Z.of_N (N_of_ascii c).

Definition in_range (lo hi : ascii) (c : ascii) : bool :=
  (byte lo <=? byte c) && (byte c <=? byte hi).

Definition is_lower (c : ascii) : bool := in_range "a" "z" c.
Definition is_upper (c : ascii) : bool := in_range "A" "Z" c.
Definition is_digit (c : ascii) : bool := in_range "0" "9" c.
Definition is_alnum (c : ascii) : bool := is_lower c || is_upper c || is_digit c.

Definition one_of (set : string) (c : ascii) : bool :=
  existsb (Ascii.eqb c) (list_ascii_of_string set).

Definition all_bytes (p : ascii -> bool) (s : string) : bool :=
  forallb p (list_ascii_of_string s).

Definition any_byte (p : ascii -> bool) (s : string) : bool :=
  existsb p (list_ascii_of_string s).

Definition to_upper (c : ascii) : ascii :=
  if is_lower c then ascii_of_N (Z.to_N (byte c - 32)) else c.

Definition to_lower (c : ascii) : ascii :=
  if is_upper c then ascii_of_N (Z.to_N (byte c + 32)) else c.

Definition chr (n : Z) : ascii := ascii_of_N (Z.to_N n).

(** [strings.Join]. *)
Fixpoint Join (sep : string) (l : list string) : string :=
  match l with
  | [] => ""
  | [x] => x
  | x :: l' => x +:+ sep +:+ Join sep l'
  end.

(** [strings.Cut s sep] for a one-byte separator: the text before and after
    the first occurrence, or [(s, "")] when there is none. *)
Fixpoint Cut (sep : ascii) (s : string) : string * string :=
  match s with
  | "" => ("", "")
  | String c r =>
      if Ascii.eqb c sep then ("", r)
      else let '(a, b) := Cut sep r in (String c a, b)
  end.

Definition Contains (sep : ascii) (s : string) : bool := any_byte (Ascii.eqb sep) s.

(** Text before and after the last occurrence of [sep], if any. *)
Fixpoint CutLast (sep : ascii) (s : string) : option (string * string) :=
  match s with
  | "" => None
  | String c r =>
      match CutLast sep r with
      | Some (a, b) => Some (String c a, b)
      | None => if Ascii.eqb c sep then Some ("", r) else None
      end
  end.

Definition HasPrefix (p s : string) : bool := String.prefix p s.

(** ** Package fmt *)

Module fmt.

(** The operand list after the last verb: [%!(EXTRA type=value, ...)]. *)
Definition extra (a : list string) : string :=
  match a with
  | [] => ""
  | _ => "%!(EXTRA " +:+ Join ", " (map (fun x => "string=" +:+ x) a) +:+ ")"
  end.

(** Bytes after [%] that start a flag, a width, a precision or an argument
    index, and the string verbs that re-encode their operand.  Directives
    that use them are not modelled (no format of this program has one). *)
Definition unmodelled_after_percent (c : ascii) : bool :=
  one_of "#+- 0123456789*.[" c || (128 <=? byte c).

Definition unmodelled_string_verb (c : ascii) : bool := one_of "xXq" c.

(** [printArg] for an operand of type string. *)
Definition printArg (verb : ascii) (x : string) : string :=
  if one_of "sv" verb then x
  else if Ascii.eqb verb "T" then "string"
  else "%!" +:+ String verb ("(string=" +:+ x +:+ ")").

(** [doPrintf] with operands of type string.  [None]: the format has a
    directive outside the modelled ones. *)
Fixpoint doPrintf (format : string) (a : list string) : option string :=
  match format with
  | "" => Some (extra a)
  | String c rest =>
      if negb (Ascii.eqb c "%") then String c <$> doPrintf rest a
      else
        match rest with
        | "" => Some ("%!(NOVERB)" +:+ extra a)
        | String verb rest =>
            if Ascii.eqb verb "%" then String "%" <$> doPrintf rest a
            else if unmodelled_after_percent verb then None
            else match a with
                 | [] => (fun r => "%!" +:+ String verb "(MISSING)" +:+ r) <$> doPrintf rest []
                 | x :: a' =>
                     if unmodelled_string_verb verb then None
                     else (fun r => printArg verb x +:+ r) <$> doPrintf rest a'
                 end
        end
  end.

Definition Sprintf := doPrintf.

End fmt.

(** ** Package net/url *)

Module url.

Definition ishex (c : ascii) : bool :=
  is_digit c || in_range "a" "f" c || in_range "A" "F" c.

Definition unhex (c : ascii) : Z :=
  if is_digit c then byte c - byte "0"
  else if in_range "a" "f" c then byte c - byte "a" + 10
  else if in_range "A" "F" c then byte c - byte "A" + 10
  else 0.

Inductive encoding :=
| encodePath | encodePathSegment | encodeHost | encodeZone
| encodeUserPassword | encodeQueryComponent | encodeFragment.

Definition is_host_mode (mode : encoding) : bool :=
  match mode with encodeHost | encodeZone => true | _ => false end.

(** [shouldEscape]: whether byte [c] must be escaped in component [mode]. *)
Definition shouldEscape (c : ascii) (mode : encoding) : bool :=
  if is_alnum c then false
  else if is_host_mode mode && (one_of "!$&'()*+,;=:[]<>" c || Ascii.eqb c "034") then false
  else if one_of "-_.~" c then false
  else if one_of "$&+,/:;=?@" c then
    match mode with
    | encodePath => Ascii.eqb c "?"
    | encodePathSegment => one_of "/;,?" c
    | encodeUserPassword => one_of "@/?:" c
    | encodeQueryComponent => true
    | encodeFragment => false
    | _ => true
    end
  else if match mode with encodeFragment => one_of "!()*" c | _ => false end then false
  else true.

Definition upperhex (n : Z) : ascii :=
  if n <? 10 then chr (byte "0" + n) else chr (byte "A" + n - 10).

(** [escape s encodeQueryComponent], that is [QueryEscape]. *)
Fixpoint QueryEscape (s : string) : string :=
  match s with
  | "" => ""
  | String c r =>
      if Ascii.eqb c " " then String "+" (QueryEscape r)
      else if shouldEscape c encodeQueryComponent then
        String "%" (String (upperhex (byte c / 16))
                      (String (upperhex (byte c mod 16)) (QueryEscape r)))
      else String c (QueryEscape r)
  end.

(** The validation pass of [unescape s mode]: [true] when it returns no
    error.  (The unescaped text itself is not needed by this program.) *)
Fixpoint unescape_ok (mode : encoding) (s : string) : bool :=
  match s with
  | "" => true
  | String c r =>
      if Ascii.eqb c "%" then
        match r with
        | String a (String b r') =>
            ishex a && ishex b
            && negb (match mode with
                     | encodeHost =>
                         (unhex a <? 8) && negb (Ascii.eqb a "2" && Ascii.eqb b "5")
                     | encodeZone =>
                         let v := chr (unhex a * 16 + unhex b) in
                         negb (Ascii.eqb a "2" && Ascii.eqb b "5")
                         && negb (Ascii.eqb v " ") && shouldEscape v encodeHost
                     | _ => false
                     end)
            && unescape_ok mode r'
        | _ => false
        end
      else
        negb (is_host_mode mode && (byte c <? 128) && shouldEscape c encodeHost)
        && unescape_ok mode r
  end.

Definition stringContainsCTLByte (s : string) : bool :=
  any_byte (fun c => (byte c <? 32) || (byte c =? 127)) s.

(** [getScheme]: [None] is the error "missing protocol scheme". *)
Fixpoint getScheme_from (i : nat) (acc rawURL s : string) : option (string * string) :=
  match s with
  | "" => Some ("", rawURL)
  | String c r =>
      if is_lower c || is_upper c then getScheme_from (S i) (acc +:+ String c "") rawURL r
      else if is_digit c || one_of "+-." c then
        match i with
        | O => Some ("", rawURL)
        | _ => getScheme_from (S i) (acc +:+ String c "") rawURL r
        end
      else if Ascii.eqb c ":" then
        match i with
        | O => None
        | _ => Some (acc, r)
        end
      else Some ("", rawURL)
  end.

Definition getScheme (rawURL : string) : option (string * string) :=
  getScheme_from O "" rawURL rawURL.

Definition validOptionalPort (port : string) : bool :=
  match port with
  | "" => true
  | String c r => Ascii.eqb c ":" && all_bytes is_digit r
  end.

Definition validUserinfo (s : string) : bool :=
  all_bytes (fun c => is_alnum c || one_of "-._:~!$&'()*+,;=%@" c) s.

(** Index of the first occurrence of ["%25"], as the text before it and the
    text from it on. *)
Fixpoint cut_zone (s : string) : option (string * string) :=
  match s with
  | "" => None
  | String c r =>
      if HasPrefix "%25" s then Some ("", s)
      else match cut_zone r with
           | Some (a, b) => Some (String c a, b)
           | None => None
           end
  end.

Definition parseHost_ok (host : string) : bool :=
  if HasPrefix "[" host then
    match CutLast "]" host with
    | None => false
    | Some (inside, colonPort) =>
        validOptionalPort colonPort
        && match cut_zone inside with
           | Some (host1, host2) =>
               unescape_ok encodeHost host1 && unescape_ok encodeZone host2
               && unescape_ok encodeHost (String "]" colonPort)
           | None => unescape_ok encodeHost host
           end
    end
  else
    match CutLast ":" host with
    | Some (_, port) => validOptionalPort (String ":" port)
    | None => true
    end
    && unescape_ok encodeHost host.

Definition parseAuthority_ok (authority : string) : bool :=
  match CutLast "@" authority with
  | None => parseHost_ok authority
  | Some (userinfo, host) =>
      parseHost_ok host && validUserinfo userinfo
      && (if Contains ":" userinfo
          then let '(u, p) := Cut ":" userinfo in
               unescape_ok encodeUserPassword u && unescape_ok encodeUserPassword p
          else unescape_ok encodeUserPassword userinfo)
  end.

(** [s[:i]] and [s[i:]] for the index [i] of the first [sep], or [s]
    and the empty string. *)
Fixpoint split_at (sep : ascii) (s : string) : string * string :=
  match s with
  | "" => ("", "")
  | String c r =>
      if Ascii.eqb c sep then ("", s)
      else let '(a, b) := split_at sep r in (String c a, b)
  end.

Definition drop2 (s : string) : string :=
  match s with
  | String _ (String _ r) => r
  | _ => ""
  end.

(** [parse rawURL false]: [true] when it returns no error.  (Recent Go
    releases reject a few more malformed IP-literal hosts.) *)
Definition parse_ok (rawURL : string) : bool :=
  if stringContainsCTLByte rawURL then false
  else if String.eqb rawURL "*" then true
  else
    match getScheme rawURL with
    | None => false
    | Some (scheme, rest) =>
        (* with or without ForceQuery, what follows the first '?' is the
           raw query, which is not validated *)
        let rest := (Cut "?" rest).1 in
        if negb (HasPrefix "/" rest) && negb (String.eqb scheme "") then true
        else if negb (HasPrefix "/" rest) && Contains ":" (Cut "/" rest).1 then false
        else if (negb (String.eqb scheme "") || negb (HasPrefix "///" rest))
                && HasPrefix "//" rest then
          let '(authority, path) := split_at "/" (drop2 rest) in
          parseAuthority_ok authority && unescape_ok encodePath path
        else unescape_ok encodePath rest
    end.

(** [Parse]: the fragment is cut off first and validated last. *)
Definition Parse_ok (rawURL : string) : bool :=
  let '(u, frag) := Cut "#" rawURL in
  parse_ok u && unescape_ok encodeFragment frag.

End url.

(** ** Errors

    Go's [error] values, by the place that creates them. *)

Inductive error :=
| TransportErr (msg : string)      (* returned by [client.Do] or by reading the body *)
| Errorf (format : string)         (* [fmt.Errorf(format)], no operands *)
| SyntaxError                      (* json.SyntaxError *)
| UnmarshalTypeError (Value Type_ : string)
| TimeUnmarshalError (msg : string) (* returned by time.Time.UnmarshalJSON *)
| EOF                              (* [io.EOF] *)
| ErrUnexpectedEOF                 (* [io.ErrUnexpectedEOF] *)
| MarshalError (msg : string).     (* returned by [json.Marshal] *)

(** The text of an error, [err.Error()], where the model has it. *)
Definition Error (err : error) : option string :=
  match err with
  | TransportErr msg | TimeUnmarshalError msg | MarshalError msg => Some msg
  | Errorf format => fmt.Sprintf format []
  | EOF => Some "EOF"
  | ErrUnexpectedEOF => Some "unexpected EOF"
  | SyntaxError | UnmarshalTypeError _ _ => None
  end.

(** ** Package unicode/utf8 *)

Module utf8.

(** Length in bytes of the well-formed UTF-8 encoding that starts [s], or
    [0] when [s] is empty or starts with an invalid byte sequence
    ([DecodeRune] then yields [RuneError] of width 1). *)
Definition size (s : string) : nat :=
  match s with
  | "" => 0%nat
  | String b0 r =>
      let x := byte b0 in
      let between lo hi c := (lo <=? byte c) && (byte c <=? hi) in
      let cont := between 128 191 in
      if x <? 128 then 1%nat
      else if (194 <=? x) && (x <=? 223) then
        match r with
        | String b1 _ => if cont b1 then 2%nat else 0%nat
        | _ => 0%nat
        end
      else if (224 <=? x) && (x <=? 239) then
        let lo := if x =? 224 then 160 else 128 in
        let hi := if x =? 237 then 159 else 191 in
        match r with
        | String b1 (String b2 _) => if between lo hi b1 && cont b2 then 3%nat else 0%nat
        | _ => 0%nat
        end
      else if (240 <=? x) && (x <=? 244) then
        let lo := if x =? 240 then 144 else 128 in
        let hi := if x =? 244 then 143 else 191 in
        match r with
        | String b1 (String b2 (String b3 _)) =>
            if between lo hi b1 && cont b2 && cont b3 then 4%nat else 0%nat
        | _ => 0%nat
        end
      else 0%nat
  end.

Definition RuneError : Z := 65533.

Definition is_surrogate (r : Z) : bool := (55296 <=? r) && (r <=? 57343).

(** [EncodeRune]. *)
Definition EncodeRune (r : Z) : string :=
  let r := if (r <? 0) || (1114111 <? r) || is_surrogate r then RuneError else r in
  if r <? 128 then String (chr r) ""
  else if r <? 2048 then
    String (chr (192 + r / 64)) (String (chr (128 + r mod 64)) "")
  else if r <? 65536 then
    String (chr (224 + r / 4096))
      (String (chr (128 + (r / 64) mod 64)) (String (chr (128 + r mod 64)) ""))
  else
    String (chr (240 + r / 262144))
      (String (chr (128 + (r / 4096) mod 64))
         (String (chr (128 + (r / 64) mod 64)) (String (chr (128 + r mod 64)) ""))).

End utf8.

(** ** Package encoding/json *)

Module json.

(** *** Syntax *)

(** A JSON text as the decoder sees it.  A string literal keeps its raw
    bytes (between the quotes, escapes unresolved) next to its unquoted
    text; object keys are unquoted; numbers keep their literal. *)
Inductive value :=
| JNull
| JBool (b : bool)
| JNumber (lit : string)
| JString (raw : string) (s : string)
| JArray (elems : list value)
| JObject (members : list (string * value)).

Definition getu4 (h1 h2 h3 h4 : ascii) : option Z :=
  if url.ishex h1 && url.ishex h2 && url.ishex h3 && url.ishex h4
  then Some (((url.unhex h1 * 16 + url.unhex h2) * 16 + url.unhex h3) * 16 + url.unhex h4)
  else None.

(** [utf16.DecodeRune]: the code point of a surrogate pair, if valid. *)
Definition utf16_pair (r1 r2 : Z) : option Z :=
  if (55296 <=? r1) && (r1 <? 56320) && (56320 <=? r2) && (r2 <? 57344)
  then Some ((r1 - 55296) * 1024 + (r2 - 56320) + 65536)
  else None.

Definition simple_escape (e : ascii) : option ascii :=
  if one_of "\/'" e || Ascii.eqb e "034" then Some e
  else if Ascii.eqb e "b" then Some "008"%char
  else if Ascii.eqb e "f" then Some "012"%char
  else if Ascii.eqb e "n" then Some "010"%char
  else if Ascii.eqb e "r" then Some "013"%char
  else if Ascii.eqb e "t" then Some "009"%char
  else None.

(** [unquoteBytes] on the text between the quotes.  [pending] counts the
    continuation bytes of a well-formed UTF-8 sequence still to be copied.
    Escapes are resolved; a byte that starts no well-formed sequence and a
    lone surrogate escape become U+FFFD. *)
Fixpoint unquote_from (pending : nat) (s : string) : option string :=
  match s with
  | "" => Some ""
  | String c r =>
      match pending with
      | S k => String c <$> unquote_from k r
      | O =>
          if Ascii.eqb c "\" then
            match r with
            | "" => None
            | String e r' =>
                if Ascii.eqb e "u" then
                  match r' with
                  | String h1 (String h2 (String h3 (String h4 r4))) =>
                      match getu4 h1 h2 h3 h4 with
                      | None => None
                      | Some rr =>
                          if utf8.is_surrogate rr then
                            match r4 with
                            | String b1 (String b2 (String g1 (String g2 (String g3
                                (String g4 r10))))) =>
                                match (if Ascii.eqb b1 "\" && Ascii.eqb b2 "u"
                                       then getu4 g1 g2 g3 g4 ≫= utf16_pair rr
                                       else None) with
                                | Some dec =>
                                    String.append (utf8.EncodeRune dec) <$> unquote_from O r10
                                | None =>
                                    String.append (utf8.EncodeRune utf8.RuneError)
                                      <$> unquote_from O r4
                                end
                            | _ =>
                                String.append (utf8.EncodeRune utf8.RuneError)
                                  <$> unquote_from O r4
                            end
                          else String.append (utf8.EncodeRune rr) <$> unquote_from O r4
                      end
                  | _ => None
                  end
                else
                  match simple_escape e with
                  | Some x => String x <$> unquote_from O r'
                  | None => None
                  end
            end
          else if Ascii.eqb c "034" || (byte c <? 32) then None
          else if byte c <? 128 then String c <$> unquote_from O r
          else
            match utf8.size s with
            | O => String.append (utf8.EncodeRune utf8.RuneError) <$> unquote_from O r
            | S k => String c <$> unquote_from k r
            end
      end
  end.

Definition unquote (raw : string) : option string := unquote_from O raw.

(** Result of scanning a prefix of the input. *)
Inductive scan (A : Type) :=
| Scanned (a : A) (rest : string)
| UnexpectedEnd                   (* the input ends inside the value *)
| Invalid                         (* a byte that cannot continue the value *)
| OutOfFuel.                      (* of the model only; see [first_value_fuel] *)
Arguments Scanned {A}.
Arguments UnexpectedEnd {A}.
Arguments Invalid {A}.
Arguments OutOfFuel {A}.
Definition scan_bind {A B} (m : scan A) (f : A -> string -> scan B) : scan B :=
  match m with
  | Scanned a rest => f a rest
  | UnexpectedEnd => UnexpectedEnd
  | Invalid => Invalid
  | OutOfFuel => OutOfFuel
  end.

Definition scan_map {A B} (f : A -> B) (m : scan A) : scan B :=
  scan_bind m (fun a rest => Scanned (f a) rest).

Definition isSpace (c : ascii) : bool :=
  Ascii.eqb c " " || Ascii.eqb c "009" || Ascii.eqb c "013" || Ascii.eqb c "010".

Fixpoint skip_space (s : string) : string :=
  match s with
  | String c r => if isSpace c then skip_space r else s
  | "" => ""
  end.

(** The text of a string literal, from after its opening quote up to its
    closing quote. *)
Fixpoint scan_string (s : string) : scan string :=
  match s with
  | "" => UnexpectedEnd
  | String c r =>
      if Ascii.eqb c "034" then Scanned "" r
      else if Ascii.eqb c "\" then
        match r with
        | "" => UnexpectedEnd
        | String e r' =>
            if one_of "bfnrt\/" e || Ascii.eqb e "034" then
              scan_map (fun x => String c (String e x)) (scan_string r')
            else if Ascii.eqb e "u" then
              match r' with
              | String h1 (String h2 (String h3 (String h4 r''))) =>
                  if url.ishex h1 && url.ishex h2 && url.ishex h3 && url.ishex h4
                  then scan_map (fun x => String c (String e (String h1 (String h2
                                   (String h3 (String h4 x)))))) (scan_string r'')
                  else Invalid
              | _ => if all_bytes url.ishex r' then UnexpectedEnd else Invalid
              end
            else Invalid
        end
      else if byte c <? 32 then Invalid
      else scan_map (String c) (scan_string r)
  end.

Fixpoint digits (s : string) : string * string :=
  match s with
  | String c r => if is_digit c then let '(d, r') := digits r in (String c d, r') else ("", s)
  | "" => ("", "")
  end.

Definition scan_digits1 (s : string) : scan string :=
  match s with
  | "" => UnexpectedEnd
  | String c _ => if is_digit c then let '(d, r) := digits s in Scanned d r else Invalid
  end.

Definition scan_int (s : string) : scan string :=
  match s with
  | "" => UnexpectedEnd
  | String c r =>
      if Ascii.eqb c "0" then Scanned "0" r
      else if in_range "1" "9" c then let '(d, r') := digits r in Scanned (String c d) r'
      else Invalid
  end.

Definition scan_frac (s : string) : scan string :=
  match s with
  | String c r => if Ascii.eqb c "." then scan_map (String ".") (scan_digits1 r) else Scanned "" s
  | "" => Scanned "" s
  end.

Definition scan_exp (s : string) : scan string :=
  match s with
  | String c r =>
      if one_of "eE" c then
        match r with
        | "" => UnexpectedEnd
        | String sg r' =>
            if one_of "+-" sg then scan_map (fun d => String c (String sg d)) (scan_digits1 r')
            else scan_map (String c) (scan_digits1 r)
        end
      else Scanned "" s
  | "" => Scanned "" s
  end.

Definition scan_number (s : string) : scan string :=
  scan_bind (match s with
             | String c r =>
                 if Ascii.eqb c "-" then scan_map (String "-") (scan_int r) else scan_int s
             | "" => scan_int s
             end) (fun i r =>
  scan_bind (scan_frac r) (fun f r =>
  scan_bind (scan_exp r) (fun e r => Scanned (i +:+ f +:+ e) r))).

(** The rest of a literal name ([true], [false], [null]). *)
Fixpoint scan_literal (name : string) (s : string) : scan unit :=
  match name with
  | "" => Scanned tt s
  | String n name' =>
      match s with
      | "" => UnexpectedEnd
      | String c r => if Ascii.eqb c n then scan_literal name' r else Invalid
      end
  end.

(** A scanned literal with its unquoted text.  (A literal accepted by
    [scan_string] always unquotes, see [scan_string_unquote]; the decoder
    panics otherwise.) *)
Definition resolved {A} (k : string -> A) (raw rest : string) : scan A :=
  match unquote raw with
  | Some s => Scanned (k s) rest
  | None => Invalid
  end.

(** The rest of [s] when it starts with byte [c]. *)
Definition after (c : ascii) (s : string) : option string :=
  match s with
  | String x r => if Ascii.eqb x c then Some r else None
  | "" => None
  end.

(** Nesting limit of the scanner (Go 1.15 and later). *)
Definition maxNestingDepth : N := 10000.

(** One JSON value at the start of [s] (no leading space).  [depth] is the
    number of enclosing arrays and objects. *)
Fixpoint scan_value (fuel : nat) (depth : N) (s : string) {struct fuel} : scan value :=
  match fuel with
  | O => OutOfFuel
  | S fuel =>
      match s with
      | "" => UnexpectedEnd
      | String c r =>
          if Ascii.eqb c "{" then
            if (maxNestingDepth <? depth + 1)%N then Invalid
            else match after "}" (skip_space r) with
                 | Some r' => Scanned (JObject []) r'
                 | None => scan_map JObject (scan_members fuel (depth + 1)%N (skip_space r))
                 end
          else if Ascii.eqb c "[" then
            if (maxNestingDepth <? depth + 1)%N then Invalid
            else match after "]" (skip_space r) with
                 | Some r' => Scanned (JArray []) r'
                 | None => scan_map JArray (scan_elements fuel (depth + 1)%N (skip_space r))
                 end
          else if Ascii.eqb c "034" then
            scan_bind (scan_string r) (fun raw r' => resolved (JString raw) raw r')
          else if Ascii.eqb c "t" then scan_map (fun _ => JBool true) (scan_literal "rue" r)
          else if Ascii.eqb c "f" then scan_map (fun _ => JBool false) (scan_literal "alse" r)
          else if Ascii.eqb c "n" then scan_map (fun _ => JNull) (scan_literal "ull" r)
          else if Ascii.eqb c "-" || is_digit c then scan_map JNumber (scan_number s)
          else Invalid
      end
  end

(** The elements of a non-empty array, from its first element up to the
    closing bracket. *)
with scan_elements (fuel : nat) (depth : N) (s : string) {struct fuel} : scan (list value) :=
  match fuel with
  | O => OutOfFuel
  | S fuel =>
      scan_bind (scan_value fuel depth s) (fun v r =>
        match skip_space r with
        | "" => UnexpectedEnd
        | String c r' =>
            if Ascii.eqb c "," then
              scan_map (cons v) (scan_elements fuel depth (skip_space r'))
            else if Ascii.eqb c "]" then Scanned [v] r'
            else Invalid
        end)
  end

(** The members of a non-empty object, from its first key up to the
    closing brace. *)
with scan_members (fuel : nat) (depth : N) (s : string) {struct fuel}
     : scan (list (string * value)) :=
  match fuel with
  | O => OutOfFuel
  | S fuel =>
      match s with
      | "" => UnexpectedEnd
      | String q r =>
          if negb (Ascii.eqb q "034") then Invalid
          else
            scan_bind (scan_bind (scan_string r) (resolved id)) (fun key r =>
              match skip_space r with
              | "" => UnexpectedEnd
              | String c r' =>
                  if negb (Ascii.eqb c ":") then Invalid
                  else
                    scan_bind (scan_value fuel depth (skip_space r')) (fun v r =>
                      match skip_space r with
                      | "" => UnexpectedEnd
                      | String c r' =>
                          if Ascii.eqb c "," then
                            scan_map (cons (key, v))
                              (scan_members fuel depth (skip_space r'))
                          else if Ascii.eqb c "}" then Scanned [(key, v)] r'
                          else Invalid
                      end)
              end)
      end
  end.

(** The first value of [data], after leading space, and what follows it:
    what [Decoder.readValue] delimits.  The fuel is never used up: of two
    nested calls in a row at least one has consumed a byte. *)
Definition first_value (data : string) : scan value :=
  scan_value (2 * String.length data + 1) 0%N (skip_space data).

(** [checkValid]: the whole of [data] is one value, surrounded by space. *)
Definition whole_value (data : string) : option value :=
  match first_value data with
  | Scanned v rest => if String.eqb (skip_space rest) "" then Some v else None
  | _ => None
  end.

(** *** Decoding into typed values *)

(** Outcome of storing a JSON value into a Go value of type [A].  The
    decoder remembers the first type mismatch ([saveError]) and goes on;
    an error returned by an [Unmarshaler] stops it.  Either way the target
    keeps what was stored before. *)
Inductive stored (A : Type) :=
| Stored (a : A) (savedError : option error)
| Stopped (a : A) (err : error).
Arguments Stored {A}.
Arguments Stopped {A}.

(** A decoder for type [A]: JSON value, current contents of the target,
    error saved so far. *)
Definition decoder (A : Type) : Type := value -> A -> option error -> stored A.

Definition saveError (err : error) (saved : option error) : option error :=
  match saved with
  | None => Some err
  | Some _ => saved
  end.

Definition kind_of (v : value) : string :=
  match v with
  | JNull => "null"
  | JBool _ => "bool"
  | JNumber _ => "number"
  | JString _ _ => "string"
  | JArray _ => "array"
  | JObject _ => "object"
  end.

Definition mismatch {A} (v : value) (ty : string) (cur : A) (saved : option error) : stored A :=
  Stored cur (saveError (UnmarshalTypeError (kind_of v) ty) saved).

Definition string_ : decoder string := fun v cur saved =>
  match v with
  | JNull => Stored cur saved
  | JString _ s => Stored s saved
  | _ => mismatch v "string" cur saved
  end.

Definition bool_ : decoder bool := fun v cur saved =>
  match v with
  | JNull => Stored cur saved
  | JBool b => Stored b saved
  | _ => mismatch v "bool" cur saved
  end.

Fixpoint digits_value (acc : Z) (s : string) : option Z :=
  match s with
  | "" => Some acc
  | String c r => if is_digit c then digits_value (acc * 10 + (byte c - 48)) r else None
  end.

(** [strconv.ParseInt lit 10 64] on a JSON number literal. *)
Definition ParseInt (lit : string) : option Z :=
  n ← match lit with
       | String "-" r => Z.opp <$> digits_value 0 r
       | _ => digits_value 0 lit
       end;
  if (- 2 ^ 63 <=? n) && (n <? 2 ^ 63) then Some n else None.

(** Go's [int], on a 64-bit platform. *)
Definition int_ : decoder Z := fun v cur saved =>
  match v with
  | JNull => Stored cur saved
  | JNumber lit =>
      match ParseInt lit with
      | Some n => Stored n saved
      | None => Stored cur (saveError (UnmarshalTypeError ("number " +:+ lit) "int") saved)
      end
  | _ => mismatch v "int" cur saved
  end.

(** The element loop of [array] for a slice target: element [i] is decoded
    into the old element [i] when the slice has one, and into a zero value
    otherwise. *)
Fixpoint elements {A} (elem : decoder A) (zero : A) (vs : list value) (cur : list A)
         (saved : option error) : stored (list A) :=
  match vs with
  | [] => Stored [] saved
  | v :: vs' =>
      let old := match cur with x :: _ => x | [] => zero end in
      match elem v old saved with
      | Stored a saved' =>
          match elements elem zero vs' (tail cur) saved' with
          | Stored l saved'' => Stored (a :: l) saved''
          | Stopped l err => Stopped (a :: l) err
          end
      | Stopped a err => Stopped (a :: tail cur) err
      end
  end.

Definition slice {A} (ty : string) (elem : decoder A) (zero : A) : decoder (list A) :=
  fun v cur saved =>
    match v with
    | JNull => Stored [] saved
    | JArray vs => elements elem zero vs cur saved
    | _ => mismatch v ty cur saved
    end.

(** A struct field: its JSON name and how a value is stored into it. *)
Record field (S : Type) := Field {
  name : string;
  store : value -> S -> option error -> stored S;
}.
Arguments Field {S}.
Arguments name {S}.
Arguments store {S}.

(** A field of type [A], read with [get] and written with [set]. *)
Definition fld {S A} (name : string) (get : S -> A) (set : A -> S -> S)
           (dec : decoder A) : field S :=
  Field name (fun v s saved =>
    match dec v (get s) saved with
    | Stored a saved' => Stored (set a s) saved'
    | Stopped a err => Stopped (set a s) err
    end).

(** Case folding of names.  Besides the ASCII letters only U+017F (long s)
    and U+212A (Kelvin sign) fold to an ASCII letter; the names of this
    program's fields are ASCII. *)
Fixpoint foldName (s : string) : string :=
  match s with
  | "" => ""
  | String c r =>
      match r with
      | String c1 r1 =>
          if (byte c =? 197) && (byte c1 =? 191) then String "S" (foldName r1)
          else
            match r1 with
            | String c2 r2 =>
                if (byte c =? 226) && (byte c1 =? 132) && (byte c2 =? 170)
                then String "K" (foldName r2)
                else String (to_upper c) (foldName r)
            | "" => String (to_upper c) (foldName r)
            end
      | "" => String (to_upper c) ""
      end
  end.

(** The field a key names: an exact match first, else a match up to case. *)
Definition find_field {S} (fields : list (field S)) (key : string) : option (field S) :=
  match List.find (fun f => String.eqb (name f) key) fields with
  | Some f => Some f
  | None => List.find (fun f => String.eqb (foldName (name f)) (foldName key)) fields
  end.

(** The member loop of [object] for a struct target: members are stored in
    the order of the text; a key that names no field is skipped. *)
Fixpoint members_loop {S} (fields : list (field S)) (kvs : list (string * value)) (s : S)
         (saved : option error) : stored S :=
  match kvs with
  | [] => Stored s saved
  | (key, v) :: kvs' =>
      match find_field fields key with
      | None => members_loop fields kvs' s saved
      | Some f =>
          match store f v s saved with
          | Stored s' saved' => members_loop fields kvs' s' saved'
          | Stopped s' err => Stopped s' err
          end
      end
  end.

Definition struct {S} (ty : string) (fields : list (field S)) : decoder S :=
  fun v cur saved =>
    match v with
    | JNull => Stored cur saved
    | JObject kvs => members_loop fields kvs cur saved
    | _ => mismatch v ty cur saved
    end.

(** A pointer to a type with an [UnmarshalJSON] method: [null] stores a
    nil pointer; any other value allocates a zero target if the pointer is
    nil and calls the method, whose error stops the decoder. *)
Definition unmarshaler_ptr {A} (zero : A) (UnmarshalJSON : value -> A -> A * option error)
  : decoder (option A) := fun v cur saved =>
    match v with
    | JNull => Stored None saved
    | _ =>
        match UnmarshalJSON v (default zero cur) with
        | (a, None) => Stored (Some a) saved
        | (a, Some err) => Stopped (Some a) err
        end
    end.

Definition finish {A} (r : stored A) : A * option error :=
  match r with
  | Stored a saved => (a, saved)
  | Stopped a err => (a, Some err)
  end.

(** [json.Unmarshal data &cur]. *)
Definition Unmarshal {A} (dec : decoder A) (data : string) (cur : A) : A * option error :=
  match whole_value data with
  | None => (cur, Some SyntaxError)
  | Some v => finish (dec v cur None)
  end.

(** [json.NewDecoder(bytes.NewReader(data)).Decode(&cur)]: the first
    value of the stream is decoded; what follows it is left unread. *)
Definition Decode {A} (dec : decoder A) (data : string) (cur : A) : A * option error :=
  match skip_space data with
  | "" => (cur, Some EOF)
  | _ =>
      match first_value data with
      | Scanned v _ => finish (dec v cur None)
      | UnexpectedEnd => (cur, Some ErrUnexpectedEOF)
      | Invalid | OutOfFuel => (cur, Some SyntaxError)
      end
  end.

End json.

(** ** Package time

    The program reads the clock, converts to UTC, formats with the RFC 3339
    layout, and decodes [*time.Time] fields; the package is an interface
    here. *)

Module time.

Class Pkg := {
  Time : Type;
  zero : Time;                                  (* time.Time{} *)
  UTC : Time -> Time;
  Format : Time -> string -> string;
  UnmarshalJSON : json.value -> Time -> Time * option error;
}.

Definition RFC3339 : string := "2006-01-02T15:04:05Z07:00".

End time.

(** ** Structures

    One module per struct of [main.go]: the record, its zero value and, for
    the structs that are decoded, the JSON name of every field (its struct
    tag) with the store into it. *)

(** Session represents an active connection to the Clockify REST API. *)
Record Session := { APIToken : string }.

Module AccountSettings.
Record t := mk { WeekStart : string; TimeZone : string; TimeFormat : string; DateFormat : string }.
Definition zero : t := mk "" "" "" "".
Definition fields : list (json.field t) :=
  [ json.fld "weekStart" WeekStart (fun a s => mk a (TimeZone s) (TimeFormat s) (DateFormat s)) json.string_;
    json.fld "timeZone" TimeZone (fun a s => mk (WeekStart s) a (TimeFormat s) (DateFormat s)) json.string_;
    json.fld "timeFormat" TimeFormat (fun a s => mk (WeekStart s) (TimeZone s) a (DateFormat s)) json.string_;
    json.fld "dateFormat" DateFormat (fun a s => mk (WeekStart s) (TimeZone s) (TimeFormat s) a) json.string_ ].
Definition decoder : json.decoder t := json.struct "clockify.AccountSettings" fields.
End AccountSettings.

Module Workspace.
Record t := mk { ID : string; RoundingMinutes : Z; Name : string }.
Definition zero : t := mk "" 0 "".
Definition fields : list (json.field t) :=
  [ json.fld "id" ID (fun a s => mk a (RoundingMinutes s) (Name s)) json.string_;
    json.fld "rounding_minutes" RoundingMinutes (fun a s => mk (ID s) a (Name s)) json.int_;
    json.fld "name" Name (fun a s => mk (ID s) (RoundingMinutes s) a) json.string_ ].
Definition decoder : json.decoder t := json.struct "clockify.Workspace" fields.
End Workspace.

Module Client.
Record t := mk { Wid : string; ID : Z; Name : string }.
Definition zero : t := mk "" 0 "".
Definition fields : list (json.field t) :=
  [ json.fld "workspaceId" Wid (fun a s => mk a (ID s) (Name s)) json.string_;
    json.fld "id" ID (fun a s => mk (Wid s) a (Name s)) json.int_;
    json.fld "name" Name (fun a s => mk (Wid s) (ID s) a) json.string_ ].
Definition decoder : json.decoder t := json.struct "clockify.Client" fields.
End Client.

Module Project.
Record t := mk { Wid : string; ID : string; Name : string; Active : bool; Billable : bool }.
Definition zero : t := mk "" "" "" false false.
Definition fields : list (json.field t) :=
  [ json.fld "workspaceId" Wid (fun a s => mk a (ID s) (Name s) (Active s) (Billable s)) json.string_;
    json.fld "id" ID (fun a s => mk (Wid s) a (Name s) (Active s) (Billable s)) json.string_;
    json.fld "name" Name (fun a s => mk (Wid s) (ID s) a (Active s) (Billable s)) json.string_;
    json.fld "archived" Active (fun a s => mk (Wid s) (ID s) (Name s) a (Billable s)) json.bool_;
    json.fld "billable" Billable (fun a s => mk (Wid s) (ID s) (Name s) (Active s) a) json.bool_ ].
Definition decoder : json.decoder t := json.struct "clockify.Project" fields.

(** IsActive indicates whether a project exists and is active *)
Definition IsActive (p : t) : bool := Active p.
End Project.

Module Task.
Record t := mk { Pid : string; ID : string; Name : string }.
Definition zero : t := mk "" "" "".
Definition fields : list (json.field t) :=
  [ json.fld "projectId" Pid (fun a s => mk a (ID s) (Name s)) json.string_;
    json.fld "id" ID (fun a s => mk (Pid s) a (Name s)) json.string_;
    json.fld "name" Name (fun a s => mk (Pid s) (ID s) a) json.string_ ].
Definition decoder : json.decoder t := json.struct "clockify.Task" fields.
End Task.

Module Tag.
Record t := mk { Wid : string; ID : string; Name : string }.
Definition zero : t := mk "" "" "".
Definition fields : list (json.field t) :=
  [ json.fld "workspaceId" Wid (fun a s => mk a (ID s) (Name s)) json.string_;
    json.fld "id" ID (fun a s => mk (Wid s) a (Name s)) json.string_;
    json.fld "name" Name (fun a s => mk (Wid s) (ID s) a) json.string_ ].
Definition decoder : json.decoder t := json.struct "clockify.Tag" fields.
End Tag.

Module TimeInterval.
Record t `{time.Pkg} := mk { Duration : string; Stop : option time.Time; Start : option time.Time }.
Definition zero `{time.Pkg} : t := mk _ "" None None.
Definition time_ptr `{time.Pkg} : json.decoder (option time.Time) :=
  json.unmarshaler_ptr time.zero time.UnmarshalJSON.
Definition fields `{time.Pkg} : list (json.field t) :=
  [ json.fld "duration" Duration (fun a s => mk _ a (Stop s) (Start s)) json.string_;
    json.fld "end" Stop (fun a s => mk _ (Duration s) a (Start s)) time_ptr;
    json.fld "start" Start (fun a s => mk _ (Duration s) (Stop s) a) time_ptr ].
Definition decoder `{time.Pkg} : json.decoder t := json.struct "clockify.TimeInterval" fields.
End TimeInterval.

Module TimeEntry.
Record t `{time.Pkg} := mk {
  Wid : string; ID : string; Pid : string; Tid : string; Description : string;
  TimeInterval : TimeInterval.t; Tags : list string; Billable : bool }.
Definition zero `{time.Pkg} : t := mk _ "" "" "" "" "" TimeInterval.zero [] false.
Definition fields `{time.Pkg} : list (json.field t) :=
  [ json.fld "workspaceId" Wid
      (fun a s => mk _ a (ID s) (Pid s) (Tid s) (Description s) (TimeInterval s) (Tags s) (Billable s))
      json.string_;
    json.fld "id" ID
      (fun a s => mk _ (Wid s) a (Pid s) (Tid s) (Description s) (TimeInterval s) (Tags s) (Billable s))
      json.string_;
    json.fld "pid" Pid
      (fun a s => mk _ (Wid s) (ID s) a (Tid s) (Description s) (TimeInterval s) (Tags s) (Billable s))
      json.string_;
    json.fld "taskId" Tid
      (fun a s => mk _ (Wid s) (ID s) (Pid s) a (Description s) (TimeInterval s) (Tags s) (Billable s))
      json.string_;
    json.fld "description" Description
      (fun a s => mk _ (Wid s) (ID s) (Pid s) (Tid s) a (TimeInterval s) (Tags s) (Billable s))
      json.string_;
    json.fld "timeInterval" TimeInterval
      (fun a s => mk _ (Wid s) (ID s) (Pid s) (Tid s) (Description s) a (Tags s) (Billable s))
      TimeInterval.decoder;
    json.fld "tagIds" Tags
      (fun a s => mk _ (Wid s) (ID s) (Pid s) (Tid s) (Description s) (TimeInterval s) a (Billable s))
      (json.slice "[]string" json.string_ "");
    json.fld "billable" Billable
      (fun a s => mk _ (Wid s) (ID s) (Pid s) (Tid s) (Description s) (TimeInterval s) (Tags s) a)
      json.bool_ ].
Definition decoder `{time.Pkg} : json.decoder t := json.struct "clockify.TimeEntry" fields.
End TimeEntry.

(** TimeEntryRequest represents a single time entry request. *)
Module TimeEntryRequest.
Record t := mk {
  Start : string; Pid : string; Tid : string; Description : string; End_ : string;
  Tags : list string; Billable : bool }.
Definition zero : t := mk "" "" "" "" "" [] false.
End TimeEntryRequest.

Module Account.
Record t `{time.Pkg} := mk {
  ID : string; Name : string; Email : string;
  Workspaces : list Workspace.t; Clients : list Client.t; Projects : list Project.t;
  Tasks : list Task.t; Tags : list Tag.t; TimeEntries : list TimeEntry.t;
  Settings : AccountSettings.t }.
Definition zero `{time.Pkg} : t := mk _ "" "" "" [] [] [] [] [] [] AccountSettings.zero.
Definition fields `{time.Pkg} : list (json.field t) :=
  [ json.fld "id" ID
      (fun a s => mk _ a (Name s) (Email s) (Workspaces s) (Clients s) (Projects s) (Tasks s)
                    (Tags s) (TimeEntries s) (Settings s)) json.string_;
    json.fld "name" Name
      (fun a s => mk _ (ID s) a (Email s) (Workspaces s) (Clients s) (Projects s) (Tasks s)
                    (Tags s) (TimeEntries s) (Settings s)) json.string_;
    json.fld "email" Email
      (fun a s => mk _ (ID s) (Name s) a (Workspaces s) (Clients s) (Projects s) (Tasks s)
                    (Tags s) (TimeEntries s) (Settings s)) json.string_;
    json.fld "workspaces" Workspaces
      (fun a s => mk _ (ID s) (Name s) (Email s) a (Clients s) (Projects s) (Tasks s)
                    (Tags s) (TimeEntries s) (Settings s))
      (json.slice "[]clockify.Workspace" Workspace.decoder Workspace.zero);
    json.fld "clients" Clients
      (fun a s => mk _ (ID s) (Name s) (Email s) (Workspaces s) a (Projects s) (Tasks s)
                    (Tags s) (TimeEntries s) (Settings s))
      (json.slice "[]clockify.Client" Client.decoder Client.zero);
    json.fld "projects" Projects
      (fun a s => mk _ (ID s) (Name s) (Email s) (Workspaces s) (Clients s) a (Tasks s)
                    (Tags s) (TimeEntries s) (Settings s))
      (json.slice "[]clockify.Project" Project.decoder Project.zero);
    json.fld "tasks" Tasks
      (fun a s => mk _ (ID s) (Name s) (Email s) (Workspaces s) (Clients s) (Projects s) a
                    (Tags s) (TimeEntries s) (Settings s))
      (json.slice "[]clockify.Task" Task.decoder Task.zero);
    json.fld "tags" Tags
      (fun a s => mk _ (ID s) (Name s) (Email s) (Workspaces s) (Clients s) (Projects s) (Tasks s)
                    a (TimeEntries s) (Settings s))
      (json.slice "[]clockify.Tag" Tag.decoder Tag.zero);
    json.fld "time_entries" TimeEntries
      (fun a s => mk _ (ID s) (Name s) (Email s) (Workspaces s) (Clients s) (Projects s) (Tasks s)
                    (Tags s) a (Settings s))
      (json.slice "[]clockify.TimeEntry" TimeEntry.decoder TimeEntry.zero);
    json.fld "settings" Settings
      (fun a s => mk _ (ID s) (Name s) (Email s) (Workspaces s) (Clients s) (Projects s) (Tasks s)
                    (Tags s) (TimeEntries s) a)
      AccountSettings.decoder ].
Definition decoder `{time.Pkg} : json.decoder t := json.struct "clockify.Account" fields.
End Account.

Definition decodeSession_fields : list (json.field Session) :=
  [ json.fld "APIToken" APIToken (fun a _ => Build_Session a) json.string_ ].

(** ** Package net/http *)

Module http.

Definition isTokenByte (c : ascii) : bool := is_alnum c || one_of "!#$%&'*+-.^_`|~" c.

Definition validMethod (method : string) : bool :=
  negb (String.eqb method "") && all_bytes isTokenByte method.

Fixpoint canonical (upper : bool) (s : string) : string :=
  match s with
  | "" => ""
  | String c r =>
      let c := if upper then to_upper c else to_lower c in
      String c (canonical (Ascii.eqb c "-") r)
  end.

(** [textproto.CanonicalMIMEHeaderKey]. *)
Definition CanonicalMIMEHeaderKey (s : string) : string :=
  if all_bytes isTokenByte s then canonical true s else s.

Record Request := mkRequest {
  Method : string;
  URL : string;
  Header : gmap string (list string);
  Body : option string;                        (* None: a nil io.Reader *)
}.

(** [Header.Add]. *)
Definition Header_Add (key value : string) (h : gmap string (list string))
  : gmap string (list string) :=
  let key := CanonicalMIMEHeaderKey key in
  <[key := (default [] (h !! key) ++ [value])%list]> h.

Definition Add (key value : string) (req : Request) : Request :=
  mkRequest (Method req) (URL req) (Header_Add key value (Header req)) (Body req).

(** [http.NewRequest]: [None] is the result [(nil, err)], for a method
    that is no token or a URL that [url.Parse] rejects. *)
Definition NewRequest (method urlStr : string) (body : option string) : option Request :=
  let method := if String.eqb method "" then "GET" else method in
  if validMethod method && url.Parse_ok urlStr
  then Some (mkRequest method urlStr ∅ body)
  else None.

(** A response as the program looks at it: the status code, the status
    line, and what [ioutil.ReadAll(resp.Body)] returns. *)
Record Response := mkResponse {
  StatusCode : Z;
  Status : string;
  ReadAll : string * option error;
}.

End http.

(** ** Package log *)

Module log.

Inductive Writer := Stderr | Discard.          (* os.Stderr, ioutil.Discard *)

Definition LstdFlags : Z := 3.                 (* Ldate | Ltime *)

Record Logger := mkLogger { out : Writer; prefix : string; flags : Z }.

Definition SetFlags (f : Z) (l : Logger) : Logger := mkLogger (out l) (prefix l) f.
Definition SetOutput (w : Writer) (l : Logger) : Logger := mkLogger w (prefix l) (flags l).

End log.

(** ** The program and its environment *)

(** Operands of the program's log lines.  The text a line is rendered to is
    not modelled: a line is kept as its format and operands. *)
Inductive operand `{time.Pkg} :=
| OString (s : string)
| OBytes (b : string)
| OTimeEntry (e : TimeEntry.t)
| OProjects (l : list Project.t).

Record line `{time.Pkg} := mkLine {
  line_prefix : string; line_flags : Z; line_format : string; line_operands : list operand }.

(** What lies outside the program: the network behind the shared
    [http.Client], the clock, and the order in which the Go runtime ranges
    over a map (any order, every entry once).  [json.Marshal] of a request
    payload is kept as a function; it returns no error on this struct of
    strings, a string slice and a bool. *)
Class Runtime `{time.Pkg} := {
  Env : Type;
  client_Do : http.Request -> Env -> (http.Response + error) * Env;
  time_Now : Env -> time.Time * Env;
  map_range : forall {V : Type}, gmap string V -> Env -> list (string * V) * Env;
  map_range_perm : forall (V : Type) (m : gmap string V) (e : Env),
      (map_range m e).1 ≡ₚ map_to_list m;
  json_Marshal : TimeEntryRequest.t -> string * option error;
  json_Marshal_ok : forall r : TimeEntryRequest.t, (json_Marshal r).2 = None;
}.

(** Clockify service constants *)
Definition ClockifyAPI : string := "https://api.clockify.me/api/v1".
Definition DefaultAppName : string := "go-clockify".

Definition newline : string := String "010" "".

(** What the caller of an operation gets. *)
Inductive result (A : Type) :=
| Returned (a : A)
| Panicked
| NotModelled.
Arguments Returned {A}.
Arguments Panicked {A}.
Arguments NotModelled {A}.

Section Program.

Context `{RT : Runtime}.

(** The state a call runs in: the environment, the package-level logger
    [dlog], what has been written to standard error, and the requests
    handed to [client.Do] so far (a trace, oldest first). *)
Record World := mkWorld {
  env : Env; dlog : log.Logger; stderr : list line; sent : list http.Request }.

(** [dlog = log.New(os.Stderr, "[clockify] ", log.LstdFlags)] *)
Definition dlog_init : log.Logger := log.mkLogger log.Stderr "[clockify] " log.LstdFlags.

Inductive outcome (A : Type) :=
| Returns (a : A) (w : World)
| Panics (w : World)                 (* a run-time panic *)
| Unmodelled.                        (* a format outside the model of fmt *)
Arguments Returns {A}.
Arguments Panics {A}.
Arguments Unmodelled {A}.

Definition M (A : Type) : Type := World -> outcome A.

Definition result_of {A} (o : outcome A) : result A :=
  match o with
  | Returns a _ => Returned a
  | Panics _ => Panicked
  | Unmodelled => NotModelled
  end.

#[export] Instance M_ret : MRet M := fun A a w => Returns a w.
#[export] Instance M_bind : MBind M := fun A B f m w =>
  match m w with
  | Returns a w' => f a w'
  | Panics w' => Panics w'
  | Unmodelled => Unmodelled
  end.

Definition panic {A} : M A := fun w => Panics w.

Definition with_env {A} (f : Env -> A * Env) : M A := fun w =>
  let '(a, e) := f (env w) in Returns a (mkWorld e (dlog w) (stderr w) (sent w)).

(** [client.Do]. *)
Definition Do (req : http.Request) : M (http.Response + error) := fun w =>
  let '(resp, e) := client_Do req (env w) in
  Returns resp (mkWorld e (dlog w) (stderr w) (sent w ++ [req])%list).

Definition Sprintf (format : string) (a : list string) : M string := fun w =>
  match fmt.Sprintf format a with
  | Some s => Returns s w
  | None => Unmodelled
  end.

(** [dlog.Printf]. *)
Definition dlog_Printf (format : string) (a : list operand) : M unit := fun w =>
  match log.out (dlog w) with
  | log.Stderr =>
      Returns tt (mkWorld (env w) (dlog w)
                    (stderr w ++ [mkLine _ (log.prefix (dlog w)) (log.flags (dlog w)) format a])%list
                    (sent w))
  | log.Discard => Returns tt w
  end.

Definition Now_UTC_RFC3339 : M string :=
  now ← with_env time_Now; mret (time.Format (time.UTC now) time.RFC3339).

(** OpenSession opens a session using an existing API token. *)
Definition OpenSession (apiToken : string) : Session := Build_Session apiToken.

(** *** support *)

(** A byte slice result is a [string]; the nil slice is the empty string. *)
Definition request (session : Session) (method requestURL : string) (body : option string)
  : M (string * option error) :=
  match http.NewRequest method requestURL body with
  | None => panic                  (* [req] is nil and [req.Header] dereferences it *)
  | Some req =>
      let req := if negb (String.eqb (APIToken session) "")
                 then http.Add "X-Api-Key" (APIToken session) req else req in
      let req := http.Add "Content-Type" "application/json" req in
      resp ← Do req;
      match resp with
      | inr err => mret ("", Some err)
      | inl resp =>
          match http.ReadAll resp with
          | (_, Some err) => mret ("", Some err)
          | (content, None) =>
              if (http.StatusCode resp <? 200) || (400 <=? http.StatusCode resp)
              then mret (content, Some (Errorf (http.Status resp)))
              else mret (content, None)
          end
      end
  end.

(** [url.Values.Set]. *)
Definition Values_Set (key value : string) (v : gmap string (list string))
  : gmap string (list string) := <[key := [value]]> v.

(** The body of [url.Values.Encode] once the keys are collected:
    [slices.Sort], then one [key=value] per value, [&] between them. *)
Definition Encode_pairs (keys : list string) (v : gmap string (list string)) : list string :=
  k ← merge_sort String.le keys;
  (fun x => url.QueryEscape k +:+ "=" +:+ url.QueryEscape x) <$> default [] (v !! k).

Fixpoint write_pairs (buf : string) (pairs : list string) : string :=
  match pairs with
  | [] => buf
  | p :: pairs' =>
      write_pairs ((if (0 <? String.length buf)%nat then buf +:+ "&" else buf) +:+ p) pairs'
  end.

Definition Values_Encode (v : gmap string (list string)) : M string :=
  if decide (v = ∅) then mret ""
  else entries ← with_env (map_range v);
       mret (write_pairs "" (Encode_pairs entries.*1 v)).

Definition get (session : Session) (requestURL path : string)
           (params : option (gmap string string)) : M (string * option error) :=
  let requestURL := requestURL +:+ path in
  requestURL ←
    match params with
    | Some params =>
        entries ← with_env (map_range params);
        let data := foldl (fun data kv => Values_Set kv.1 kv.2 data) ∅ entries in
        q ← Values_Encode data;
        mret (requestURL +:+ "?" +:+ q)
    | None => mret requestURL
    end;
  _ ← dlog_Printf "GETing from URL: %s" [OString requestURL];
  request session "GET" requestURL None.

Definition marshal (data : option TimeEntryRequest.t) : string * option error :=
  match data with
  | Some d => json_Marshal d
  | None => ("", None)
  end.

Definition post (session : Session) (requestURL path : string)
           (data : option TimeEntryRequest.t) : M (string * option error) :=
  let requestURL := requestURL +:+ path in
  match marshal data with
  | (_, Some err) => mret ("", Some err)
  | (body, None) =>
      _ ← dlog_Printf "POSTing to URL: %s" [OString requestURL];
      _ ← dlog_Printf "data: %s" [OBytes body];
      request session "POST" requestURL (Some body)
  end.

Definition put (session : Session) (requestURL path : string)
           (data : option TimeEntryRequest.t) : M (string * option error) :=
  let requestURL := requestURL +:+ path in
  match marshal data with
  | (_, Some err) => mret ("", Some err)
  | (body, None) =>
      _ ← dlog_Printf "PUTing to URL %s: %s" [OString requestURL; OString body];
      request session "PUT" requestURL (Some body)
  end.

Definition patch (session : Session) (requestURL path : string)
           (data : option TimeEntryRequest.t) : M (string * option error) :=
  let requestURL := requestURL +:+ path in
  match marshal data with
  | (_, Some err) => mret ("", Some err)
  | (body, None) =>
      _ ← dlog_Printf "PATCHing to URL %s: %s" [OString requestURL; OString body];
      request session "PATCH" requestURL (Some body)
  end.

Definition delete (session : Session) (requestURL path : string) : M (string * option error) :=
  let requestURL := requestURL +:+ path in
  _ ← dlog_Printf "DELETINGing URL: %s" [OString requestURL];
  request session "DELETE" requestURL None.

Definition decodeSession (data : string) (session : Session) : Session * option error :=
  json.Decode (json.struct "clockify.Session" decodeSession_fields) data session.

Definition decodeAccount (data : string) (account : Account.t) : Account.t * option error :=
  json.Decode Account.decoder data account.

Definition requestTimeEntry (res : string * option error) : M (TimeEntry.t * option error) :=
  let '(data, err) := res in
  match err with
  | Some err => mret (TimeEntry.zero, Some err)
  | None =>
      let '(entry, err) := json.Unmarshal TimeEntry.decoder data TimeEntry.zero in
      _ ← dlog_Printf ("Unmarshaled '%s' into %#v" +:+ newline) [OBytes data; OTimeEntry entry];
      match err with
      | Some err => mret (TimeEntry.zero, Some err)
      | None => mret (entry, None)
      end
  end.

(** *** functions *)

(** GetAccount returns a user's account information, including a list of
    active projects and timers. *)
Definition GetAccount (session : Session) : M (Account.t * option error) :=
  res ← get session ClockifyAPI "/user" None;
  match res.2 with
  | Some err => mret (Account.zero, Some err)
  | None => mret (decodeAccount res.1 Account.zero)
  end.

(** StartTimeEntry creates a new time entry. *)
Definition StartTimeEntry (session : Session) (workspaceID : string)
           (timeEntryRequest : TimeEntryRequest.t) : M (TimeEntry.t * option error) :=
  path ← Sprintf "/workspaces/%s/time-entries" [workspaceID];
  res ← post session ClockifyAPI path (Some timeEntryRequest);
  requestTimeEntry res.

(** GetTimeEntry returns the time entry *)
Definition GetTimeEntry (session : Session) (workspaceID timeEntryID : string)
  : M (TimeEntry.t * option error) :=
  path ← Sprintf "/workspaces/%s/time-entries/%s" [workspaceID; timeEntryID];
  res ← get session ClockifyAPI path None;
  match res.2 with
  | Some err => mret (TimeEntry.zero, Some err)
  | None => requestTimeEntry res
  end.

(** DeleteTimeEntry deletes a time entry. *)
Definition DeleteTimeEntry (session : Session) (workspaceID timeEntryID : string)
  : M (string * option error) :=
  _ ← dlog_Printf "Deleting time entry %v" [OString timeEntryID];
  path ← Sprintf "/workspaces/%s/time-entries/%s" [workspaceID; timeEntryID];
  delete session ClockifyAPI path.

(** ContinueTimeEntry continues a time entry by creating a new entry with
    the same description. *)
Definition ContinueTimeEntry (session : Session) (timer : TimeEntry.t) (duronly : bool)
  : M (TimeEntry.t * option error) :=
  _ ← dlog_Printf "Continuing timer %v" [OTimeEntry timer];
  start ← Now_UTC_RFC3339;
  let timeEntryRequest :=
    TimeEntryRequest.mk start (TimeEntry.Pid timer) (TimeEntry.Tid timer)
      (TimeEntry.Description timer) "" (TimeEntry.Tags timer) (TimeEntry.Billable timer) in
  path ← Sprintf "/workspaces/%s/time-entries" [TimeEntry.Wid timer];
  res ← post session ClockifyAPI path (Some timeEntryRequest);
  requestTimeEntry res.

(** StopTimeEntry stops a running time entry. *)
Definition StopTimeEntry (session : Session) (workspaceID userID : string)
  : M (TimeEntry.t * option error) :=
  _ ← dlog_Printf "Stopping timer to user %s" [OString userID];
  path ← Sprintf "/workspaces/{workspaceId}/user/{userId}/time-entries" [workspaceID; userID];
  end_ ← Now_UTC_RFC3339;
  res ← patch session ClockifyAPI path (Some (TimeEntryRequest.mk "" "" "" "" end_ [] false));
  requestTimeEntry res.

(** GetProjects allows to query for all projects in a workspace *)
Definition GetProjects (session : Session) (workspaceID : string)
  : M (list Project.t * option error) :=
  _ ← dlog_Printf "Getting projects for workspace %s" [OString workspaceID];
  path ← Sprintf "/workspaces/%s/projects" [workspaceID];
  res ← get session ClockifyAPI path None;
  match res.2 with
  | Some err => mret ([], Some err)
  | None =>
      let '(projects, err) :=
        json.Unmarshal (json.slice "[]clockify.Project" Project.decoder Project.zero) res.1 [] in
      _ ← dlog_Printf ("Unmarshaled '%s' into %#v" +:+ newline) [OBytes res.1; OProjects projects];
      mret (projects, err)
  end.

(** DisableLog disables output to stderr *)
Definition DisableLog : M unit := fun w =>
  Returns tt (mkWorld (env w) (log.SetOutput log.Discard (log.SetFlags 0 (dlog w)))
                (stderr w) (sent w)).

(** EnableLog enables output to stderr *)
Definition EnableLog : M unit := fun w =>
  let logFlags := log.flags (dlog w) in
  Returns tt (mkWorld (env w) (log.SetOutput log.Stderr (log.SetFlags logFlags (dlog w)))
                (stderr w) (sent w)).

End Program.

Arguments Returns {_ _ _} a w.
Arguments Panics {_ _ _} w.
Arguments Unmodelled {_ _ _}.

(** ** A runtime for examples

    A clock that stands still, a server that gives one answer to every
    request, maps ranged over in key order of their representation.
    Instants are seconds since the Unix epoch, in UTC, formatted and parsed
    in the form [2006-01-02T15:04:05Z]. *)

Module Fixture.

Definition digit (n : Z) : ascii := chr (48 + n mod 10).
Definition pad2 (n : Z) : string := String (digit (n / 10)) (String (digit n) "").
Definition pad4 (n : Z) : string := pad2 (n / 100) +:+ pad2 (n mod 100).

(** Civil date of a day number (days since 1970-01-01). *)
Definition civil (days : Z) : Z * Z * Z :=
  let z := days + 719468 in
  let era := z / 146097 in
  let doe := z - era * 146097 in
  let yoe := (doe - doe / 1460 + doe / 36524 - doe / 146096) / 365 in
  let doy := doe - (365 * yoe + yoe / 4 - yoe / 100) in
  let mp := (5 * doy + 2) / 153 in
  let d := doy - (153 * mp + 2) / 5 + 1 in
  let m := if mp <? 10 then mp + 3 else mp - 9 in
  (yoe + era * 400 + (if m <=? 2 then 1 else 0), m, d).

Definition days_from_civil (y m d : Z) : Z :=
  let y := if m <=? 2 then y - 1 else y in
  let era := y / 400 in
  let yoe := y - era * 400 in
  let doy := (153 * (if 2 <? m then m - 3 else m + 9) + 2) / 5 + d - 1 in
  let doe := yoe * 365 + yoe / 4 - yoe / 100 + doy in
  era * 146097 + doe - 719468.

Definition rfc3339 (t : Z) : string :=
  let '(y, m, d) := civil (t / 86400) in
  let s := t mod 86400 in
  pad4 y +:+ "-" +:+ pad2 m +:+ "-" +:+ pad2 d +:+ "T"
  +:+ pad2 (s / 3600) +:+ ":" +:+ pad2 (s / 60 mod 60) +:+ ":" +:+ pad2 (s mod 60) +:+ "Z".

Definition parse_rfc3339 (raw : string) : option Z :=
  match list_ascii_of_string raw with
  | [y1; y2; y3; y4; d1; m1; m2; d2; a1; a2; t; h1; h2; c1; i1; i2; c2; s1; s2; z] =>
      if forallb is_digit [y1; y2; y3; y4; m1; m2; a1; a2; h1; h2; i1; i2; s1; s2]
         && String.eqb (string_of_list_ascii [d1; d2; t; c1; c2; z]) "--T::Z"
      then
        let num l := fold_left (fun acc c => acc * 10 + (byte c - 48)) l 0 in
        let y := num [y1; y2; y3; y4] in
        let m := num [m1; m2] in
        let d := num [a1; a2] in
        let t := days_from_civil y m d * 86400
                 + num [h1; h2] * 3600 + num [i1; i2] * 60 + num [s1; s2] in
        if String.eqb (rfc3339 t) raw then Some t else None
      else None
  | _ => None
  end.

#[local] Instance time_pkg : time.Pkg := {|
  time.Time := Z;
  time.zero := -62135596800;
  time.UTC t := t;
  time.Format t layout := rfc3339 t;
  time.UnmarshalJSON v t :=
    match v with
    | json.JString raw _ =>
        match parse_rfc3339 raw with
        | Some t' => (t', None)
        | None => (t, Some (TimeUnmarshalError "cannot parse time"))
        end
    | _ => (t, Some (TimeUnmarshalError "Time.UnmarshalJSON: input is not a JSON string"))
    end
|}.

Definition hex (n : Z) : ascii := if n <? 10 then chr (48 + n) else chr (87 + n).

(** The string encoder of [json.Marshal], with HTML escaping. *)
Fixpoint encode_from (pending : nat) (s : string) : string :=
  match s with
  | "" => ""
  | String c r =>
      match pending with
      | S k => String c (encode_from k r)
      | O =>
          if Ascii.eqb c "034" || Ascii.eqb c "\" then String "\" (String c (encode_from O r))
          else if Ascii.eqb c "008" then "\b" +:+ encode_from O r
          else if Ascii.eqb c "012" then "\f" +:+ encode_from O r
          else if Ascii.eqb c "010" then "\n" +:+ encode_from O r
          else if Ascii.eqb c "013" then "\r" +:+ encode_from O r
          else if Ascii.eqb c "009" then "\t" +:+ encode_from O r
          else if (byte c <? 32) || one_of "<>&" c then
            "\u00" +:+ String (hex (byte c / 16)) (String (hex (byte c mod 16)) (encode_from O r))
          else if byte c <? 128 then String c (encode_from O r)
          else
            match utf8.size s, r with
            | O, _ => "\ufffd" +:+ encode_from O r
            | S k, String c1 (String c2 r') =>
                if (byte c =? 226) && (byte c1 =? 128) && ((byte c2 =? 168) || (byte c2 =? 169))
                then "\u202" +:+ String (chr (byte c2 - 112)) (encode_from O r')
                else String c (encode_from k r)
            | S k, _ => String c (encode_from k r)
            end
      end
  end.

Definition quote (s : string) : string :=
  String "034" (encode_from O s) +:+ String "034" "".

Definition member (name value : string) : string := quote name +:+ ":" +:+ value.

(** [json.Marshal] of a [TimeEntryRequest]: every field is [omitempty]. *)
Definition Marshal (r : TimeEntryRequest.t) : string * option error :=
  let str name v := if String.eqb v "" then [] else [member name (quote v)] in
  let members :=
    (str "start" (TimeEntryRequest.Start r)
     ++ str "projectId" (TimeEntryRequest.Pid r)
     ++ str "taskId" (TimeEntryRequest.Tid r)
     ++ str "description" (TimeEntryRequest.Description r)
     ++ str "end" (TimeEntryRequest.End_ r)
     ++ match TimeEntryRequest.Tags r with
        | [] => []
        | tags => [member "tagIds" ("[" +:+ Join "," (quote <$> tags) +:+ "]")]
        end
     ++ if TimeEntryRequest.Billable r then [member "billable" "true"] else [])%list in
  ("{" +:+ Join "," members +:+ "}", None).

Record env := mkEnv { answer : http.Response + error; clock : Z }.

#[local] Instance runtime : Runtime := {|
  Env := env;
  client_Do _ e := (answer e, e);
  time_Now e := (clock e, e);
  map_range V m e := (map_to_list m, e);
  map_range_perm V m e := reflexivity (map_to_list m);
  json_Marshal := Marshal;
  json_Marshal_ok r := eq_refl;
|}.

(** The world at program start, facing a server with the given answer. *)
Definition start (ans : http.Response + error) (now : Z) : World :=
  mkWorld (mkEnv ans now) dlog_init [] [].

Definition ok (body : string) : http.Response + error :=
  inl (http.mkResponse 200 "200 OK" (body, None)).

End Fixture.

(** ** Vocabulary of the statements *)

(** The request [request] hands to [client.Do], from the one [NewRequest]
    built. *)
Definition with_headers (session : Session) (req : http.Request) : http.Request :=
  http.Add "Content-Type" "application/json"
    (if negb (String.eqb (APIToken session) "")
     then http.Add "X-Api-Key" (APIToken session) req else req).

(** What [request] returns for what [client.Do] returned. *)
Definition read_response (resp : http.Response + error) : string * option error :=
  match resp with
  | inr err => ("", Some err)
  | inl resp =>
      match http.ReadAll resp with
      | (_, Some err) => ("", Some err)
      | (content, None) =>
          if (http.StatusCode resp <? 200) || (400 <=? http.StatusCode resp)
          then (content, Some (Errorf (http.Status resp)))
          else (content, None)
      end
  end.

(** One [key=value] of a query string. *)
Definition query_pair (kv : string * string) : string :=
  url.QueryEscape kv.1 +:+ "=" +:+ url.QueryEscape kv.2.

(** The entries of a map in the byte order of their keys. *)
Definition sorted_entries (m : gmap string string) : list (string * string) :=
  (fun k => (k, default "" (m !! k))) <$> merge_sort String.le (map_to_list m).*1.

Definition tail_join (sep : string) (l : list string) : string :=
  foldr (fun p acc => sep +:+ p +:+ acc) "" l.

(** The first [k] bytes of [s], as far as it goes, are not ASCII. *)
Fixpoint cont_prefix (k : nat) (s : string) : Prop :=
  match k, s with
  | S k', String c r => 128 <= byte c /\ cont_prefix k' r
  | _, _ => True
  end.

Section Vocabulary.

Context `{RT : Runtime}.

(** What a call leaves untouched when all it does is write log lines. *)
Definition same_but_stderr (w w' : World) : Prop :=
  env w' = env w /\ dlog w' = dlog w /\ sent w' = sent w.

(** Two outcomes that neither the caller nor the environment can tell
    apart. *)
Definition agree {A} (o1 o2 : outcome A) : Prop :=
  match o1, o2 with
  | Returns a1 w1, Returns a2 w2 => a1 = a2 /\ env w1 = env w2
  | Panics w1, Panics w2 => env w1 = env w2
  | Unmodelled, Unmodelled => True
  | _, _ => False
  end.

(** A computation that looks neither at the logger nor at what was
    written or sent before. *)
Definition log_blind {A} (m : M A) : Prop :=
  forall w1 w2 : World, env w1 = env w2 -> agree (m w1) (m w2).

(** The caller gets the same from two runs that start in the same
    environment, whatever the logger is set to; in particular after
    [DisableLog] and after [EnableLog]. *)
Definition log_independent {A} (m : M A) : Prop :=
  (forall (e : Env) (l1 l2 : log.Logger) (err1 err2 : list line) (t1 t2 : list http.Request),
      result_of (m (mkWorld e l1 err1 t1)) = result_of (m (mkWorld e l2 err2 t2)))
  /\ (forall w : World,
        result_of ((_ ← DisableLog; m) w) = result_of ((_ ← EnableLog; m) w)).

End Vocabulary.

(** ** Vocabulary: requests, traces and the log *)

(** The request that [request] hands to [client.Do] for a method, a URL
    and a body: the one [http.NewRequest] builds, with the two headers. *)
Definition request_of (session : Session) (method requestURL : string) (body : option string)
  : http.Request :=
  with_headers session (http.mkRequest method requestURL ∅ body).

(** Bytes that [url.Parse] takes as they are in a path: letters, digits
    and [-_.~]. *)
Definition unreserved (c : ascii) : bool := is_alnum c || one_of "-_.~" c.

Section Values.

Context `{H : time.Pkg}.

(** What requestTimeEntry returns for the bytes and the error it is given. *)
Definition time_entry_of (res : string * option error) : TimeEntry.t * option error :=
  match res.2 with
  | Some err => (TimeEntry.zero, Some err)
  | None =>
      match json.Unmarshal TimeEntry.decoder res.1 TimeEntry.zero with
      | (entry, None) => (entry, None)
      | (_, Some err) => (TimeEntry.zero, Some err)
      end
  end.

End Values.

Section Traces.

Context `{RT : Runtime}.

(** A step that returns and hands nothing to the HTTP client. *)
Definition sends_nothing {A} (m : M A) : Prop :=
  forall w : World, exists a w', m w = Returns a w' /\ sent w' = sent w.

(** A call that hands exactly one request, of the given method, to the
    HTTP client when it returns, and none when it panics. *)
Definition sends_one (method : string) {A} (m : M A) : Prop :=
  forall w : World,
    match m w with
    | Returns _ w' => exists req, sent w' = (sent w ++ [req])%list /\ http.Method req = method
    | Panics w' => sent w' = sent w
    | Unmodelled => False
    end.

(** An outcome reached from [w] without a line written to standard error. *)
Definition writes_nothing {A} (w : World) (o : outcome A) : Prop :=
  match o with
  | Returns _ w' | Panics w' => stderr w' = stderr w
  | Unmodelled => False
  end.

(** While the logger discards its output, nothing reaches standard error
    and the logger stays as it is. *)
Definition quiet {A} (m : M A) : Prop :=
  forall w : World, log.out (dlog w) = log.Discard ->
    match m w with
    | Returns _ w' | Panics w' => stderr w' = stderr w /\ dlog w' = dlog w
    | Unmodelled => False
    end.

(** Two requests that differ at most in their headers. *)
Definition same_but_header (req1 req2 : http.Request) : Prop :=
  http.Method req1 = http.Method req2 /\ http.URL req1 = http.URL req2
  /\ http.Body req1 = http.Body req2.

(** Two states that differ at most in the headers of the requests sent. *)
Definition same_but_headers (w1 w2 : World) : Prop :=
  env w1 = env w2 /\ dlog w1 = dlog w2 /\ stderr w1 = stderr w2
  /\ Forall2 same_but_header (sent w1) (sent w2).

(** Two computations that do the same but for the headers of the requests
    they send: from states that differ in such headers only they reach
    such states, with the same value or the same panic. *)
Definition same_but_for_headers {A} (m1 m2 : M A) : Prop :=
  forall w1 w2 : World, same_but_headers w1 w2 ->
    match m1 w1, m2 w2 with
    | Returns a1 w1', Returns a2 w2' => a1 = a2 /\ same_but_headers w1' w2'
    | Panics w1', Panics w2' => same_but_headers w1' w2'
    | Unmodelled, Unmodelled => True
    | _, _ => False
    end.

(** Every value the computation returns satisfies [P]. *)
Definition ensures {A} (P : A -> Prop) (m : M A) : Prop :=
  forall w : World, match m w with Returns a _ => P a | _ => True end.

End Traces.

(** ** The command (clockify/main.go) *)

(** An operand of the built-in [println]: a string, or an error value. *)
Inductive printed :=
| PString (s : string)
| PError (err : error).

Section Command.

Context `{RT : Runtime}.

(** [json.MarshalIndent(&account, "", "    ")] *)
Variable json_MarshalIndent : Account.t -> string * option error.

(** [main], run with [os.Args = Args].  Every path through [main] that
    returns calls [println] once, as its last step; the result is the list
    of the operands of that call. *)
Definition main (Args : list string) : M (list printed) :=
  if negb (length Args =? 2)%nat then
    match Args with
    | [] => panic                         (* [os.Args[0]]: index out of range *)
    | arg0 :: _ => mret [PString "usage:"; PString arg0; PString "API_TOKEN"]
    end
  else
    let session := OpenSession (nth 1 Args "") in
    r ← GetAccount session;
    let '(account, err) := r in
    match err with
    | Some err => mret [PString "error:"; PError err]
    | None =>
        let '(data, _) := json_MarshalIndent account in
        mret [PString "account:"; PString data]
    end.

End Command.

(** ** Well-formed UTF-8 *)

(** [utf8.ValidString]: every byte starts, or continues, a well-formed
    sequence.  [pending] counts the continuation bytes still to come. *)
Fixpoint valid_from (pending : nat) (s : string) : bool :=
  match s with
  | "" => true
  | String c r =>
      match pending with
      | S k => valid_from k r
      | O => match utf8.size s with O => false | S k => valid_from k r end
      end
  end.

Definition ValidString (s : string) : bool := valid_from O s.

(** A TimeEntryRequest whose strings are well-formed UTF-8. *)
Definition valid_request (r : TimeEntryRequest.t) : bool :=
  ValidString (TimeEntryRequest.Start r) && ValidString (TimeEntryRequest.Pid r)
  && ValidString (TimeEntryRequest.Tid r) && ValidString (TimeEntryRequest.Description r)
  && ValidString (TimeEntryRequest.End_ r) && forallb ValidString (TimeEntryRequest.Tags r).

(** ** Rendered JSON *)

(** The JSON value of a string that was written by the encoder. *)
Definition jstr (s : string) : json.value := json.JString (Fixture.encode_from O s) s.

(** [text] is scanned as the value [v], whatever follows it, inside an
    object at the top; and [text] does not start with white space. *)
Definition rendered (text : string) (v : json.value) : Prop :=
  (exists c t, text = String c t /\ json.isSpace c = false)
  /\ forall rest : string,
       exists fuel, json.scan_value fuel 1 (text +:+ rest) = json.Scanned v rest.

(** A member with its name, its text and the value of the text. *)
Definition item_ok (i : string * string * json.value) : Prop :=
  ValidString i.1.1 = true /\ rendered i.1.2 i.2.

Definition str_item (name v : string) : list (string * string * json.value) :=
  if String.eqb v "" then [] else [(name, Fixture.quote v, jstr v)].

(** The members that [Fixture.Marshal] writes for a request. *)
Definition request_items (r : TimeEntryRequest.t) : list (string * string * json.value) :=
  (str_item "start" (TimeEntryRequest.Start r)
   ++ str_item "projectId" (TimeEntryRequest.Pid r)
   ++ str_item "taskId" (TimeEntryRequest.Tid r)
   ++ str_item "description" (TimeEntryRequest.Description r)
   ++ str_item "end" (TimeEntryRequest.End_ r)
   ++ match TimeEntryRequest.Tags r with
      | [] => []
      | tags => [("tagIds", "[" +:+ Join "," (Fixture.quote <$> tags) +:+ "]",
                  json.JArray (jstr <$> tags))]
      end
   ++ if TimeEntryRequest.Billable r then [("billable", "true", json.JBool true)] else [])%list.

(** The text of a member, and the member as the scanner returns it. *)
Definition item_text (i : string * string * json.value) : string := Fixture.member i.1.1 i.1.2.
Definition item_kv (i : string * string * json.value) : string * json.value := (i.1.1, i.2).

(** ** Strings *)

Lemma string_app_cons (c : ascii) (a b : string) : String c a +:+ b = String c (a +:+ b).
Proof. reflexivity. Qed.

Lemma string_app_nil_l (b : string) : "" +:+ b = b.
Proof. reflexivity. Qed.

Ltac push_app := rewrite ?string_app_cons, ?string_app_nil_l.

Lemma string_app_assoc (a b c : string) : (a +:+ b) +:+ c = a +:+ (b +:+ c).
Proof. induction a as [|x a IH]; push_app; [done|by rewrite IH]. Qed.

Lemma string_app_nil_r (a : string) : a +:+ "" = a.
Proof. induction a as [|x a IH]; push_app; [done|by rewrite IH]. Qed.

Lemma string_app_ne_self (a b : string) : b <> "" -> a +:+ b <> a.
Proof.
  intros Hb Heq. apply Hb. apply (inj (String.app a)). by rewrite string_app_nil_r.
Qed.

Lemma any_byte_app p a b : any_byte p (a +:+ b) = any_byte p a || any_byte p b.
Proof.
  unfold any_byte. induction a as [|x a IH]; push_app; simpl; [done|].
  by rewrite IH, orb_assoc.
Qed.

Lemma Cut_app sep pre s :
  Contains sep pre = false ->
  Cut sep (pre +:+ s) = (pre +:+ (Cut sep s).1, (Cut sep s).2).
Proof.
  unfold Contains, any_byte. induction pre as [|x pre IH]; push_app; simpl.
  - by destruct (Cut sep s).
  - intros [Hx Hpre]%orb_false_elim.
    rewrite Ascii.eqb_sym in Hx. rewrite Hx, (IH Hpre). done.
Qed.

Lemma Cut_app_1 sep pre s :
  Contains sep pre = false -> (Cut sep (pre +:+ s)).1 = pre +:+ (Cut sep s).1.
Proof. intros Hp. by rewrite Cut_app. Qed.

Lemma Join_cons sep x l : Join sep (x :: l) = x +:+ tail_join sep l.
Proof.
  revert x. induction l as [|y l IH]; intros x.
  - simpl. by rewrite string_app_nil_r.
  - change (Join sep (x :: y :: l)) with (x +:+ sep +:+ Join sep (y :: l)).
    by rewrite IH.
Qed.

(** ** fmt *)

(** A format without [%] is printed as it is. *)
Lemma doPrintf_plain (format : string) :
  Contains "%" format = false -> fmt.Sprintf format [] = Some format.
Proof.
  unfold Contains, any_byte, fmt.Sprintf.
  induction format as [|c format IH]; [done|].
  cbn [list_ascii_of_string existsb fmt.doPrintf].
  intros [Hc Hf]%orb_false_elim. rewrite Ascii.eqb_sym in Hc. rewrite Hc.
  cbn [negb]. by rewrite IH.
Qed.

Lemma Error_Errorf_plain (status : string) :
  Contains "%" status = false -> Error (Errorf status) = Some status.
Proof. apply doPrintf_plain. Qed.

Lemma Sprintf_workspace_path (workspaceID : string) :
  fmt.Sprintf "/workspaces/%s/time-entries" [workspaceID]
  = Some ("/workspaces/" +:+ workspaceID +:+ "/time-entries").
Proof. cbn. push_app. reflexivity. Qed.

Lemma Sprintf_StopTimeEntry (workspaceID userID : string) :
  fmt.Sprintf "/workspaces/{workspaceId}/user/{userId}/time-entries" [workspaceID; userID]
  = Some ("/workspaces/{workspaceId}/user/{userId}/time-entries"
          +:+ "%!(EXTRA string=" +:+ workspaceID +:+ ", string=" +:+ userID +:+ ")").
Proof.
  cbn. unfold fmt.extra. cbn. push_app. rewrite !string_app_assoc. push_app. reflexivity.
Qed.

(** ** net/url and net/http *)

(** A [%] followed by [!] is no escape, wherever it stands. *)
Lemma unescape_bad_escape mode x : forall n pre,
  (String.length pre <= n)%nat ->
  url.unescape_ok mode (pre +:+ String "%" (String "!" x)) = false.
Proof.
  induction n as [|n IH]; intros pre Hn.
  - destruct pre; [|simpl in Hn; lia]. by destruct x.
  - destruct pre as [|c pre]; [by destruct x|].
    simpl in Hn. push_app. simpl. destruct (Ascii.eqb c "%").
    + destruct pre as [|a [|b pre]]; push_app; simpl; try done.
      * by rewrite andb_false_r.
      * rewrite IH; [by rewrite andb_false_r|]. simpl in Hn. lia.
    + rewrite IH; [by rewrite andb_false_r | lia].
Qed.

(** When [url.Parse] accepts a URL below the service's base URL. *)
Lemma Parse_ok_ClockifyAPI p :
  url.Parse_ok (ClockifyAPI +:+ String "/" p) =
    negb (url.stringContainsCTLByte (Cut "#" p).1)
    && url.unescape_ok url.encodePath (Cut "?" (Cut "#" p).1).1
    && url.unescape_ok url.encodeFragment (Cut "#" p).2.
Proof.
  unfold url.Parse_ok.
  change (ClockifyAPI +:+ String "/" p) with ("https://api.clockify.me/api/v1/" +:+ p).
  rewrite Cut_app by reflexivity.
  destruct (Cut "#" p) as [u frag]; simpl fst; simpl snd.
  f_equal. unfold url.parse_ok, url.stringContainsCTLByte.
  rewrite any_byte_app.
  change (any_byte _ "https://api.clockify.me/api/v1/") with false. rewrite orb_false_l.
  destruct (any_byte _ u); [done|].
  change (url.getScheme ("https://api.clockify.me/api/v1/" +:+ u))
    with (Some ("https", "//api.clockify.me/api/v1/" +:+ u)).
  cbv iota beta.
  rewrite Cut_app by reflexivity.
  destruct (Cut "?" u) as [u' qs]; simpl fst.
  reflexivity.
Qed.

Lemma Parse_ok_StopTimeEntry (workspaceID userID : string) :
  url.Parse_ok (ClockifyAPI +:+ "/workspaces/{workspaceId}/user/{userId}/time-entries"
                +:+ "%!(EXTRA string=" +:+ workspaceID +:+ ", string=" +:+ userID +:+ ")") = false.
Proof.
  set (tl := "(EXTRA string=" +:+ workspaceID +:+ ", string=" +:+ userID +:+ ")").
  change (ClockifyAPI +:+ _) with
    (ClockifyAPI +:+ String "/" ("workspaces/{workspaceId}/user/{userId}/time-entries%!" +:+ tl)).
  clearbody tl.
  rewrite Parse_ok_ClockifyAPI.
  rewrite (Cut_app_1 "#") by reflexivity.
  rewrite (Cut_app_1 "?") by reflexivity.
  set (x := (Cut "?" (Cut "#" tl).1).1).
  change (_ +:+ x) with
    ("workspaces/{workspaceId}/user/{userId}/time-entries" +:+ String "%" (String "!" x)).
  rewrite (unescape_bad_escape _ _ _ _ (le_n _)). by rewrite andb_false_r.
Qed.

Lemma NewRequest_None method requestURL body :
  url.Parse_ok requestURL = false -> http.NewRequest method requestURL body = None.
Proof. unfold http.NewRequest. intros ->. by rewrite andb_false_r. Qed.

Lemma NewRequest_None_inv method requestURL body :
  http.validMethod method = true ->
  http.NewRequest method requestURL body = None -> url.Parse_ok requestURL = false.
Proof.
  unfold http.NewRequest. intros Hv.
  destruct (String.eqb_spec method "") as [->|_]; [done|].
  rewrite Hv. simpl. by destruct (url.Parse_ok requestURL).
Qed.

Lemma NewRequest_Header method requestURL body req :
  http.NewRequest method requestURL body = Some req -> http.Header req = ∅.
Proof. unfold http.NewRequest. destruct (_ && _); [|done]. by intros [= <-]. Qed.

Lemma NewRequest_fields method requestURL body req :
  method <> "" ->
  http.NewRequest method requestURL body = Some req ->
  http.Method req = method /\ http.URL req = requestURL /\ http.Body req = body.
Proof.
  unfold http.NewRequest. intros Hm%String.eqb_neq. rewrite Hm.
  destruct (_ && _); [|done]. by intros [= <-].
Qed.

Lemma with_headers_fields session req :
  http.Method (with_headers session req) = http.Method req
  /\ http.URL (with_headers session req) = http.URL req
  /\ http.Body (with_headers session req) = http.Body req.
Proof. unfold with_headers. by destruct (negb _). Qed.

Lemma with_headers_lookup session req :
  http.Header req = ∅ ->
  http.Header (with_headers session req) !! "Content-Type" = Some ["application/json"]
  /\ http.Header (with_headers session req) !! "X-Api-Key"
     = if String.eqb (APIToken session) "" then None else Some [APIToken session].
Proof.
  intros Hreq. unfold with_headers.
  destruct (String.eqb (APIToken session) ""); simpl; unfold http.Header_Add; rewrite Hreq.
  - change (http.CanonicalMIMEHeaderKey "Content-Type") with "Content-Type".
    split; [by rewrite lookup_insert_eq | by rewrite lookup_insert_ne].
  - change (http.CanonicalMIMEHeaderKey "Content-Type") with "Content-Type".
    change (http.CanonicalMIMEHeaderKey "X-Api-Key") with "X-Api-Key".
    split.
    + rewrite lookup_insert_eq. by rewrite lookup_insert_ne.
    + rewrite lookup_insert_ne by done. by rewrite lookup_insert_eq.
Qed.

Lemma request_built session method requestURL body req :
  method <> "" ->
  http.NewRequest method requestURL body = Some req ->
  with_headers session req
  = http.mkRequest method requestURL (http.Header (with_headers session req)) body.
Proof.
  intros Hm Hnew.
  destruct (NewRequest_fields _ _ _ _ Hm Hnew) as (Hmeth & Hurl & Hbody).
  destruct (with_headers_fields session req) as (Hmeth' & Hurl' & Hbody').
  destruct (with_headers session req); simpl in *. congruence.
Qed.

(** A status outside [200,400) becomes an error made from the status line,
    next to the body that was read. *)
Lemma read_response_status (resp : http.Response) (content : string) :
  http.ReadAll resp = (content, None) ->
  (http.StatusCode resp < 200 \/ 400 <= http.StatusCode resp) ->
  read_response (inl resp) = (content, Some (Errorf (http.Status resp))).
Proof.
  intros Hread Hst. unfold read_response. rewrite Hread.
  destruct (_ || _) eqn:E; [done|]. apply orb_false_elim in E as [E1 E2]. lia.
Qed.

(** ** encoding/json: the scanner *)

Section Scanner.

Import json.

Local Open Scope nat_scope.

Lemma skip_space_length s : String.length (skip_space s) <= String.length s.
Proof. induction s as [|c s IH]; simpl; [done|]. destruct (isSpace c); simpl; lia. Qed.

Lemma scan_map_Scanned {A B} (f : A -> B) (m : scan A) b rest :
  scan_map f m = Scanned b rest -> exists a, m = Scanned a rest /\ b = f a.
Proof. destruct m; simpl; try done. intros [= <- <-]. eauto. Qed.

Lemma scan_map_fuel {A B} (f : A -> B) (m : scan A) :
  scan_map f m = OutOfFuel -> m = OutOfFuel.
Proof. by destruct m. Qed.

Lemma scan_string_fuel s : scan_string s <> OutOfFuel.
Proof.
  assert (forall n s, String.length s <= n -> scan_string s <> OutOfFuel) as Hn;
    [|by apply (Hn (String.length s))].
  clear s. induction n as [|n IH]; intros s Hs.
  - destruct s; [done | simpl in Hs; lia].
  - destruct s as [|c r]; [done|]. simpl in *.
    destruct (Ascii.eqb c "034"); [done|].
    destruct (Ascii.eqb c "\").
    + destruct r as [|e r']; [done|].
      destruct (_ || _).
      * intros Hf%scan_map_fuel. revert Hf. apply IH. simpl in Hs. lia.
      * destruct (Ascii.eqb e "u"); [|done].
        destruct r' as [|h1 [|h2 [|h3 [|h4 r'']]]];
          try (by destruct (all_bytes _ _)).
        destruct (_ && _); [|done].
        intros Hf%scan_map_fuel. revert Hf. apply IH. simpl in Hs. lia.
    + destruct (_ <? _)%Z; [done|].
      intros Hf%scan_map_fuel. revert Hf. apply IH. lia.
Qed.

Lemma scan_string_length s raw rest :
  scan_string s = Scanned raw rest -> String.length rest < String.length s.
Proof.
  assert (forall n s raw rest, String.length s <= n ->
            scan_string s = Scanned raw rest -> String.length rest < String.length s) as Hn;
    [|by apply (Hn (String.length s))].
  clear. induction n as [|n IH]; intros s raw rest Hs.
  - destruct s; [done | simpl in Hs; lia].
  - destruct s as [|c r]; [done|]. simpl in *.
    destruct (Ascii.eqb c "034"); [intros [= <- <-]; lia|].
    destruct (Ascii.eqb c "\").
    + destruct r as [|e r']; [done|].
      destruct (_ || _).
      * intros (x & Hx & _)%scan_map_Scanned. apply IH in Hx; simpl in *; lia.
      * destruct (Ascii.eqb e "u"); [|done].
        destruct r' as [|h1 [|h2 [|h3 [|h4 r'']]]];
          try (by destruct (all_bytes _ _)).
        destruct (_ && _); [|done].
        intros (x & Hx & _)%scan_map_Scanned. apply IH in Hx; simpl in *; lia.
    + destruct (_ <? _)%Z; [done|].
      intros (x & Hx & _)%scan_map_Scanned. apply IH in Hx; simpl in *; lia.
Qed.

Lemma digits_length s : String.length (digits s).2 <= String.length s.
Proof.
  induction s as [|c s IH]; simpl; [done|].
  destruct (is_digit c); simpl; [|lia]. destruct (digits s). simpl in *. lia.
Qed.

Lemma scan_digits1_spec s :
  match scan_digits1 s with
  | Scanned _ rest => String.length rest <= String.length s
  | OutOfFuel => False
  | _ => True
  end.
Proof.
  destruct s as [|c r]; [done|]. unfold scan_digits1.
  destruct (is_digit c); [|done].
  pose proof (digits_length (String c r)). by destruct (digits (String c r)).
Qed.

Lemma scan_int_spec s :
  match scan_int s with
  | Scanned _ rest => String.length rest < String.length s
  | OutOfFuel => False
  | _ => True
  end.
Proof.
  destruct s as [|c r]; [done|]. unfold scan_int.
  destruct (Ascii.eqb c "0"); [simpl; lia|].
  destruct (in_range _ _ c); [|done].
  pose proof (digits_length r). destruct (digits r). simpl in *. lia.
Qed.

Lemma scan_frac_spec s :
  match scan_frac s with
  | Scanned _ rest => String.length rest <= String.length s
  | OutOfFuel => False
  | _ => True
  end.
Proof.
  destruct s as [|c r]; [simpl; lia|]. unfold scan_frac.
  destruct (Ascii.eqb c "."); [|simpl; lia].
  pose proof (scan_digits1_spec r). destruct (scan_digits1 r); simpl in *; try done. lia.
Qed.

Lemma scan_exp_spec s :
  match scan_exp s with
  | Scanned _ rest => String.length rest <= String.length s
  | OutOfFuel => False
  | _ => True
  end.
Proof.
  destruct s as [|c r]; [simpl; lia|]. unfold scan_exp.
  destruct (one_of "eE" c); [|simpl; lia].
  destruct r as [|sg r']; [done|].
  destruct (one_of "+-" sg).
  - pose proof (scan_digits1_spec r'). destruct (scan_digits1 r'); simpl in *; try done. lia.
  - pose proof (scan_digits1_spec (String sg r')).
    destruct (scan_digits1 (String sg r')); simpl in *; try done. lia.
Qed.

Lemma scan_number_spec s :
  match scan_number s with
  | Scanned _ rest => String.length rest < String.length s
  | OutOfFuel => False
  | _ => True
  end.
Proof.
  unfold scan_number.
  assert (match (match s with
                 | "" => scan_int s
                 | String c r =>
                     if Ascii.eqb c "-" then scan_map (String "-") (scan_int r) else scan_int s
                 end) with
          | Scanned _ rest => String.length rest < String.length s
          | OutOfFuel => False
          | _ => True
          end) as Hint.
  { destruct s as [|c r]; [done|]. destruct (Ascii.eqb c "-").
    - pose proof (scan_int_spec r). destruct (scan_int r); simpl in *; try done. lia.
    - apply scan_int_spec. }
  destruct (match s with "" => _ | String _ _ => _ end) as [i r1| | |]; simpl; try done.
  pose proof (scan_frac_spec r1). destruct (scan_frac r1) as [f r2| | |]; simpl; try done.
  pose proof (scan_exp_spec r2). destruct (scan_exp r2) as [e r3| | |]; simpl; try done.
  lia.
Qed.

Lemma scan_literal_spec name s :
  match scan_literal name s with
  | Scanned _ rest => String.length rest <= String.length s
  | OutOfFuel => False
  | _ => True
  end.
Proof.
  revert s. induction name as [|n name IH]; intros s; simpl; [done|].
  destruct s as [|c r]; [done|]. destruct (Ascii.eqb c n); [|done].
  specialize (IH r). destruct (scan_literal name r); simpl in *; try done. lia.
Qed.

Lemma resolved_spec {A} (k : string -> A) raw rest :
  match resolved k raw rest with
  | Scanned _ rest' => rest' = rest
  | OutOfFuel => False
  | _ => True
  end.
Proof. unfold resolved. by destruct (unquote raw). Qed.

Lemma after_length c s r : after c s = Some r -> String.length r < String.length s.
Proof.
  destruct s as [|x s]; [done|]. simpl. destruct (Ascii.eqb x c); [|done].
  intros [= <-]. lia.
Qed.

Lemma scan_bind_Scanned {A B} (m : scan A) (f : A -> string -> scan B) b rest :
  scan_bind m f = Scanned b rest -> exists a r, m = Scanned a r /\ f a r = Scanned b rest.
Proof. destruct m; simpl; try done. eauto. Qed.

Lemma scan_bind_fuel {A B} (m : scan A) (f : A -> string -> scan B) :
  scan_bind m f = OutOfFuel ->
  m = OutOfFuel \/ exists a r, m = Scanned a r /\ f a r = OutOfFuel.
Proof. destruct m; simpl; try done; eauto. Qed.

Lemma scan_key_length r key r1 :
  scan_bind (scan_string r) (resolved id) = Scanned key r1 ->
  String.length r1 < String.length r.
Proof.
  intros (raw & r' & Hs & Hr)%scan_bind_Scanned.
  apply scan_string_length in Hs.
  pose proof (resolved_spec (@id string) raw r') as Hres. rewrite Hr in Hres. by subst.
Qed.

Lemma scan_key_fuel r : scan_bind (scan_string r) (resolved id) <> OutOfFuel.
Proof.
  intros [Hs|(raw & r' & _ & Hr)]%scan_bind_fuel.
  - by apply scan_string_fuel in Hs.
  - pose proof (resolved_spec (@id string) raw r') as Hres. by rewrite Hr in Hres.
Qed.

(** Every scanner consumes at least one byte. *)
Lemma scan_value_length fuel :
  (forall d s v r, scan_value fuel d s = Scanned v r -> String.length r < String.length s)
  /\ (forall d s l r, scan_elements fuel d s = Scanned l r -> String.length r < String.length s)
  /\ (forall d s l r, scan_members fuel d s = Scanned l r -> String.length r < String.length s).
Proof.
  induction fuel as [|fuel (IHv & IHe & IHm)]; [by repeat split|].
  split; [|split]; intros d s.
  - intros v rest. destruct s as [|c r]; [done|]. cbn [scan_value].
    destruct (Ascii.eqb c "{").
    { destruct (_ <? _)%N; [done|].
      pose proof (skip_space_length r).
      destruct (after "}" (skip_space r)) as [r'|] eqn:Ha.
      - intros [= <- <-]. apply after_length in Ha. simpl. lia.
      - intros (l & Hl & _)%scan_map_Scanned. apply IHm in Hl. simpl. lia. }
    destruct (Ascii.eqb c "[").
    { destruct (_ <? _)%N; [done|].
      pose proof (skip_space_length r).
      destruct (after "]" (skip_space r)) as [r'|] eqn:Ha.
      - intros [= <- <-]. apply after_length in Ha. simpl. lia.
      - intros (l & Hl & _)%scan_map_Scanned. apply IHe in Hl. simpl. lia. }
    destruct (Ascii.eqb c "034").
    { intros (raw & r' & Hs & Hr)%scan_bind_Scanned.
      apply scan_string_length in Hs.
      pose proof (resolved_spec (JString raw) raw r') as Hres. rewrite Hr in Hres.
      subst. simpl. lia. }
    destruct (Ascii.eqb c "t").
    { intros (? & Hl & _)%scan_map_Scanned.
      pose proof (scan_literal_spec "rue" r) as Hlit. rewrite Hl in Hlit. simpl. lia. }
    destruct (Ascii.eqb c "f").
    { intros (? & Hl & _)%scan_map_Scanned.
      pose proof (scan_literal_spec "alse" r) as Hlit. rewrite Hl in Hlit. simpl. lia. }
    destruct (Ascii.eqb c "n").
    { intros (? & Hl & _)%scan_map_Scanned.
      pose proof (scan_literal_spec "ull" r) as Hlit. rewrite Hl in Hlit. simpl. lia. }
    destruct (_ || _); [|done].
    intros (? & Hl & _)%scan_map_Scanned.
    pose proof (scan_number_spec (String c r)) as Hnum. by rewrite Hl in Hnum.
  - intros l rest. cbn [scan_elements].
    intros (v & r1 & Hv & Hk)%scan_bind_Scanned. apply IHv in Hv.
    pose proof (skip_space_length r1).
    destruct (skip_space r1) as [|c r'] eqn:Hsk; [done|]. simpl in *.
    pose proof (skip_space_length r').
    destruct (Ascii.eqb c ",").
    + apply scan_map_Scanned in Hk as (l' & Hl & _). apply IHe in Hl. lia.
    + destruct (Ascii.eqb c "]"); [|done]. injection Hk as <- <-. lia.
  - intros l rest. cbn [scan_members].
    destruct s as [|q r]; [done|].
    destruct (negb _); [done|].
    intros (key & r1 & Hkey & Hk)%scan_bind_Scanned. apply scan_key_length in Hkey.
    pose proof (skip_space_length r1).
    destruct (skip_space r1) as [|c r'] eqn:Hsk; [done|]. simpl in *.
    destruct (negb _); [done|].
    apply scan_bind_Scanned in Hk as (v & r2 & Hv & Hk). apply IHv in Hv.
    pose proof (skip_space_length r').
    pose proof (skip_space_length r2).
    destruct (skip_space r2) as [|c2 r3] eqn:Hsk2; [done|]. simpl in *.
    pose proof (skip_space_length r3).
    destruct (Ascii.eqb c2 ",").
    + apply scan_map_Scanned in Hk as (l' & Hl & _). apply IHm in Hl. lia.
    + destruct (Ascii.eqb c2 "}"); [|done]. injection Hk as <- <-. lia.
Qed.

(** With two units of fuel per byte the scanners never run out. *)
Lemma scan_value_fuel fuel :
  (forall d s, 2 * String.length s + 1 <= fuel -> scan_value fuel d s <> OutOfFuel)
  /\ (forall d s, 2 * String.length s + 2 <= fuel -> scan_elements fuel d s <> OutOfFuel)
  /\ (forall d s, 2 * String.length s + 2 <= fuel -> scan_members fuel d s <> OutOfFuel).
Proof.
  induction fuel as [|fuel (IHv & IHe & IHm)]; [repeat split; intros; lia|].
  split; [|split]; intros d s Hfuel.
  - destruct s as [|c r]; [done|]. cbn [scan_value]. simpl in Hfuel.
    pose proof (skip_space_length r).
    destruct (Ascii.eqb c "{").
    { destruct (_ <? _)%N; [done|].
      destruct (after "}" (skip_space r)); [done|].
      intros Hf%scan_map_fuel. revert Hf. apply IHm. lia. }
    destruct (Ascii.eqb c "[").
    { destruct (_ <? _)%N; [done|].
      destruct (after "]" (skip_space r)); [done|].
      intros Hf%scan_map_fuel. revert Hf. apply IHe. lia. }
    destruct (Ascii.eqb c "034").
    { intros [Hs|(raw & r' & _ & Hr)]%scan_bind_fuel.
      - by apply scan_string_fuel in Hs.
      - pose proof (resolved_spec (JString raw) raw r') as Hres. by rewrite Hr in Hres. }
    destruct (Ascii.eqb c "t").
    { intros Hf%scan_map_fuel. pose proof (scan_literal_spec "rue" r) as Hl. by rewrite Hf in Hl. }
    destruct (Ascii.eqb c "f").
    { intros Hf%scan_map_fuel. pose proof (scan_literal_spec "alse" r) as Hl. by rewrite Hf in Hl. }
    destruct (Ascii.eqb c "n").
    { intros Hf%scan_map_fuel. pose proof (scan_literal_spec "ull" r) as Hl. by rewrite Hf in Hl. }
    destruct (_ || _); [|done].
    intros Hf%scan_map_fuel.
    pose proof (scan_number_spec (String c r)) as Hn. by rewrite Hf in Hn.
  - cbn [scan_elements].
    intros [Hv|(v & r1 & Hv & Hk)]%scan_bind_fuel.
    + revert Hv. apply IHv. lia.
    + apply (proj1 (scan_value_length fuel)) in Hv.
      pose proof (skip_space_length r1).
      destruct (skip_space r1) as [|c r'] eqn:Hsk; [done|]. simpl in *.
      pose proof (skip_space_length r').
      destruct (Ascii.eqb c ",").
      * apply scan_map_fuel in Hk. revert Hk. apply IHe. lia.
      * by destruct (Ascii.eqb c "]").
  - cbn [scan_members].
    destruct s as [|q r]; [done|]. simpl in Hfuel.
    destruct (negb _); [done|].
    intros [Hkey|(key & r1 & Hkey & Hk)]%scan_bind_fuel; [by apply scan_key_fuel in Hkey|].
    apply scan_key_length in Hkey.
    pose proof (skip_space_length r1).
    destruct (skip_space r1) as [|c r'] eqn:Hsk; [done|]. simpl in *.
    destruct (negb _); [done|].
    pose proof (skip_space_length r').
    apply scan_bind_fuel in Hk as [Hv|(v & r2 & Hv & Hk)].
    + revert Hv. apply IHv. lia.
    + apply (proj1 (scan_value_length fuel)) in Hv.
      pose proof (skip_space_length r2).
      destruct (skip_space r2) as [|c2 r3] eqn:Hsk2; [done|]. simpl in *.
      pose proof (skip_space_length r3).
      destruct (Ascii.eqb c2 ",").
      * apply scan_map_fuel in Hk. revert Hk. apply IHm. lia.
      * by destruct (Ascii.eqb c2 "}").
Qed.

Theorem first_value_fuel (data : string) : first_value data <> OutOfFuel.
Proof.
  unfold first_value. apply scan_value_fuel.
  pose proof (skip_space_length data). lia.
Qed.

Local Open Scope Z_scope.

Lemma utf8_size_cont c x k :
  utf8.size (String c x) = S k -> cont_prefix k x.
Proof.
  unfold utf8.size.
  destruct (byte c <? 128); [by intros [= <-]|].
  destruct (_ && _).
  { destruct x as [|b1 x]; [done|].
    destruct (_ && _) eqn:E; [|done]. intros [= <-]. simpl.
    apply andb_true_iff in E as [E1%Z.leb_le _]. split; [done|]. done. }
  destruct (_ && _).
  { destruct x as [|b1 [|b2 x]]; [done..|].
    destruct (_ && _) eqn:E; [|done]. intros [= <-]. simpl.
    apply andb_true_iff in E as [[E1%Z.leb_le _]%andb_true_iff [E2%Z.leb_le _]%andb_true_iff].
    repeat split; try done; try lia. destruct (byte c =? 224); lia. }
  destruct (_ && _); [|done].
  destruct x as [|b1 [|b2 [|b3 x]]]; [done..|].
  destruct (_ && _) eqn:E; [|done]. intros [= <-]. simpl.
  apply andb_true_iff in E as [[[E1%Z.leb_le _]%andb_true_iff [E2%Z.leb_le _]%andb_true_iff]%andb_true_iff
                               [E3%Z.leb_le _]%andb_true_iff].
  repeat split; try done; try lia. destruct (byte c =? 240); lia.
Qed.

Lemma simple_escape_scanned e :
  one_of "bfnrt\/" e || Ascii.eqb e "034" = true ->
  Ascii.eqb e "u" = false /\ exists x, simple_escape e = Some x.
Proof.
  destruct e as [[] [] [] [] [] [] [] []]; vm_compute; intros He; try done; eauto.
Qed.

Lemma fmap_is_Some_string (f : string -> string) (o : option string) :
  is_Some o -> is_Some (f <$> o).
Proof. intros [x ->]. by eexists. Qed.

Lemma unquote_scanned : forall (n : nat) s raw rest k,
  (String.length s <= n)%nat ->
  scan_string s = Scanned raw rest -> cont_prefix k raw -> is_Some (unquote_from k raw).
Proof.
  induction n as [|n IH]; intros s raw rest k Hn.
  { destruct s; [done | simpl in Hn; lia]. }
  destruct s as [|c r]; [done|]. simpl in Hn. cbn [scan_string].
  destruct (Ascii.eqb_spec c "034") as [->|Hq].
  { intros [= <- <-] _. by destruct k. }
  destruct (Ascii.eqb_spec c "\") as [->|Hb].
  - destruct r as [|e r']; [done|].
    destruct (_ || _) eqn:Hsimple.
    + intros (x & Hx & ->)%scan_map_Scanned Hk.
      destruct k as [|k]; [|simpl in Hk; vm_compute in Hk; destruct Hk as [Hk _]; by destruct Hk].
      apply simple_escape_scanned in Hsimple as [Hu (y & Hy)].
      cbn [unquote_from]. change (Ascii.eqb "\" "\") with true. cbv iota.
      rewrite Hu, Hy. apply fmap_is_Some_string.
      apply (IH r' x rest O); [simpl in Hn; lia|done|done].
    + destruct (Ascii.eqb_spec e "u") as [->|_]; [|done].
      destruct r' as [|h1 [|h2 [|h3 [|h4 r4]]]]; try (by destruct (all_bytes _ _)).
      destruct (_ && _) eqn:Hhex; [|done].
      intros (x & Hx & ->)%scan_map_Scanned Hk.
      destruct k as [|k]; [|simpl in Hk; vm_compute in Hk; destruct Hk as [Hk _]; by destruct Hk].
      cbn [unquote_from]. change (Ascii.eqb "\" "\") with true.
      change (Ascii.eqb "u" "u") with true. cbv iota.
      unfold getu4 at 1. rewrite Hhex.
      assert (is_Some (unquote_from O x)) as Hx0.
      { apply (IH r4 x rest O); [simpl in Hn; lia|done|done]. }
      destruct (utf8.is_surrogate _); [|by apply fmap_is_Some_string].
      destruct x as [|b1 [|b2 [|g1 [|g2 [|g3 [|g4 r10]]]]]];
        try by apply fmap_is_Some_string.
      destruct (Ascii.eqb_spec b1 "\") as [->|?]; [|by apply fmap_is_Some_string].
      destruct (Ascii.eqb_spec b2 "u") as [->|?]; [|by apply fmap_is_Some_string].
      cbn [andb]. destruct (getu4 g1 g2 g3 g4 ≫= utf16_pair _);
        [|by apply fmap_is_Some_string].
      apply fmap_is_Some_string.
      (* the second escape was scanned as an escape too *)
      clear Hx0. revert Hx.
      destruct r4 as [|b1' r4']; [done|]. cbn [scan_string].
      destruct (Ascii.eqb_spec b1' "034") as [->|?]; [done|].
      destruct (Ascii.eqb_spec b1' "\") as [->|?].
      * destruct r4' as [|e' r5]; [done|].
        destruct (one_of "bfnrt\/" e' || Ascii.eqb e' "034") eqn:Hsimple'.
        { intros (x' & Hx' & [= <- _])%scan_map_Scanned.
          apply simple_escape_scanned in Hsimple' as [Hu _]. vm_compute in Hu. done. }
        destruct (Ascii.eqb_spec e' "u") as [->|_]; [|done].
        destruct r5 as [|i1 [|i2 [|i3 [|i4 r6]]]]; try (by destruct (all_bytes _ _)).
        destruct (url.ishex i1 && url.ishex i2 && url.ishex i3 && url.ishex i4); [|done].
        intros (x' & Hx' & [= <- <- <- <- <-])%scan_map_Scanned.
        apply (IH r6 r10 rest O); [simpl in Hn; lia|done|done].
      * destruct (_ <? _); [done|].
        intros (x' & Hx' & [= ? ?])%scan_map_Scanned. done.
  - destruct (byte c <? 32) eqn:Hctl; [done|].
    intros (x & Hx & ->)%scan_map_Scanned Hk.
    destruct k as [|k].
    + cbn [unquote_from].
      rewrite (proj2 (Ascii.eqb_neq _ _) Hb), (proj2 (Ascii.eqb_neq _ _) Hq), Hctl.
      cbn [orb]. 
      assert (is_Some (unquote_from O x)) as Hx0.
      { apply (IH r x rest O); [lia|done|done]. }
      destruct (byte c <? 128); [by apply fmap_is_Some_string|].
      destruct (utf8.size (String c x)) as [|k] eqn:Hsize; [by apply fmap_is_Some_string|].
      apply fmap_is_Some_string.
      apply (IH r x rest k); [lia|done|]. by apply utf8_size_cont in Hsize.
    + cbn [unquote_from]. apply fmap_is_Some_string.
      destruct Hk as [_ Hk]. apply (IH r x rest k); [lia|done|done].
Qed.

(** A literal that the scanner accepts always unquotes. *)
Theorem scan_string_unquote s raw rest :
  scan_string s = Scanned raw rest -> is_Some (unquote raw).
Proof. intros Hs. by apply (unquote_scanned (String.length s) s raw rest O). Qed.

End Scanner.

(** ** encoding/json: decoding a Project *)

Lemma members_loop_app {S} (fields : list (json.field S)) l1 l2 s saved :
  json.members_loop fields (l1 ++ l2) s saved =
    match json.members_loop fields l1 s saved with
    | json.Stored s' saved' => json.members_loop fields l2 s' saved'
    | json.Stopped s' err => json.Stopped s' err
    end.
Proof.
  revert s saved. induction l1 as [|[k v] l1 IH]; intros s saved; simpl; [done|].
  destruct (json.find_field fields k) as [f|]; [|apply IH].
  destruct (json.store f v s saved); [apply IH|done].
Qed.

Lemma find_field_In {S} (fields : list (json.field S)) key f :
  json.find_field fields key = Some f -> In f fields.
Proof.
  unfold json.find_field.
  destruct (find _ fields) as [f'|] eqn:E1.
  - intros [= <-]. by apply find_some in E1 as [? _].
  - intros E2. by apply find_some in E2 as [? _].
Qed.

(** No field of a Project has an [UnmarshalJSON] method: storing into one
    never stops the decoder. *)
Lemma Project_store_total f v p saved :
  In f Project.fields -> exists p' saved', json.store f v p saved = json.Stored p' saved'.
Proof.
  simpl. intros [<-|[<-|[<-|[<-|[<-|[]]]]]]; destruct v; simpl; eauto.
Qed.

Lemma Project_members_total members p saved :
  exists p' saved', json.members_loop Project.fields members p saved = json.Stored p' saved'.
Proof.
  revert p saved. induction members as [|[k v] members IH]; intros p saved; simpl; [eauto|].
  destruct (json.find_field Project.fields k) as [f|] eqn:E; [|apply IH].
  destruct (Project_store_total f v p saved (find_field_In _ _ _ E)) as (p' & saved' & ->).
  apply IH.
Qed.

Lemma find_field_name {S} (fields : list (json.field S)) key f :
  json.find_field fields key = Some f ->
  In f fields /\ json.foldName (json.name f) = json.foldName key.
Proof.
  unfold json.find_field.
  destruct (find _ fields) as [f'|] eqn:E1.
  - intros [= <-]. apply find_some in E1 as [Hin Heq].
    apply String.eqb_eq in Heq. by rewrite Heq.
  - intros E2. apply find_some in E2 as [Hin Heq]. by apply String.eqb_eq in Heq.
Qed.

(** A key that folds to ARCHIVED names the field Active. *)
Lemma Project_find_archived_fold key :
  json.foldName key = "ARCHIVED" ->
  exists f, json.find_field Project.fields key = Some f /\ json.name f = "archived".
Proof.
  intros Hkey. unfold json.find_field, Project.fields.
  cbn [find json.name json.fld].
  repeat match goal with
         | |- context [String.eqb ?n key] =>
             destruct (String.eqb_spec n key) as [<-|_];
               [try (vm_compute in Hkey; done); by eexists|]
         end.
  rewrite Hkey. by eexists.
Qed.

(** What one member does to the Active field: a member whose name folds
    to ARCHIVED and which holds a boolean sets it; any other member leaves
    it as it is. *)
Lemma Project_member_Active k v p saved :
  exists p1 saved1,
    match json.find_field Project.fields k with
    | Some f => json.store f v p saved
    | None => json.Stored p saved
    end = json.Stored p1 saved1
    /\ Project.Active p1
       = match v with
         | json.JBool b =>
             if String.eqb (json.foldName k) "ARCHIVED" then b else Project.Active p
         | _ => Project.Active p
         end.
Proof.
  destruct (json.find_field Project.fields k) as [f|] eqn:Hf.
  - pose proof Hf as Hfound.
    apply find_field_name in Hf as [Hin Hname]. simpl in Hin.
    destruct Hin as [<-|[<-|[<-|[<-|[<-|[]]]]]]; cbn [json.name json.fld] in Hname.
    + change (json.foldName "workspaceId") with "WORKSPACEID" in Hname. rewrite <- Hname.
      destruct v, p; simpl; eexists _, _; (split; reflexivity).
    + change (json.foldName "id") with "ID" in Hname. rewrite <- Hname.
      destruct v, p; simpl; eexists _, _; (split; reflexivity).
    + change (json.foldName "name") with "NAME" in Hname. rewrite <- Hname.
      destruct v, p; simpl; eexists _, _; (split; reflexivity).
    + change (json.foldName "archived") with "ARCHIVED" in Hname. rewrite <- Hname.
      destruct v, p; simpl; eexists _, _; (split; reflexivity).
    + change (json.foldName "billable") with "BILLABLE" in Hname. rewrite <- Hname.
      destruct v, p; simpl; eexists _, _; (split; reflexivity).
  - exists p, saved. split; [done|].
    destruct v as [| b | | | |]; try done.
    destruct (String.eqb_spec (json.foldName k) "ARCHIVED") as [Hk|_]; [|done].
    destruct (Project_find_archived_fold k Hk) as (f & Hfound & _). congruence.
Qed.

(** C9: the Active field of a Project is stored from the JSON member named
    "archived" and from no other, and IsActive returns the field as it is.
    For every JSON object decoded into a project, whatever its members and
    their order: decoding succeeds; if the object has a member that is
    named [archived], in any mix of upper and lower case, and holds a
    boolean, IsActive of the decoded project is the boolean of the last
    such member; if it has none, IsActive is what it was in the target
    before, [false] for the fresh elements GetProjects decodes into.  A
    member named "active", with any value and at any place, changes
    nothing of what is decoded. *)
Theorem Project_Active_from_archived (members : list (string * json.value))
    (p0 : Project.t) (saved : option error) :
  (exists p saved',
      Project.decoder (json.JObject members) p0 saved = json.Stored p saved'
      /\ Project.IsActive p = Project.Active p
      /\ (forall before key b after,
            members = (before ++ (key, json.JBool b) :: after)%list ->
            json.foldName key = "ARCHIVED" ->
            (forall key' b', In (key', json.JBool b') after ->
                             json.foldName key' <> "ARCHIVED") ->
            Project.IsActive p = b)
      /\ ((forall key b, In (key, json.JBool b) members -> json.foldName key <> "ARCHIVED") ->
          Project.IsActive p = Project.IsActive p0))
  /\ (forall (before after : list (string * json.value)) (v : json.value),
        Project.decoder (json.JObject (before ++ ("active", v) :: after)) p0 saved
        = Project.decoder (json.JObject (before ++ after)) p0 saved).
Proof.
  split.
  - unfold Project.decoder, json.struct, Project.IsActive.
    revert p0 saved. induction members as [|[k v] members IH]; intros p0 saved.
    + exists p0, saved. split; [done|]. split; [done|]. split; [|done].
      intros [|? ?] ? ? ? [=].
    + cbn [json.members_loop].
      destruct (Project_member_Active k v p0 saved) as (p1 & saved1 & Hstep & Hact).
      destruct (IH p1 saved1) as (p & saved' & Hloop & _ & Hlast & Hnone).
      exists p, saved'. split; [|split; [done|split]].
      * destruct (json.find_field Project.fields k) as [f|].
        -- by rewrite Hstep.
        -- by injection Hstep as -> ->.
      * intros before key b after Hmem Hkey Hafter.
        destruct before as [|x before]; simpl in Hmem.
        -- injection Hmem as -> -> <-. rewrite (Hnone Hafter), Hact.
           by rewrite Hkey.
        -- injection Hmem as _ ->. by apply (Hlast before key b after).
      * intros Hno. rewrite Hnone by (intros key b Hin; apply (Hno key b); by right).
        rewrite Hact. destruct v as [| b | | | |]; try done.
        destruct (String.eqb_spec (json.foldName k) "ARCHIVED") as [Hk|_]; [|done].
        by destruct (Hno k b (or_introl eq_refl)).
  - intros before after v. unfold Project.decoder, json.struct.
    rewrite !members_loop_app.
    destruct (json.members_loop Project.fields before p0 saved); reflexivity.
Qed.

(** The same through GetProjects, on bytes. *)
Example GetProjects_archived :
  result_of (GetProjects (RT := Fixture.runtime) (OpenSession "key") "w1"
               (Fixture.start (Fixture.ok
                  ("[{" +:+ Fixture.quote "id" +:+ ":" +:+ Fixture.quote "p1" +:+ ","
                   +:+ Fixture.quote "archived" +:+ ":true,"
                   +:+ Fixture.quote "active" +:+ ":false}]")) 0))
  = Returned ([Project.mk "" "p1" "" true false], None).
Proof. reflexivity. Qed.

(** ** The query string of a GET *)

Lemma write_pairs_nonempty buf pairs :
  buf <> "" -> write_pairs buf pairs = buf +:+ tail_join "&" pairs.
Proof.
  revert buf. induction pairs as [|p pairs IH]; intros buf Hbuf; simpl.
  - by rewrite string_app_nil_r.
  - destruct buf as [|c buf]; [done|].
    change (0 <? String.length (String c buf))%nat with true. cbv iota.
    rewrite IH.
    + by rewrite !string_app_assoc.
    + rewrite !string_app_cons. done.
Qed.

(** Writing into the buffer with [&] before all but the first pair is
    joining with [&]. *)
Lemma write_pairs_Join pairs :
  Forall (fun p => p <> "") pairs -> write_pairs "" pairs = Join "&" pairs.
Proof.
  destruct pairs as [|p pairs]; [done|]. intros [Hp _]%Forall_cons.
  change (write_pairs "" (p :: pairs)) with (write_pairs p pairs).
  rewrite Join_cons. by apply write_pairs_nonempty.
Qed.

Lemma query_pair_nonempty kv : query_pair kv <> "".
Proof.
  unfold query_pair. destruct (url.QueryEscape kv.1); rewrite ?string_app_cons; done.
Qed.

Lemma foldl_Set_notin (l : list (string * string)) (acc : gmap string (list string)) k :
  k ∉ l.*1 ->
  foldl (fun data kv => Values_Set kv.1 kv.2 data) acc l !! k = acc !! k.
Proof.
  revert acc. induction l as [|[k' v'] l IH]; intros acc Hk; simpl; [done|].
  rewrite fmap_cons, not_elem_of_cons in Hk. destruct Hk as [Hne Hk].
  rewrite IH by done. unfold Values_Set. simpl. by rewrite lookup_insert_ne.
Qed.

Lemma foldl_Set_in (l : list (string * string)) (acc : gmap string (list string)) k v :
  NoDup l.*1 -> (k, v) ∈ l ->
  foldl (fun data kv => Values_Set kv.1 kv.2 data) acc l !! k = Some [v].
Proof.
  revert acc. induction l as [|[k' v'] l IH]; intros acc Hnd Hin; simpl.
  - by apply elem_of_nil in Hin.
  - rewrite fmap_cons in Hnd. apply NoDup_cons in Hnd as [Hk' Hnd].
    apply elem_of_cons in Hin as [[= <- <-]|Hin].
    + rewrite foldl_Set_notin by done. unfold Values_Set. simpl. by rewrite lookup_insert_eq.
    + by apply IH.
Qed.

(** Ranging over the parameters in any order and setting each one yields
    the same [url.Values]. *)
Lemma foldl_Set_map (m : gmap string string) (l : list (string * string)) :
  l ≡ₚ map_to_list m ->
  foldl (fun data kv => Values_Set kv.1 kv.2 data) ∅ l = (fun v => [v]) <$> m.
Proof.
  intros Hl. apply map_eq. intros k. rewrite lookup_fmap.
  assert (NoDup l.*1) as Hnd.
  { rewrite Hl. apply NoDup_fst_map_to_list. }
  destruct (m !! k) as [v|] eqn:Hk; simpl.
  - apply foldl_Set_in; [done|]. rewrite Hl. by apply elem_of_map_to_list.
  - rewrite foldl_Set_notin; [done|].
    intros ((k' & v) & -> & Hin)%list_elem_of_fmap. rewrite Hl in Hin.
    apply elem_of_map_to_list in Hin. simpl in Hk. congruence.
Qed.

(** Sorting forgets the order the keys were collected in. *)
Lemma merge_sort_perm_eq (l1 l2 : list string) :
  l1 ≡ₚ l2 -> merge_sort String.le l1 = merge_sort String.le l2.
Proof.
  intros Hl. apply (Sorted_unique String.le).
  - apply Sorted_merge_sort. apply _.
  - apply Sorted_merge_sort. apply _.
  - by rewrite !merge_sort_Permutation.
Qed.

Lemma Encode_pairs_sorted (m : gmap string string) (keys : list string) :
  keys ≡ₚ (map_to_list m).*1 ->
  Encode_pairs keys ((fun v => [v]) <$> m) = query_pair <$> sorted_entries m.
Proof.
  intros Hkeys. unfold Encode_pairs, sorted_entries.
  rewrite (merge_sort_perm_eq _ _ Hkeys).
  assert (Forall (fun k => is_Some (m !! k)) (merge_sort String.le (map_to_list m).*1)) as Hall.
  { apply Forall_forall. intros k Hk. rewrite merge_sort_Permutation in Hk.
    apply list_elem_of_fmap in Hk as ((k' & v) & -> & Hin).
    apply elem_of_map_to_list in Hin. eauto. }
  induction Hall as [|k ks [v Hv] _ IH]; [done|].
  rewrite !fmap_cons, bind_cons, IH, lookup_fmap, Hv. reflexivity.
Qed.

Lemma sorted_entries_perm (m : gmap string string) : sorted_entries m ≡ₚ map_to_list m.
Proof.
  unfold sorted_entries. rewrite merge_sort_Permutation.
  assert (Forall (fun kv => m !! kv.1 = Some kv.2) (map_to_list m)) as Hall.
  { apply Forall_forall. intros [k v] Hin. by apply elem_of_map_to_list in Hin. }
  induction Hall as [|[k v] l Hkv _ IH]; [done|].
  rewrite !fmap_cons. simpl in *. rewrite Hkv. simpl. by rewrite IH.
Qed.

Lemma sorted_entries_keys (m : gmap string string) :
  (sorted_entries m).*1 = merge_sort String.le (map_to_list m).*1.
Proof.
  unfold sorted_entries. rewrite <- list_fmap_compose.
  induction (merge_sort _ _) as [|k l IH]; [done|]. rewrite fmap_cons. simpl. by rewrite IH.
Qed.

Lemma sorted_entries_Sorted (m : gmap string string) :
  Sorted String.le (sorted_entries m).*1.
Proof. rewrite sorted_entries_keys. apply Sorted_merge_sort. apply _. Qed.

(** ** Paths that [url.Parse] accepts *)

Lemma all_bytes_app p a b : all_bytes p (a +:+ b) = all_bytes p a && all_bytes p b.
Proof.
  unfold all_bytes. induction a as [|x a IH]; push_app; simpl; [done|].
  by rewrite IH, andb_assoc.
Qed.

Lemma all_bytes_impl (p q : ascii -> bool) s :
  (forall c, p c = true -> q c = true) -> all_bytes p s = true -> all_bytes q s = true.
Proof.
  unfold all_bytes. intros Hpq. induction s as [|c s IH]; simpl; [done|].
  intros [Hc Hs]%andb_true_iff. rewrite (Hpq c Hc). by apply IH.
Qed.

Lemma path_byte_plain c :
  unreserved c || Ascii.eqb c "/" = true ->
  (byte c <? 32) || (byte c =? 127) = false
  /\ Ascii.eqb c "#" = false /\ Ascii.eqb c "?" = false /\ Ascii.eqb c "%" = false.
Proof. destruct c as [[] [] [] [] [] [] [] []]; vm_compute; intros Hc; done. Qed.

Lemma path_plain p :
  all_bytes (fun c => unreserved c || Ascii.eqb c "/") p = true ->
  url.stringContainsCTLByte p = false
  /\ Cut "#" p = (p, "") /\ Cut "?" p = (p, "")
  /\ url.unescape_ok url.encodePath p = true.
Proof.
  unfold all_bytes, url.stringContainsCTLByte, any_byte.
  induction p as [|c p IH]; [done|]. cbn [list_ascii_of_string forallb existsb Cut url.unescape_ok].
  intros [Hc Hp]%andb_true_iff.
  destruct (path_byte_plain c Hc) as (-> & -> & -> & ->).
  destruct (IH Hp) as (-> & -> & -> & ->). done.
Qed.

(** A path of letters, digits, [-_.~] and [/] below the base URL is a URL
    that [url.Parse] accepts. *)
Lemma Parse_ok_plain p :
  all_bytes (fun c => unreserved c || Ascii.eqb c "/") p = true ->
  url.Parse_ok (ClockifyAPI +:+ String "/" p) = true.
Proof.
  intros Hp. rewrite Parse_ok_ClockifyAPI.
  destruct (path_plain p Hp) as (Hctl & Hfrag & Hquery & Hesc).
  rewrite Hfrag. cbn [fst snd]. rewrite Hquery. cbn [fst snd].
  by rewrite Hctl, Hesc.
Qed.

Lemma all_bytes_unreserved_plain s :
  all_bytes unreserved s = true ->
  all_bytes (fun c => unreserved c || Ascii.eqb c "/") s = true.
Proof. apply all_bytes_impl. by intros c ->. Qed.

(** ** encoding/json: which member a field is stored from *)

Section TimeEntryFields.

Context `{H : time.Pkg}.

Lemma TimeEntry_store_keeps_Pid f v e saved :
  In f TimeEntry.fields -> json.foldName (json.name f) <> "PID" ->
  match json.store f v e saved with
  | json.Stored e' _ | json.Stopped e' _ => TimeEntry.Pid e' = TimeEntry.Pid e
  end.
Proof.
  simpl. intros [<-|[<-|[<-|[<-|[<-|[<-|[<-|[<-|[]]]]]]]]] Hname; try done;
    cbn [json.store json.fld];
    match goal with |- context [match ?d v ?x saved with _ => _ end] =>
      by destruct (d v x saved) end.
Qed.

Lemma TimeEntry_members_keep_Pid members e saved :
  forallb (fun kv => negb (String.eqb (json.foldName kv.1) "PID")) members = true ->
  match json.members_loop TimeEntry.fields members e saved with
  | json.Stored e' _ | json.Stopped e' _ => TimeEntry.Pid e' = TimeEntry.Pid e
  end.
Proof.
  revert e saved. induction members as [|[k v] members IH]; intros e saved; [done|].
  cbn [forallb fst]. intros [Hk Hrest]%andb_true_iff.
  apply negb_true_iff, String.eqb_neq in Hk. cbn [json.members_loop].
  destruct (json.find_field TimeEntry.fields k) as [f|] eqn:Hf; [|by apply IH].
  apply find_field_name in Hf as [Hin Hname].
  pose proof (TimeEntry_store_keeps_Pid f v e saved Hin ltac:(congruence)) as Hstore.
  destruct (json.store f v e saved) as [e' saved'|e' err]; [|done].
  specialize (IH e' saved' Hrest).
  destruct (json.members_loop _ _ _ _); congruence.
Qed.

(** X1: the project id of a decoded time entry can only come from a
    member named [pid], in any mix of upper and lower case.  A body that
    is a JSON object without such a member, for instance one that names
    the project [projectId] as TimeEntryRequest does, gives an entry whose
    Pid is empty. *)
Theorem time_entry_Pid_only_from_pid (data : string) (members : list (string * json.value)) :
  json.whole_value data = Some (json.JObject members) ->
  forallb (fun kv => negb (String.eqb (json.foldName kv.1) "PID")) members = true ->
  TimeEntry.Pid (time_entry_of (data, None)).1 = "".
Proof.
  intros Hdata Hkeys. unfold time_entry_of, json.Unmarshal. cbn [fst snd]. rewrite Hdata.
  unfold TimeEntry.decoder, json.struct.
  pose proof (TimeEntry_members_keep_Pid members TimeEntry.zero None Hkeys) as Hpid.
  destruct (json.members_loop _ _ _ _) as [e [err|]|e err]; done.
Qed.

End TimeEntryFields.

Lemma Project_find_archived key :
  json.foldName key = "ARCHIVED" ->
  json.find_field Project.fields key
  = Some (json.fld "archived" Project.Active
            (fun a s => Project.mk (Project.Wid s) (Project.ID s) (Project.Name s) a
                          (Project.Billable s)) json.bool_).
Proof.
  intros Hkey. unfold json.find_field, Project.fields.
  cbn [find json.name json.fld].
  repeat match goal with
         | |- context [String.eqb ?n key] =>
             destruct (String.eqb_spec n key) as [<-|_]; [try done; vm_compute in Hkey; done|]
         end.
  rewrite Hkey. reflexivity.
Qed.

(** X2: member names are matched without regard to case.  A member
    whose name is [archived] in any mix of upper and lower case (a name
    that folds to ARCHIVED) is stored into the Active field of a Project
    just as [archived] itself is. *)
Theorem Project_member_names_fold (key : string) (members : list (string * json.value))
    (b : bool) (p0 : Project.t) (saved : option error) :
  json.foldName key = "ARCHIVED" ->
  exists p saved',
    Project.decoder (json.JObject (members ++ [(key, json.JBool b)])) p0 saved
    = json.Stored p saved'
    /\ Project.Active p = b /\ Project.IsActive p = b.
Proof.
  intros Hkey. unfold Project.decoder, json.struct. rewrite members_loop_app.
  destruct (Project_members_total members p0 saved) as (p & saved' & ->).
  cbn [json.members_loop]. rewrite (Project_find_archived key Hkey).
  eexists _, _. split; [reflexivity|]. split; reflexivity.
Qed.

(** ** encoding/json: a list of projects *)

Lemma Project_decoder_total v p saved :
  exists p' saved', Project.decoder v p saved = json.Stored p' saved'.
Proof.
  unfold Project.decoder, json.struct. destruct v; try (by eexists _, _).
  apply Project_members_total.
Qed.

Lemma Project_elements_length vs cur saved :
  exists l saved',
    json.elements Project.decoder Project.zero vs cur saved = json.Stored l saved'
    /\ length l = length vs.
Proof.
  revert cur saved. induction vs as [|v vs IH]; intros cur saved; cbn [json.elements].
  - by eexists _, _.
  - destruct (Project_decoder_total v (match cur with x :: _ => x | [] => Project.zero end) saved)
      as (p & saved' & ->).
    destruct (IH (tail cur) saved') as (l & saved'' & -> & Hlen).
    eexists _, _. split; [reflexivity|]. simpl. by rewrite Hlen.
Qed.

(** X3: when the body is a JSON array, [json.Unmarshal] into the list of
    projects gives one Project per element of the array, whatever the
    elements are: an element that is no object counts too (it gives a zero
    Project, with a type error recorded unless the element is [null], and
    decoding goes on). *)
Theorem one_Project_per_element (data : string) (vs : list json.value) :
  json.whole_value data = Some (json.JArray vs) ->
  length (json.Unmarshal (json.slice "[]clockify.Project" Project.decoder Project.zero)
            data []).1 = length vs.
Proof.
  intros Hdata. unfold json.Unmarshal. rewrite Hdata. unfold json.slice.
  destruct (Project_elements_length vs [] None) as (l & saved' & -> & Hlen). done.
Qed.

(** ** encoding/json: the id of a client *)

Lemma Client_store_total f v c saved :
  In f Client.fields -> exists c' saved', json.store f v c saved = json.Stored c' saved'.
Proof.
  simpl. intros [<-|[<-|[<-|[]]]]; destruct v; simpl; eauto.
  destruct (json.ParseInt lit); eauto.
Qed.

Lemma Client_members_total members c saved :
  exists c' saved', json.members_loop Client.fields members c saved = json.Stored c' saved'.
Proof.
  revert c saved. induction members as [|[k v] members IH]; intros c saved; simpl; [eauto|].
  destruct (json.find_field Client.fields k) as [f|] eqn:E; [|apply IH].
  destruct (Client_store_total f v c saved (find_field_In _ _ _ E)) as (c' & saved' & ->).
  apply IH.
Qed.

(** X4: the id of a Client is an [int].  An [id] member that holds a
    JSON string, whatever the string, is not stored: the client is as the
    members before it left it, and the decoder records a type error
    (string into int) unless it has recorded an error before.  Decoding
    goes on after it. *)
Theorem Client_id_string_is_a_type_error (members : list (string * json.value))
    (raw s : string) (c0 : Client.t) (saved : option error) :
  exists c saved',
    Client.decoder (json.JObject members) c0 saved = json.Stored c saved'
    /\ Client.decoder (json.JObject (members ++ [("id", json.JString raw s)])) c0 saved
       = json.Stored c (json.saveError (UnmarshalTypeError "string" "int") saved').
Proof.
  unfold Client.decoder, json.struct. rewrite members_loop_app.
  destruct (Client_members_total members c0 saved) as (c & saved' & ->).
  exists c, saved'. split; [done|]. by destruct c.
Qed.

(** ** encoding/json: a body without a value *)

Lemma first_value_blank data :
  json.skip_space data = "" -> json.first_value data = json.UnexpectedEnd.
Proof.
  intros Hblank. unfold json.first_value. rewrite Hblank.
  by replace (2 * String.length data + 1)%nat with (S (2 * String.length data)) by lia.
Qed.

Section Blank.

Context `{H : time.Pkg}.

(** X5: a body that is empty, or holds only JSON white space, is an error
    for every decoder of the program, but not the same one: decodeAccount,
    which reads through a [json.Decoder], reports [io.EOF];
    requestTimeEntry and GetProjects, which call [json.Unmarshal], report a
    syntax error.  The target keeps its value. *)
Theorem blank_body_is_an_error (data : string) (account : Account.t) :
  json.skip_space data = "" ->
  decodeAccount data account = (account, Some EOF)
  /\ time_entry_of (data, None) = (TimeEntry.zero, Some SyntaxError)
  /\ json.Unmarshal (json.slice "[]clockify.Project" Project.decoder Project.zero) data []
     = ([], Some SyntaxError).
Proof.
  intros Hblank. pose proof (first_value_blank data Hblank) as Hfirst.
  unfold decodeAccount, time_entry_of, json.Decode, json.Unmarshal, json.whole_value.
  cbn [fst snd]. by rewrite Hblank, Hfirst.
Qed.

End Blank.

(** ** decodeSession *)

Lemma Session_find_APIToken key :
  json.foldName key = "APITOKEN" ->
  json.find_field decodeSession_fields key
  = Some (json.fld "APIToken" APIToken (fun a _ => Build_Session a) json.string_).
Proof.
  intros Hkey. unfold json.find_field, decodeSession_fields.
  cbn [find json.name json.fld].
  destruct (String.eqb_spec "APIToken" key) as [<-|_]; [done|].
  by rewrite Hkey.
Qed.

(** What one member does to a session: a member whose name folds to
    APITOKEN and which holds a string sets the token; any other member
    leaves the session as it is. *)
Lemma Session_member_token k v s saved :
  exists s1 saved1,
    match json.find_field decodeSession_fields k with
    | Some f => json.store f v s saved
    | None => json.Stored s saved
    end = json.Stored s1 saved1
    /\ s1 = match v with
            | json.JString _ tok =>
                if String.eqb (json.foldName k) "APITOKEN" then Build_Session tok else s
            | _ => s
            end.
Proof.
  destruct (json.find_field decodeSession_fields k) as [f|] eqn:Hf.
  - apply find_field_name in Hf as [[<-|[]] Hname].
    cbn [json.name json.fld] in Hname.
    change (json.foldName "APIToken") with "APITOKEN" in Hname. rewrite <- Hname.
    destruct v, s; simpl; eexists _, _; (split; reflexivity).
  - exists s, saved. split; [done|].
    destruct v as [| | | raw tok | |]; try done.
    destruct (String.eqb_spec (json.foldName k) "APITOKEN") as [Hk|_]; [|done].
    pose proof (Session_find_APIToken k Hk). congruence.
Qed.

Lemma Session_members members s saved :
  exists s' saved',
    json.members_loop decodeSession_fields members s saved = json.Stored s' saved'
    /\ (forall before key raw tok after,
          members = (before ++ (key, json.JString raw tok) :: after)%list ->
          json.foldName key = "APITOKEN" ->
          (forall key' raw' tok', In (key', json.JString raw' tok') after ->
                                  json.foldName key' <> "APITOKEN") ->
          s' = Build_Session tok)
    /\ ((forall key raw tok, In (key, json.JString raw tok) members ->
                             json.foldName key <> "APITOKEN") ->
        s' = s).
Proof.
  revert s saved. induction members as [|[k v] members IH]; intros s saved.
  - exists s, saved. split; [done|]. split; [|done]. intros [|? ?] ? ? ? ? [=].
  - cbn [json.members_loop].
    destruct (Session_member_token k v s saved) as (s1 & saved1 & Hstep & Hs1).
    destruct (IH s1 saved1) as (s' & saved' & Hloop & Hlast & Hnone).
    exists s', saved'. split; [|split].
    + destruct (json.find_field decodeSession_fields k) as [f|].
      * by rewrite Hstep.
      * by injection Hstep as -> ->.
    + intros before key raw tok after Hmem Hkey Hafter.
      destruct before as [|x before]; simpl in Hmem.
      * injection Hmem as -> -> <-. rewrite (Hnone Hafter), Hs1. by rewrite Hkey.
      * injection Hmem as _ ->. by apply (Hlast before key raw tok after).
    + intros Hno. rewrite Hnone by (intros key raw tok Hin; apply (Hno key raw tok); by right).
      rewrite Hs1. destruct v as [| | | raw tok | |]; try done.
      destruct (String.eqb_spec (json.foldName k) "APITOKEN") as [Hk|_]; [|done].
      by destruct (Hno k raw tok (or_introl eq_refl)).
Qed.

(** X6: decodeSession sets the token of the session from the first JSON
    value of the data, and from nothing else.  When that value is an
    object with a member that is named APIToken, in any mix of upper and
    lower case, and holds a string, the session decodeSession leaves is
    the one whose token is the string of the last such member.  When the
    object has no such member the session is as it was; and so it is when
    the data holds no value, or a value that is cut off, malformed or not
    an object.  Bytes after the first value change nothing. *)
Theorem decodeSession_token (data : string) (session : Session) :
  (forall members rest,
      json.first_value data = json.Scanned (json.JObject members) rest ->
      (forall before key raw tok after,
          members = (before ++ (key, json.JString raw tok) :: after)%list ->
          json.foldName key = "APITOKEN" ->
          (forall key' raw' tok', In (key', json.JString raw' tok') after ->
                                  json.foldName key' <> "APITOKEN") ->
          (decodeSession data session).1 = Build_Session tok)
      /\ ((forall key raw tok, In (key, json.JString raw tok) members ->
                               json.foldName key <> "APITOKEN") ->
          (decodeSession data session).1 = session))
  /\ ((forall members rest,
          json.first_value data <> json.Scanned (json.JObject members) rest) ->
      (decodeSession data session).1 = session).
Proof.
  unfold decodeSession, json.Decode. split.
  - intros members rest Hfirst.
    destruct (json.skip_space data) eqn:Hblank.
    { by rewrite (first_value_blank data Hblank) in Hfirst. }
    rewrite Hfirst. cbn [json.struct].
    destruct (Session_members members session None) as (s' & saved' & -> & Hlast & Hnone).
    exact (conj Hlast Hnone).
  - intros Hno. destruct (json.skip_space data); [done|].
    destruct (json.first_value data) as [v rest| | |]; try done.
    destruct v as [| b | lit | raw tok | elems | members]; try done.
    by destruct (Hno members rest).
Qed.

(** ** encoding/json: what is marshalled can be unmarshalled *)

Ltac push_all := repeat (rewrite string_app_cons || rewrite string_app_nil_l).

Section RoundTrip.

Import json.

Local Open Scope nat_scope.

(** More fuel changes no result. *)
Lemma scan_fuel_S fuel :
  (forall d s x, scan_value fuel d s = x -> x <> OutOfFuel -> scan_value (S fuel) d s = x)
  /\ (forall d s x, scan_elements fuel d s = x -> x <> OutOfFuel ->
        scan_elements (S fuel) d s = x)
  /\ (forall d s x, scan_members fuel d s = x -> x <> OutOfFuel ->
        scan_members (S fuel) d s = x).
Proof.
  induction fuel as [|fuel (IHv & IHe & IHm)].
  { repeat split; intros d s x <-; done. }
  remember (S fuel) as f1 eqn:Hf1.
  split; [|split]; intros d s x Hx Hne.
  - rewrite Hf1 in Hx. cbn [scan_value] in Hx. cbn [scan_value].
    destruct s as [|c r]; [done|].
    destruct (Ascii.eqb c "{").
    { destruct (_ <? _)%N; [done|].
      destruct (after "}" (skip_space r)); [done|].
      destruct (scan_members fuel (d + 1) (skip_space r)) eqn:E;
        first [rewrite (IHm _ _ _ E) by done; exact Hx | simpl in Hx; by subst x]. }
    destruct (Ascii.eqb c "[").
    { destruct (_ <? _)%N; [done|].
      destruct (after "]" (skip_space r)); [done|].
      destruct (scan_elements fuel (d + 1) (skip_space r)) eqn:E;
        first [rewrite (IHe _ _ _ E) by done; exact Hx | simpl in Hx; by subst x]. }
    exact Hx.
  - rewrite Hf1 in Hx. cbn [scan_elements] in Hx. cbn [scan_elements].
    destruct (scan_value fuel d s) as [v r| | |] eqn:E;
      [|first [rewrite (IHv _ _ _ E) by done; exact Hx | simpl in Hx; by subst x]..].
    rewrite (IHv _ _ _ E) by done. cbn [scan_bind] in *.
    destruct (skip_space r) as [|c r']; [done|].
    destruct (Ascii.eqb c ","); [|done].
    destruct (scan_elements fuel d (skip_space r')) eqn:E2;
      first [rewrite (IHe _ _ _ E2) by done; exact Hx | simpl in Hx; by subst x].
  - rewrite Hf1 in Hx. cbn [scan_members] in Hx. cbn [scan_members].
    destruct s as [|q r]; [done|].
    destruct (negb _); [done|].
    destruct (scan_bind (scan_string r) (resolved id)) as [key r1| | |]; try done.
    cbn [scan_bind] in *.
    destruct (skip_space r1) as [|c r']; [done|].
    destruct (negb _); [done|].
    destruct (scan_value fuel d (skip_space r')) as [v r2| | |] eqn:E;
      [|first [rewrite (IHv _ _ _ E) by done; exact Hx | simpl in Hx; by subst x]..].
    rewrite (IHv _ _ _ E) by done. cbn [scan_bind] in *.
    destruct (skip_space r2) as [|c2 r3]; [done|].
    destruct (Ascii.eqb c2 ","); [|done].
    destruct (scan_members fuel d (skip_space r3)) eqn:E2;
      first [rewrite (IHm _ _ _ E2) by done; exact Hx | simpl in Hx; by subst x].
Qed.

Lemma scan_value_le f1 f2 d s x :
  f1 <= f2 -> scan_value f1 d s = x -> x <> OutOfFuel -> scan_value f2 d s = x.
Proof.
  intros Hle Hx Hne. induction Hle as [|f2 Hle IH]; [done|].
  by apply (proj1 (scan_fuel_S f2)).
Qed.

Lemma scan_elements_le f1 f2 d s x :
  f1 <= f2 -> scan_elements f1 d s = x -> x <> OutOfFuel -> scan_elements f2 d s = x.
Proof.
  intros Hle Hx Hne. induction Hle as [|f2 Hle IH]; [done|].
  by apply (proj1 (proj2 (scan_fuel_S f2))).
Qed.

Lemma scan_members_le f1 f2 d s x :
  f1 <= f2 -> scan_members f1 d s = x -> x <> OutOfFuel -> scan_members f2 d s = x.
Proof.
  intros Hle Hx Hne. induction Hle as [|f2 Hle IH]; [done|].
  by apply (proj2 (proj2 (scan_fuel_S f2))).
Qed.

(** A value scanned with some fuel is the first value of the data. *)
Lemma first_value_Scanned data fuel v r :
  scan_value fuel 0 (skip_space data) = Scanned v r -> first_value data = Scanned v r.
Proof.
  intros Hv. unfold first_value.
  destruct (Nat.le_ge_cases fuel (2 * String.length data + 1)) as [Hle|Hge].
  - by apply (scan_value_le fuel).
  - pose proof (first_value_fuel data) as Hfuel. unfold first_value in Hfuel.
    pose proof (scan_value_le _ fuel 0%N (skip_space data) _ Hge eq_refl Hfuel) as Heq.
    by rewrite Hv in Heq.
Qed.

Local Open Scope Z_scope.

(** *** String literals *)

Lemma high_byte c :
  (128 <=? byte c) = true ->
  Ascii.eqb c "034" = false /\ Ascii.eqb c "\" = false
  /\ Ascii.eqb c "008" = false /\ Ascii.eqb c "012" = false /\ Ascii.eqb c "010" = false
  /\ Ascii.eqb c "013" = false /\ Ascii.eqb c "009" = false
  /\ (byte c <? 32) = false /\ one_of "<>&" c = false /\ (byte c <? 128) = false.
Proof. destruct c as [[] [] [] [] [] [] [] []]; vm_compute; intros Hc; done. Qed.

Lemma line_separator_digit c :
  (byte c =? 168) || (byte c =? 169) = true -> url.ishex (chr (byte c - 112)) = true.
Proof. destruct c as [[] [] [] [] [] [] [] []]; vm_compute; intros Hc; done. Qed.

Lemma cont_prefix_high k c r : cont_prefix (S k) (String c r) -> (128 <=? byte c) = true.
Proof. intros [Hc _]. by apply Z.leb_le. Qed.

(** The encoder handles a byte below 128 by itself. *)
Lemma encode_low c r :
  (byte c <? 128) = true ->
  Fixture.encode_from O (String c r)
  = Fixture.encode_from O (String c "") +:+ Fixture.encode_from O r.
Proof.
  intros Hlow. cbn [Fixture.encode_from]. rewrite Hlow.
  repeat match goal with
         | |- (if ?b then _ else _) = (if ?b then _ else _) +:+ _ => destruct b
         end; push_all; rewrite ?string_app_nil_r; reflexivity.
Qed.

Lemma scan_low c x :
  (byte c <? 128) = true ->
  scan_string (Fixture.encode_from O (String c "") +:+ x)
  = scan_map (String.append (Fixture.encode_from O (String c ""))) (scan_string x).
Proof.
  destruct c as [[] [] [] [] [] [] [] []]; vm_compute (byte _ <? 128); intros Hlow;
    try discriminate Hlow; reflexivity.
Qed.

Lemma unquote_low c x :
  (byte c <? 128) = true ->
  unquote_from O (Fixture.encode_from O (String c "") +:+ x) = String c <$> unquote_from O x.
Proof.
  destruct c as [[] [] [] [] [] [] [] []]; vm_compute (byte _ <? 128); intros Hlow;
    try discriminate Hlow; reflexivity.
Qed.

(** What the encoder writes for a string is scanned as one literal. *)
Lemma scan_encoded : forall (n : nat) s k rest,
  (String.length s <= n)%nat -> cont_prefix k s ->
  scan_string (Fixture.encode_from k s +:+ String "034" rest)
  = Scanned (Fixture.encode_from k s) rest.
Proof.
  induction n as [|n IH]; intros s k rest Hn Hk.
  { destruct s; [by destruct k | simpl in Hn; lia]. }
  destruct s as [|c r]; [by destruct k|]. simpl in Hn.
  destruct k as [|k].
  - destruct (byte c <? 128) eqn:Hlow.
    + rewrite (encode_low c r Hlow), string_app_assoc, (scan_low c _ Hlow).
      rewrite IH by (done || lia). reflexivity.
    + (* the first byte of a sequence, or a stray byte *)
      assert ((128 <=? byte c) = true) as Hhigh.
      { apply Z.ltb_ge in Hlow. by apply Z.leb_le. }
      destruct (high_byte c Hhigh) as (Hq & Hb & H8 & H12 & H10 & H13 & H9 & Hctl & Hhtml & _).
      cbn [Fixture.encode_from]. rewrite Hq, Hb, H8, H12, H10, H13, H9, Hctl, Hhtml, Hlow.
      cbn [orb].
      destruct (utf8.size (String c r)) as [|k] eqn:Hsize.
      * push_all. cbn [scan_string Ascii.eqb Bool.eqb one_of list_ascii_of_string existsb orb].
        change (url.ishex "f") with true. change (url.ishex "d") with true. cbn [andb].
        rewrite IH by (done || lia). reflexivity.
      * assert (scan_string (String c (Fixture.encode_from k r) +:+ String "034" rest)
                = Scanned (String c (Fixture.encode_from k r)) rest) as Hcopy.
        { push_all. cbn [scan_string]. rewrite Hq, Hb, Hctl.
          rewrite IH; [done|lia|]. by apply utf8_size_cont in Hsize. }
        destruct r as [|c1 [|c2 r']]; try exact Hcopy.
        destruct (_ && _) eqn:Hsep; [|exact Hcopy].
        apply andb_true_iff in Hsep as [_ Hsep%line_separator_digit].
        push_all. cbn [scan_string Ascii.eqb Bool.eqb one_of list_ascii_of_string existsb orb].
        change (url.ishex "2") with true. change (url.ishex "0") with true. rewrite Hsep.
        cbn [andb]. rewrite IH; [done|simpl in Hn; lia|done].
  - pose proof (cont_prefix_high _ _ _ Hk) as Hhigh.
    destruct (high_byte c Hhigh) as (Hq & Hb & _ & _ & _ & _ & _ & Hctl & _).
    cbn [Fixture.encode_from]. push_all. cbn [scan_string]. rewrite Hq, Hb, Hctl.
    rewrite IH; [done|lia|]. by destruct Hk.
Qed.

Lemma chr_byte c : chr (byte c) = c.
Proof. unfold chr, byte. by rewrite N2Z.id, ascii_N_embedding. Qed.

Lemma byte_is c n : (byte c =? n) = true -> c = chr n.
Proof. intros Hc%Z.eqb_eq. by rewrite <- Hc, chr_byte. Qed.

(** The decoder finds the sequence the encoder copied. *)
Lemma size_encoded c r k :
  utf8.size (String c r) = S k ->
  utf8.size (String c (Fixture.encode_from k r)) = S k.
Proof.
  unfold utf8.size.
  destruct (byte c <? 128); [by intros [= <-]|].
  destruct (_ && _).
  { destruct r as [|b1 r]; [done|].
    destruct (_ && _) eqn:E; [|done]. intros [= <-].
    cbn [Fixture.encode_from]. by rewrite E. }
  destruct (_ && _).
  { destruct r as [|b1 [|b2 r]]; [done..|].
    destruct (_ && _) eqn:E; [|done]. intros [= <-].
    cbn [Fixture.encode_from]. by rewrite E. }
  destruct (_ && _); [|done].
  destruct r as [|b1 [|b2 [|b3 r]]]; [done..|].
  destruct (_ && _) eqn:E; [|done]. intros [= <-].
  cbn [Fixture.encode_from]. by rewrite E.
Qed.

(** Unquoting what the encoder wrote for well-formed UTF-8 gives the
    string back. *)
Lemma unquote_encoded : forall (n : nat) s k,
  (String.length s <= n)%nat -> cont_prefix k s -> valid_from k s = true ->
  unquote_from k (Fixture.encode_from k s) = Some s.
Proof.
  induction n as [|n IH]; intros s k Hn Hk Hvalid.
  { destruct s; [by destruct k | simpl in Hn; lia]. }
  destruct s as [|c r]; [by destruct k|]. simpl in Hn.
  destruct k as [|k].
  - cbn [valid_from] in Hvalid.
    destruct (byte c <? 128) eqn:Hlow.
    + assert (utf8.size (String c r) = 1%nat) as Hsize by (unfold utf8.size; by rewrite Hlow).
      rewrite Hsize in Hvalid.
      rewrite (encode_low c r Hlow), (unquote_low c _ Hlow).
      rewrite IH by (done || lia). reflexivity.
    + assert ((128 <=? byte c) = true) as Hhigh.
      { apply Z.ltb_ge in Hlow. by apply Z.leb_le. }
      destruct (high_byte c Hhigh) as (Hq & Hb & H8 & H12 & H10 & H13 & H9 & Hctl & Hhtml & _).
      cbn [Fixture.encode_from]. rewrite Hq, Hb, H8, H12, H10, H13, H9, Hctl, Hhtml, Hlow.
      cbn [orb].
      destruct (utf8.size (String c r)) as [|k] eqn:Hsize; [done|].
      assert (unquote_from O (String c (Fixture.encode_from k r)) = Some (String c r)) as Hcopy.
      { cbn [unquote_from]. rewrite Hb, Hq, Hctl, Hlow. cbn [orb].
        rewrite (size_encoded c r k Hsize).
        rewrite IH; [done|lia| |done]. by apply utf8_size_cont in Hsize. }
      destruct r as [|c1 [|c2 r']]; try exact Hcopy.
      destruct (_ && _) eqn:Hsep; [|exact Hcopy].
      apply andb_true_iff in Hsep as [[Hc%byte_is Hc1%byte_is]%andb_true_iff Hc2].
      subst c c1.
      assert (unquote_from O (Fixture.encode_from O r') = Some r') as Hr'.
      { apply IH; [simpl in Hn; lia|done|].
        apply orb_true_iff in Hc2 as [Hc2%byte_is|Hc2%byte_is]; subst c2;
          vm_compute in Hsize; injection Hsize as <-; exact Hvalid. }
      apply orb_true_iff in Hc2 as [Hc2%byte_is|Hc2%byte_is]; subst c2.
      * transitivity (String.append (String (chr 226) (String (chr 128) (String (chr 168) "")))
                        <$> unquote_from O (Fixture.encode_from O r')); [reflexivity|].
        by rewrite Hr'.
      * transitivity (String.append (String (chr 226) (String (chr 128) (String (chr 169) "")))
                        <$> unquote_from O (Fixture.encode_from O r')); [reflexivity|].
        by rewrite Hr'.
  - cbn [Fixture.encode_from unquote_from valid_from] in *.
    rewrite IH; [done|lia| |done]. by destruct Hk.
Qed.

(** *** Values *)

Lemma quote_app s x :
  Fixture.quote s +:+ x = String "034" (Fixture.encode_from O s +:+ String "034" x).
Proof. unfold Fixture.quote. push_all. by rewrite string_app_assoc. Qed.

Lemma scan_value_quote fuel d s rest :
  fuel <> O -> ValidString s = true ->
  scan_value fuel d (Fixture.quote s +:+ rest) = Scanned (jstr s) rest.
Proof.
  intros Hfuel Hs. destruct fuel as [|fuel]; [done|]. rewrite quote_app. cbn [scan_value].
  change (Ascii.eqb "034" "{") with false. change (Ascii.eqb "034" "[") with false.
  change (Ascii.eqb "034" "034") with true. cbv iota.
  rewrite (scan_encoded (String.length s) s O rest) by done. cbn [scan_bind].
  unfold resolved, unquote. by rewrite (unquote_encoded (String.length s) s O).
Qed.

Lemma scan_key name rest :
  ValidString name = true ->
  scan_bind (scan_string (Fixture.encode_from O name +:+ String "034" rest)) (resolved id)
  = Scanned name rest.
Proof.
  intros Hs. rewrite (scan_encoded (String.length name) name O rest) by done.
  cbn [scan_bind]. unfold resolved, unquote.
  by rewrite (unquote_encoded (String.length name) name O).
Qed.

Lemma skip_space_quote s x : skip_space (Fixture.quote s +:+ x) = Fixture.quote s +:+ x.
Proof. by rewrite quote_app. Qed.

Lemma rendered_quote s : ValidString s = true -> rendered (Fixture.quote s) (jstr s).
Proof.
  intros Hs. split; [by eexists _, _|].
  intros rest. exists 1%nat. by apply scan_value_quote.
Qed.

Lemma rendered_true : rendered "true" (JBool true).
Proof. split; [by eexists _, _|]. intros rest. by exists 1%nat. Qed.

Lemma member_app name text x :
  Fixture.member name text +:+ x
  = String "034" (Fixture.encode_from O name +:+ String "034" (String ":" (text +:+ x))).
Proof.
  unfold Fixture.member. rewrite !string_app_assoc, quote_app. by push_all.
Qed.

Lemma tail_join_cons sep x l : tail_join sep (x :: l) = sep +:+ x +:+ tail_join sep l.
Proof. reflexivity. Qed.

(** The elements of an array of strings, from the first one on. *)
Lemma scan_elements_quoted tags : forall t rest,
  ValidString t = true -> forallb ValidString tags = true ->
  exists fuel,
    scan_elements fuel 2 (Fixture.quote t +:+ tail_join "," (Fixture.quote <$> tags)
                          +:+ String "]" rest)
    = Scanned (jstr <$> t :: tags) rest.
Proof.
  induction tags as [|t' tags IH]; intros t rest Ht Htags.
  - exists 2%nat. cbn [scan_elements]. cbn [fmap list_fmap tail_join foldr]. push_all.
    rewrite scan_value_quote by done. reflexivity.
  - cbn [forallb] in Htags. apply andb_true_iff in Htags as [Ht' Htags].
    destruct (IH t' rest Ht' Htags) as (fuel & Hfuel).
    assert (fuel <> O) as Hpos by (intros ->; done).
    apply (scan_elements_le fuel (S fuel)) in Hfuel; [|lia|done].
    exists (S (S fuel)). remember (S fuel) as f1 eqn:Hf1.
    cbn [scan_elements]. rewrite fmap_cons, tail_join_cons, !string_app_assoc. push_all.
    rewrite scan_value_quote by (done || lia). cbn [scan_bind skip_space].
    change (isSpace ",") with false. cbv iota. change (Ascii.eqb "," ",") with true. cbv iota.
    rewrite skip_space_quote, Hfuel. reflexivity.
Qed.

Lemma rendered_tags t tags :
  ValidString t = true -> forallb ValidString tags = true ->
  rendered ("[" +:+ Join "," (Fixture.quote <$> t :: tags) +:+ "]") (JArray (jstr <$> t :: tags)).
Proof.
  intros Ht Htags. split; [by eexists _, _|]. intros rest.
  destruct (scan_elements_quoted tags t rest Ht Htags) as (fuel & Hfuel).
  exists (S fuel). rewrite fmap_cons, Join_cons, !string_app_assoc. push_all. cbn [scan_value].
  change (Ascii.eqb "[" "{") with false. change (Ascii.eqb "[" "[") with true. cbv iota.
  change (maxNestingDepth <? 1 + 1)%N with false. cbv iota.
  rewrite skip_space_quote. rewrite quote_app at 1. cbn [after].
  change (Ascii.eqb "034" "]") with false. cbv iota.
  change (1 + 1)%N with 2%N. by rewrite Hfuel.
Qed.

(** *** Objects *)

Lemma skip_space_rendered text v x : rendered text v -> skip_space (text +:+ x) = text +:+ x.
Proof. intros [(c & t & -> & Hc) _]. push_all. cbn [skip_space]. by rewrite Hc. Qed.

Lemma skip_space_member i x : skip_space (item_text i +:+ x) = item_text i +:+ x.
Proof. unfold item_text. by rewrite member_app. Qed.

(** The members of an object, from the first one on. *)
Lemma scan_members_items (l : list (string * string * value)) : forall i rest,
  item_ok i -> Forall item_ok l ->
  exists fuel,
    scan_members fuel 1 (item_text i +:+ tail_join "," (item_text <$> l) +:+ String "}" rest)
    = Scanned (item_kv <$> i :: l) rest.
Proof.
  induction l as [|j l IH]; intros [[name text] v] rest [Hname Htext] Hl.
  - destruct Htext as [Hstart Hscan].
    destruct (Hscan (String "}" rest)) as (fv & Hv).
    exists (S fv). unfold item_text. cbn [fst snd fmap list_fmap tail_join foldr] in *.
    push_all. rewrite member_app. cbn [scan_members].
    change (negb (Ascii.eqb "034" "034")) with false. cbv iota.
    rewrite scan_key by done. cbn [scan_bind skip_space].
    change (isSpace ":") with false. cbv iota.
    change (negb (Ascii.eqb ":" ":")) with false. cbv iota.
    rewrite (skip_space_rendered text v) by done. rewrite Hv. cbn [scan_bind skip_space].
    change (isSpace "}") with false. cbv iota. reflexivity.
  - apply Forall_cons in Hl as [Hj Hl].
    destruct (IH j rest Hj Hl) as (fm & Hm).
    pose proof Htext as [Hstart Hscan].
    destruct (Hscan (String "," (item_text j +:+ tail_join "," (item_text <$> l)
                                 +:+ String "}" rest))) as (fv & Hv).
    apply (scan_value_le fv (Nat.max fv fm)) in Hv; [|lia|done].
    apply (scan_members_le fm (Nat.max fv fm)) in Hm; [|lia|done].
    exists (S (Nat.max fv fm)). remember (Nat.max fv fm) as fuel eqn:Hfuel.
    unfold item_text at 1. cbn [fst snd] in *.
    rewrite fmap_cons, tail_join_cons, !string_app_assoc. push_all.
    rewrite member_app. cbn [scan_members].
    change (negb (Ascii.eqb "034" "034")) with false. cbv iota.
    rewrite scan_key by done. cbn [scan_bind skip_space].
    change (isSpace ":") with false. cbv iota.
    change (negb (Ascii.eqb ":" ":")) with false. cbv iota.
    rewrite (skip_space_rendered text v) by done. rewrite Hv. cbn [scan_bind skip_space].
    change (isSpace ",") with false. cbv iota. change (Ascii.eqb "," ",") with true. cbv iota.
    rewrite skip_space_member, Hm. reflexivity.
Qed.

(** An object, as the encoder writes it. *)
Lemma scan_object (items : list (string * string * value)) (rest : string) :
  Forall item_ok items ->
  exists fuel,
    scan_value fuel 0 (("{" +:+ Join "," (item_text <$> items) +:+ "}") +:+ rest)
    = Scanned (JObject (item_kv <$> items)) rest.
Proof.
  intros Hitems. destruct items as [|i l].
  - by exists 1%nat.
  - apply Forall_cons in Hitems as [Hi Hl].
    destruct (scan_members_items l i rest Hi Hl) as (fuel & Hfuel).
    exists (S fuel). rewrite fmap_cons, Join_cons, !string_app_assoc. push_all.
    cbn [scan_value]. change (Ascii.eqb "{" "{") with true. cbv iota.
    change (maxNestingDepth <? 0 + 1)%N with false. cbv iota.
    rewrite skip_space_member. unfold item_text at 1. rewrite member_app. cbn [after].
    change (Ascii.eqb "034" "}") with false. cbv iota.
    change (0 + 1)%N with 1%N. by rewrite Hfuel.
Qed.

Lemma whole_value_object (items : list (string * string * value)) :
  Forall item_ok items ->
  whole_value ("{" +:+ Join "," (item_text <$> items) +:+ "}")
  = Some (JObject (item_kv <$> items)).
Proof.
  intros Hitems. destruct (scan_object items "" Hitems) as (fuel & Hfuel).
  rewrite string_app_nil_r in Hfuel.
  unfold whole_value. rewrite (first_value_Scanned _ fuel (JObject (item_kv <$> items)) "").
  - done.
  - by push_all.
Qed.

End RoundTrip.

Section Echo.

Context `{H : time.Pkg}.

Lemma Marshal_items (r : TimeEntryRequest.t) :
  (Fixture.Marshal r).1 = "{" +:+ Join "," (item_text <$> request_items r) +:+ "}".
Proof.
  destruct r as [start pid tid description end_ tags billable].
  unfold Fixture.Marshal, request_items, str_item.
  cbn [fst TimeEntryRequest.Start TimeEntryRequest.Pid TimeEntryRequest.Tid
       TimeEntryRequest.Description TimeEntryRequest.End_ TimeEntryRequest.Tags
       TimeEntryRequest.Billable].
  do 3 f_equal.
  destruct (String.eqb start ""), (String.eqb pid ""), (String.eqb tid ""),
    (String.eqb description ""), (String.eqb end_ ""), tags, billable; reflexivity.
Qed.

Lemma str_item_ok name v :
  ValidString name = true -> ValidString v = true -> Forall item_ok (str_item name v).
Proof.
  intros Hname Hv. unfold str_item. destruct (String.eqb v ""); [done|].
  constructor; [|done]. split; [done|]. by apply rendered_quote.
Qed.

Lemma request_items_ok (r : TimeEntryRequest.t) :
  valid_request r = true -> Forall item_ok (request_items r).
Proof.
  unfold valid_request.
  intros [[[[[Hstart Hpid]%andb_true_iff Htid]%andb_true_iff Hdesc]%andb_true_iff
            Hend]%andb_true_iff Htags]%andb_true_iff.
  unfold request_items. repeat apply Forall_app_2; try by apply str_item_ok.
  - destruct (TimeEntryRequest.Tags r) as [|t tags]; [done|].
    cbn [forallb] in Htags. apply andb_true_iff in Htags as [Ht Htags].
    constructor; [|done]. split; [done|]. by apply rendered_tags.
  - destruct (TimeEntryRequest.Billable r); [|done].
    constructor; [|done]. split; [done|]. apply rendered_true.
Qed.

Lemma elements_jstr (l : list string) : forall cur saved,
  json.elements json.string_ "" (jstr <$> l) cur saved = json.Stored l saved.
Proof.
  induction l as [|x l IH]; intros cur saved; [done|].
  rewrite fmap_cons. cbn [json.elements jstr json.string_]. by rewrite IH.
Qed.

Lemma loop_ignored name v (l : list (string * string * json.value)) (e : TimeEntry.t) saved :
  json.find_field TimeEntry.fields name = None ->
  json.members_loop TimeEntry.fields (item_kv <$> (str_item name v ++ l)%list) e saved
  = json.members_loop TimeEntry.fields (item_kv <$> l) e saved.
Proof.
  intros Hname. unfold str_item. destruct (String.eqb v ""); [done|].
  cbn [app fmap list_fmap item_kv fst snd json.members_loop]. by rewrite Hname.
Qed.

Lemma loop_taskId v (l : list (string * string * json.value)) (e : TimeEntry.t) saved :
  json.members_loop TimeEntry.fields (item_kv <$> (str_item "taskId" v ++ l)%list) e saved
  = json.members_loop TimeEntry.fields (item_kv <$> l)
      (if String.eqb v "" then e
       else TimeEntry.mk _ (TimeEntry.Wid e) (TimeEntry.ID e) (TimeEntry.Pid e) v
              (TimeEntry.Description e) (TimeEntry.TimeInterval e) (TimeEntry.Tags e)
              (TimeEntry.Billable e)) saved.
Proof. unfold str_item. by destruct (String.eqb v ""). Qed.

Lemma loop_description v (l : list (string * string * json.value)) (e : TimeEntry.t) saved :
  json.members_loop TimeEntry.fields (item_kv <$> (str_item "description" v ++ l)%list) e saved
  = json.members_loop TimeEntry.fields (item_kv <$> l)
      (if String.eqb v "" then e
       else TimeEntry.mk _ (TimeEntry.Wid e) (TimeEntry.ID e) (TimeEntry.Pid e)
              (TimeEntry.Tid e) v (TimeEntry.TimeInterval e) (TimeEntry.Tags e)
              (TimeEntry.Billable e)) saved.
Proof. unfold str_item. by destruct (String.eqb v ""). Qed.

Lemma loop_tagIds text (t : string) (tags : list string)
    (l : list (string * string * json.value)) (e : TimeEntry.t) saved :
  json.members_loop TimeEntry.fields
    (item_kv <$> ("tagIds", text, json.JArray (jstr <$> t :: tags)) :: l) e saved
  = json.members_loop TimeEntry.fields (item_kv <$> l)
      (TimeEntry.mk _ (TimeEntry.Wid e) (TimeEntry.ID e) (TimeEntry.Pid e)
         (TimeEntry.Tid e) (TimeEntry.Description e) (TimeEntry.TimeInterval e) (t :: tags)
         (TimeEntry.Billable e)) saved.
Proof.
  rewrite (fmap_cons item_kv). cbn [item_kv fst snd json.members_loop].
  change (json.find_field TimeEntry.fields "tagIds")
    with (Some (json.fld "tagIds" TimeEntry.Tags
                  (fun a s => TimeEntry.mk _ (TimeEntry.Wid s) (TimeEntry.ID s) (TimeEntry.Pid s)
                                (TimeEntry.Tid s) (TimeEntry.Description s)
                                (TimeEntry.TimeInterval s) a (TimeEntry.Billable s))
                  (json.slice "[]string" json.string_ ""))).
  cbn [json.store json.fld json.slice].
  by rewrite elements_jstr.
Qed.

Lemma loop_billable (b : bool) (e : TimeEntry.t) saved :
  json.members_loop TimeEntry.fields
    (item_kv <$> (if b then [("billable", "true", json.JBool true)] else [])) e saved
  = json.Stored
      (if b
       then TimeEntry.mk _ (TimeEntry.Wid e) (TimeEntry.ID e) (TimeEntry.Pid e)
              (TimeEntry.Tid e) (TimeEntry.Description e) (TimeEntry.TimeInterval e)
              (TimeEntry.Tags e) true
       else e) saved.
Proof. by destruct b. Qed.

(** X7: a request read back as an entry.  When the strings of a
    TimeEntryRequest are well-formed UTF-8, the JSON text that
    [json.Marshal] writes for it is unmarshalled into a TimeEntry without
    an error, and the entry has the task id, the description, the tag ids
    and the billable flag of the request.  Its project id is empty
    whatever the request holds: the request names it [projectId] and the
    entry reads [pid].  Start and end are not read either (the entry looks
    for them inside [timeInterval]). *)
Theorem request_read_back_as_entry (r : TimeEntryRequest.t) :
  valid_request r = true ->
  json.Unmarshal TimeEntry.decoder (Fixture.Marshal r).1 TimeEntry.zero
  = (TimeEntry.mk _ "" "" "" (TimeEntryRequest.Tid r) (TimeEntryRequest.Description r)
       TimeInterval.zero (TimeEntryRequest.Tags r) (TimeEntryRequest.Billable r), None).
Proof.
  intros Hvalid. unfold json.Unmarshal.
  rewrite Marshal_items, (whole_value_object _ (request_items_ok r Hvalid)).
  unfold TimeEntry.decoder, json.struct, request_items.
  rewrite (loop_ignored "start") by reflexivity.
  rewrite (loop_ignored "projectId") by reflexivity.
  rewrite loop_taskId, loop_description.
  rewrite (loop_ignored "end") by reflexivity.
  destruct r as [start pid tid description end_ tags billable].
  cbn [TimeEntryRequest.Tid TimeEntryRequest.Description TimeEntryRequest.Tags
       TimeEntryRequest.Billable].
  destruct tags as [|t tags]; cbn [app]; rewrite ?loop_tagIds, loop_billable;
    cbn [json.finish];
    destruct (String.eqb_spec tid "") as [->|_], (String.eqb_spec description "") as [->|_],
      billable; reflexivity.
Qed.

(** X8: decodeAccount reads the id, the name and the email of an
    account.  For a JSON object with these three members, their values
    well-formed UTF-8 written as JSON strings, it returns no error and an
    account with these three fields, the others zero; and whatever bytes
    follow the object, well-formed or not, make no difference. *)
Theorem decodeAccount_reads_id_name_email (id_ name_ email_ rest : string) :
  ValidString id_ = true -> ValidString name_ = true -> ValidString email_ = true ->
  decodeAccount
    (("{" +:+ Join "," [Fixture.member "id" (Fixture.quote id_);
                         Fixture.member "name" (Fixture.quote name_);
                         Fixture.member "email" (Fixture.quote email_)] +:+ "}") +:+ rest)
    Account.zero
  = (Account.mk _ id_ name_ email_ [] [] [] [] [] [] AccountSettings.zero, None).
Proof.
  intros Hid Hname Hemail.
  pose (items := [("id", Fixture.quote id_, jstr id_); ("name", Fixture.quote name_, jstr name_);
                  ("email", Fixture.quote email_, jstr email_)]).
  assert (Forall item_ok items) as Hitems.
  { repeat constructor; try done; by apply rendered_quote. }
  destruct (scan_object items rest Hitems) as (fuel & Hfuel).
  change (item_text <$> items)
    with [Fixture.member "id" (Fixture.quote id_); Fixture.member "name" (Fixture.quote name_);
          Fixture.member "email" (Fixture.quote email_)] in Hfuel.
  unfold decodeAccount, json.Decode.
  set (data := (_ +:+ rest)) in *.
  assert (json.skip_space data = data) as Hdata by (unfold data; by push_all).
  rewrite (first_value_Scanned data fuel _ rest) by (by rewrite Hdata).
  rewrite Hdata. unfold data at 1. push_all. reflexivity.
Qed.

End Echo.

(** ** The operations *)

Section Operations.

Context `{RT : Runtime}.

Lemma bind_eq {A B} (m : M A) (f : A -> M B) (w : World) :
  (m ≫= f) w = match m w with
                | Returns a w' => f a w'
                | Panics w' => Panics w'
                | Unmodelled => Unmodelled
                end.
Proof. reflexivity. Qed.

Lemma ret_eq {A} (a : A) (w : World) : (mret a : M A) w = Returns a w.
Proof. reflexivity. Qed.

Lemma dlog_Printf_returns format a w :
  exists w', dlog_Printf format a w = Returns tt w' /\ same_but_stderr w w'.
Proof.
  unfold dlog_Printf. destruct (log.out (dlog w)); eexists; split; try reflexivity; done.
Qed.

Ltac log_step :=
  match goal with
  | |- context [dlog_Printf ?f ?a ?w0] =>
      let w' := fresh "w" in
      let He := fresh "He" in
      let Hd := fresh "Hd" in
      let Hs := fresh "Hs" in
      destruct (dlog_Printf_returns f a w0) as (w' & -> & He & Hd & Hs)
  end.

(** *** request *)

Lemma request_spec session method requestURL body w :
  match request session method requestURL body w with
  | Returns a w' =>
      exists req, http.NewRequest method requestURL body = Some req
                  /\ a = read_response (client_Do (with_headers session req) (env w)).1
                  /\ env w' = (client_Do (with_headers session req) (env w)).2
                  /\ sent w' = (sent w ++ [with_headers session req])%list
                  /\ dlog w' = dlog w /\ stderr w' = stderr w
  | Panics w' => w' = w /\ http.NewRequest method requestURL body = None
  | Unmodelled => False
  end.
Proof.
  unfold request. destruct (http.NewRequest method requestURL body) as [req|]; [|done].
  rewrite bind_eq. unfold Do, with_headers. cbv zeta.
  match goal with |- context [client_Do ?r (env w)] =>
    destruct (client_Do r (env w)) as [resp e] eqn:Hdo end.
  cbv beta iota. unfold read_response.
  destruct resp as [resp|err]; [|exists req; rewrite Hdo; repeat split; reflexivity].
  destruct (http.ReadAll resp) as [content [err|]] eqn:Hread;
    [exists req; rewrite Hdo; simpl; rewrite Hread; repeat split; reflexivity|].
  destruct (_ || _) eqn:Hst; exists req; rewrite Hdo; simpl; rewrite Hread, Hst;
    repeat split; reflexivity.
Qed.

Lemma request_panics session method requestURL body w :
  http.NewRequest method requestURL body = None ->
  request session method requestURL body w = Panics w.
Proof. unfold request. by intros ->. Qed.

(** C4: every request [request] hands to the HTTP client carries the
    header Content-Type: application/json, and it carries an X-Api-Key
    header, holding the session token, exactly when the token is not
    empty.  (When no request can be built, none is sent.) *)
Theorem request_sets_headers (session : Session) (method requestURL : string)
    (body : option string) (w : World) :
  match request session method requestURL body w with
  | Returns _ w' =>
      exists req, sent w' = (sent w ++ [req])%list
        /\ http.Header req !! "Content-Type" = Some ["application/json"]
        /\ http.Header req !! "X-Api-Key"
           = if String.eqb (APIToken session) "" then None else Some [APIToken session]
  | Panics w' => sent w' = sent w
  | Unmodelled => False
  end.
Proof.
  pose proof (request_spec session method requestURL body w) as Hspec.
  destruct (request session method requestURL body w) as [a w'|w'|]; [| |done].
  - destruct Hspec as (req & Hnew & _ & _ & Hsent & _).
    exists (with_headers session req). split; [done|].
    apply with_headers_lookup. by eapply NewRequest_Header.
  - by destruct Hspec as [-> _].
Qed.

(** *** requestTimeEntry and post *)

Lemma requestTimeEntry_error data err w :
  requestTimeEntry (data, Some err) w = Returns (TimeEntry.zero, Some err) w.
Proof. reflexivity. Qed.

Lemma requestTimeEntry_returns res w :
  exists a w', requestTimeEntry res w = Returns a w' /\ same_but_stderr w w'.
Proof.
  unfold requestTimeEntry. destruct res as [data [err|]].
  - eexists _, _. split; [reflexivity|done].
  - destruct (json.Unmarshal _ _ _) as [entry err]. rewrite bind_eq. log_step.
    destruct err; eexists _, _; (split; [reflexivity|done]).
Qed.

(** Whatever [json.Unmarshal] reports, requestTimeEntry returns it, with
    the zero entry; a body that is not one JSON value is a syntax error. *)
Lemma requestTimeEntry_decode_error data err w :
  (json.Unmarshal TimeEntry.decoder data TimeEntry.zero).2 = Some err ->
  result_of (requestTimeEntry (data, None) w) = Returned (TimeEntry.zero, Some err).
Proof.
  unfold requestTimeEntry. destruct (json.Unmarshal _ _ _) as [entry err']. simpl.
  intros ->. rewrite bind_eq. log_step. reflexivity.
Qed.

Lemma requestTimeEntry_invalid_JSON data w :
  json.whole_value data = None ->
  result_of (requestTimeEntry (data, None) w) = Returned (TimeEntry.zero, Some SyntaxError).
Proof.
  intros Hbad. apply requestTimeEntry_decode_error. unfold json.Unmarshal. by rewrite Hbad.
Qed.

Lemma post_spec session requestURL path r w :
  match post session requestURL path (Some r) w with
  | Returns a w' =>
      exists header,
        let req := http.mkRequest "POST" (requestURL +:+ path) header
                     (Some (json_Marshal r).1) in
        sent w' = (sent w ++ [req])%list
        /\ a = read_response (client_Do req (env w)).1
        /\ env w' = (client_Do req (env w)).2
        /\ dlog w' = dlog w
  | Panics w' => sent w' = sent w /\ url.Parse_ok (requestURL +:+ path) = false
  | Unmodelled => False
  end.
Proof.
  unfold post, marshal. pose proof (json_Marshal_ok r) as Hm.
  destruct (json_Marshal r) as [body err]. simpl in Hm. subst err. simpl fst.
  rewrite bind_eq. log_step. rewrite bind_eq. log_step.
  pose proof (request_spec session "POST" (requestURL +:+ path) (Some body) w1) as Hspec.
  destruct (request session "POST" (requestURL +:+ path) (Some body) w1) as [a w'|w'|]; [| |done].
  - destruct Hspec as (req & Hnew & Ha & He' & Hs' & Hd' & _).
    exists (http.Header (with_headers session req)). cbv zeta.
    rewrite <- (request_built session "POST" _ _ req ltac:(discriminate) Hnew).
    rewrite Hs', Ha, He', Hd'. rewrite Hs0, Hs, He0, He, Hd0, Hd. done.
  - destruct Hspec as [-> Hnew]. split; [congruence|].
    exact (NewRequest_None_inv "POST" _ _ eq_refl Hnew).
Qed.

(** *** ContinueTimeEntry *)

Lemma ContinueTimeEntry_eq session timer duronly w :
  exists w1,
    env w1 = (time_Now (env w)).2 /\ dlog w1 = dlog w /\ sent w1 = sent w
    /\ ContinueTimeEntry session timer duronly w
       = (res ← post session ClockifyAPI
                   ("/workspaces/" +:+ TimeEntry.Wid timer +:+ "/time-entries")
                   (Some (TimeEntryRequest.mk
                            (time.Format (time.UTC (time_Now (env w)).1) time.RFC3339)
                            (TimeEntry.Pid timer) (TimeEntry.Tid timer)
                            (TimeEntry.Description timer) ""
                            (TimeEntry.Tags timer) (TimeEntry.Billable timer)));
          requestTimeEntry res) w1.
Proof.
  unfold ContinueTimeEntry. rewrite bind_eq. log_step.
  rewrite bind_eq. unfold Now_UTC_RFC3339. rewrite bind_eq. unfold with_env.
  rewrite He. destruct (time_Now (env w)) as [now e1]. cbv beta iota.
  rewrite ret_eq. rewrite bind_eq. unfold Sprintf at 1.
  rewrite Sprintf_workspace_path.
  exists (mkWorld e1 (dlog w0) (stderr w0) (sent w0)). repeat split; done.
Qed.

(** C3: for every source entry, ContinueTimeEntry builds a request whose
    project id, task id, description, tag ids and billable flag are those
    of the entry and whose start is the current time, in UTC, in the
    RFC 3339 layout, and hands it to the POST helper with the path
    /workspaces/{wid}/time-entries, wid being the entry's workspace id.
    The HTTP client then gets exactly one request: a POST to that URL
    whose body is this payload marshalled.  (Should [url.Parse] reject the
    URL, [request] panics and nothing is sent.) *)
Theorem ContinueTimeEntry_request (session : Session) (timer : TimeEntry.t) (duronly : bool)
    (w : World) :
  let timeEntryRequest :=
    TimeEntryRequest.mk
      (time.Format (time.UTC (time_Now (env w)).1) time.RFC3339)
      (TimeEntry.Pid timer) (TimeEntry.Tid timer) (TimeEntry.Description timer) ""
      (TimeEntry.Tags timer) (TimeEntry.Billable timer) in
  let path := "/workspaces/" +:+ TimeEntry.Wid timer +:+ "/time-entries" in
  (exists w1,
      env w1 = (time_Now (env w)).2 /\ dlog w1 = dlog w /\ sent w1 = sent w
      /\ ContinueTimeEntry session timer duronly w
         = (res ← post session ClockifyAPI path (Some timeEntryRequest); requestTimeEntry res) w1)
  /\ match ContinueTimeEntry session timer duronly w with
     | Returns _ w' =>
         exists header,
           sent w' = (sent w ++ [http.mkRequest "POST" (ClockifyAPI +:+ path) header
                                   (Some (json_Marshal timeEntryRequest).1)])%list
     | Panics w' => sent w' = sent w /\ url.Parse_ok (ClockifyAPI +:+ path) = false
     | Unmodelled => False
     end.
Proof.
  cbv zeta. split; [apply ContinueTimeEntry_eq|].
  destruct (ContinueTimeEntry_eq session timer duronly w) as (w1 & He1 & Hd1 & Hs1 & ->).
  rewrite bind_eq.
  match goal with |- context [post session ClockifyAPI ?p (Some ?r) w1] =>
    pose proof (post_spec session ClockifyAPI p r w1) as Hpost;
    destruct (post session ClockifyAPI p (Some r) w1) as [a w'|w'|]; [| |done] end.
  - destruct Hpost as (header & Hs & _).
    destruct (requestTimeEntry_returns a w') as (a' & w'' & -> & _ & _ & Hs'').
    exists header. by rewrite Hs'', Hs, Hs1.
  - destruct Hpost as [Hs Hp]. split; [|done]. by rewrite Hs.
Qed.

(** *** StopTimeEntry *)

Lemma StopTimeEntry_panics session workspaceID userID w :
  exists w', StopTimeEntry session workspaceID userID w = Panics w' /\ sent w' = sent w.
Proof.
  unfold StopTimeEntry. rewrite bind_eq. log_step.
  rewrite bind_eq. unfold Sprintf at 1. rewrite Sprintf_StopTimeEntry.
  rewrite bind_eq. unfold Now_UTC_RFC3339. rewrite bind_eq. unfold with_env.
  destruct (time_Now (env w0)) as [now e2]. cbv beta iota. rewrite ret_eq.
  rewrite bind_eq. unfold patch, marshal.
  match goal with |- context [json_Marshal ?r] =>
    pose proof (json_Marshal_ok r) as Hm; destruct (json_Marshal r) as [body err] end.
  simpl in Hm. subst err.
  rewrite bind_eq. log_step.
  rewrite request_panics.
  - eexists; split; [reflexivity|]. rewrite Hs0. simpl. done.
  - apply NewRequest_None. apply Parse_ok_StopTimeEntry.
Qed.

(** C1 (the code differs): [fmt.Sprintf] is given two operands and a
    format without verbs, so the path is the template followed by
    [%!(EXTRA string=<workspaceID>, string=<userID>)]: it is not the
    template, and both arguments are in it.  [url.Parse] rejects the
    [%!(] of the resulting URL, [http.NewRequest] returns nil, and
    [request] dereferences it: on every input the call panics and no
    PATCH is issued. *)
Theorem StopTimeEntry_path_extra_operands (session : Session) (workspaceID userID : string)
    (w : World) :
  let template := "/workspaces/{workspaceId}/user/{userId}/time-entries" in
  let path := template +:+ "%!(EXTRA string=" +:+ workspaceID
              +:+ ", string=" +:+ userID +:+ ")" in
  fmt.Sprintf template [workspaceID; userID] = Some path
  /\ path <> template
  /\ exists w', StopTimeEntry session workspaceID userID w = Panics w' /\ sent w' = sent w.
Proof.
  cbv zeta. split; [apply Sprintf_StopTimeEntry|]. split; [|apply StopTimeEntry_panics].
  apply string_app_ne_self. rewrite string_app_cons. done.
Qed.

(** *** GetProjects on a workspace id that is no valid path *)

(** C7 (the code differs): [request] drops the error of [http.NewRequest]
    and dereferences the nil request.  With the workspace id [%zz] the URL
    has an invalid escape, and GetProjects panics instead of returning an
    error. *)
Theorem GetProjects_bad_escape_panics (token : string) (w : World) :
  result_of (GetProjects (OpenSession token) "%zz" w) = Panicked.
Proof.
  unfold GetProjects. rewrite bind_eq. log_step.
  rewrite bind_eq. unfold Sprintf at 1.
  change (fmt.Sprintf "/workspaces/%s/projects" ["%zz"]) with (Some "/workspaces/%zz/projects").
  cbv beta iota. rewrite bind_eq. unfold get. rewrite bind_eq.
  rewrite ret_eq. rewrite bind_eq. log_step.
  rewrite request_panics; [done|]. apply NewRequest_None. vm_compute. reflexivity.
Qed.

(** *** get *)

Lemma get_Some_eq session requestURL path (m : gmap string string) w :
  exists w',
    dlog w' = dlog w /\ stderr w' = stderr w /\ sent w' = sent w
    /\ get session requestURL path (Some m) w
       = (_ ← dlog_Printf "GETing from URL: %s"
                [OString ((requestURL +:+ path) +:+ "?"
                          +:+ Join "&" (query_pair <$> sorted_entries m))];
          request session "GET"
            ((requestURL +:+ path) +:+ "?"
             +:+ Join "&" (query_pair <$> sorted_entries m)) None) w'.
Proof.
  unfold get. rewrite bind_eq. rewrite bind_eq. unfold with_env at 1.
  pose proof (map_range_perm _ m (env w)) as Hperm.
  destruct (map_range m (env w)) as [entries e1]. simpl in Hperm. cbv beta iota.
  rewrite (foldl_Set_map m entries Hperm).
  rewrite bind_eq. unfold Values_Encode.
  destruct (decide ((fun v => [v]) <$> m = ∅)) as [Hempty|Hne].
  - apply fmap_empty_inv in Hempty. subst m.
    rewrite ret_eq, ret_eq.
    change (Join "&" (query_pair <$> sorted_entries ∅)) with "".
    exists (mkWorld e1 (dlog w) (stderr w) (sent w)). repeat split; reflexivity.
  - rewrite bind_eq. unfold with_env.
    pose proof (map_range_perm _ ((fun v : string => [v]) <$> m) e1) as Hperm'.
    simpl env.
    destruct (map_range ((fun v : string => [v]) <$> m) e1) as [entries' e2].
    simpl in Hperm'. cbv beta iota. rewrite ret_eq, ret_eq.
    rewrite Encode_pairs_sorted.
    + rewrite write_pairs_Join.
      * exists (mkWorld e2 (dlog w) (stderr w) (sent w)). repeat split; reflexivity.
      * apply Forall_fmap, Forall_forall. intros kv _. apply query_pair_nonempty.
    + rewrite Hperm', map_to_list_fmap, <- list_fmap_compose.
      apply Permutation_refl'.
      generalize (map_to_list m). intros l.
      induction l as [|[k v] l IH]; [done|]. cbn. by f_equal.
Qed.

(** C5: with a parameter map, the URL that [get] logs and requests is the
    base URL and path, a [?], and one [key=value] per entry of the map,
    key and value query-escaped, joined by [&]; every key of the map is in
    exactly one of them.  With a nil map the URL is the base URL and path
    and no [?] is appended. *)
Theorem get_query_has_every_key (session : Session) (requestURL path : string)
    (params : gmap string string) (w : World) :
  (exists (l : list (string * string)) (w' : World),
      l ≡ₚ map_to_list params /\ NoDup l.*1
      /\ get session requestURL path (Some params) w
         = (_ ← dlog_Printf "GETing from URL: %s"
                  [OString ((requestURL +:+ path) +:+ "?" +:+ Join "&" (query_pair <$> l))];
            request session "GET"
              ((requestURL +:+ path) +:+ "?" +:+ Join "&" (query_pair <$> l)) None) w')
  /\ get session requestURL path None w
     = (_ ← dlog_Printf "GETing from URL: %s" [OString (requestURL +:+ path)];
        request session "GET" (requestURL +:+ path) None) w.
Proof.
  split; [|reflexivity].
  destruct (get_Some_eq session requestURL path params w) as (w' & _ & _ & _ & Heq).
  exists (sorted_entries params), w'. split; [apply sorted_entries_perm|]. split; [|done].
  rewrite sorted_entries_perm. apply NoDup_fst_map_to_list.
Qed.

(** *** The log toggle *)

Lemma log_blind_ret {A} (a : A) : log_blind (mret a).
Proof. intros w1 w2 He. by split. Qed.

Lemma log_blind_bind {A B} (m : M A) (f : A -> M B) :
  log_blind m -> (forall a, log_blind (f a)) -> log_blind (m ≫= f).
Proof.
  intros Hm Hf w1 w2 He. rewrite !bind_eq. specialize (Hm w1 w2 He).
  destruct (m w1) as [a1 w1'| |], (m w2) as [a2 w2'| |]; try done.
  destruct Hm as [<- He']. by apply Hf.
Qed.

Lemma log_blind_panic {A} : log_blind (panic : M A).
Proof. intros w1 w2 He. done. Qed.

Lemma log_blind_with_env {A} (f : Env -> A * Env) : log_blind (with_env f).
Proof. intros w1 w2 He. unfold with_env. rewrite He. by destruct (f (env w2)). Qed.

Lemma log_blind_Do req : log_blind (Do req).
Proof. intros w1 w2 He. unfold Do. rewrite He. by destruct (client_Do req (env w2)). Qed.

Lemma log_blind_Sprintf format a : log_blind (Sprintf format a).
Proof. intros w1 w2 He. unfold Sprintf. by destruct (fmt.Sprintf format a). Qed.

(** Whether the line is written or discarded, the environment is the
    same. *)
Lemma log_blind_dlog_Printf format a : log_blind (dlog_Printf format a).
Proof.
  intros w1 w2 He. unfold dlog_Printf.
  by destruct (log.out (dlog w1)), (log.out (dlog w2)).
Qed.

Create HintDb blind discriminated.
Hint Resolve log_blind_ret log_blind_panic log_blind_with_env log_blind_Do
  log_blind_Sprintf log_blind_dlog_Printf : blind.

Ltac blind :=
  repeat first
    [ apply log_blind_bind; [|intros ?]
    | progress auto with blind
    | match goal with
      | |- log_blind (match ?x with _ => _ end) => destruct x
      | |- log_blind (if ?x then _ else _) => destruct x
      | |- log_blind (let '(_, _) := ?x in _) => destruct x
      end ].

Lemma log_blind_request session method requestURL body :
  log_blind (request session method requestURL body).
Proof. unfold request. blind. Qed.

Lemma log_blind_Values_Encode v : log_blind (Values_Encode v).
Proof. unfold Values_Encode. blind. Qed.

Hint Resolve log_blind_request log_blind_Values_Encode : blind.

Lemma log_blind_get session requestURL path params :
  log_blind (get session requestURL path params).
Proof. unfold get. blind. Qed.

Lemma log_blind_post session requestURL path data :
  log_blind (post session requestURL path data).
Proof. unfold post. blind. Qed.

Lemma log_blind_put session requestURL path data :
  log_blind (put session requestURL path data).
Proof. unfold put. blind. Qed.

Lemma log_blind_patch session requestURL path data :
  log_blind (patch session requestURL path data).
Proof. unfold patch. blind. Qed.

Lemma log_blind_delete session requestURL path :
  log_blind (delete session requestURL path).
Proof. unfold delete. blind. Qed.

Lemma log_blind_requestTimeEntry res : log_blind (requestTimeEntry res).
Proof. unfold requestTimeEntry. blind. Qed.

Lemma log_blind_Now : log_blind Now_UTC_RFC3339.
Proof. unfold Now_UTC_RFC3339. blind. Qed.

Hint Resolve log_blind_get log_blind_post log_blind_patch log_blind_delete
  log_blind_requestTimeEntry log_blind_Now : blind.

Lemma log_blind_independent {A} (m : M A) : log_blind m -> log_independent m.
Proof.
  intros Hm. split.
  - intros e l1 l2 err1 err2 t1 t2.
    specialize (Hm (mkWorld e l1 err1 t1) (mkWorld e l2 err2 t2) eq_refl).
    destruct (m _), (m _); try done. by destruct Hm as [-> _].
  - intros w. rewrite !bind_eq. unfold DisableLog, EnableLog.
    match goal with |- result_of (m ?wa) = result_of (m ?wb) =>
      specialize (Hm wa wb eq_refl); destruct (m wa), (m wb); try done end.
    by destruct Hm as [-> _].
Qed.

(** C8: for every operation, two runs that differ only in the state of
    the logger (after DisableLog or after EnableLog, or in any two logger
    states) give their caller the same result and error, or both panic:
    the toggle decides what is written to standard error and nothing of
    what is returned. *)
Theorem operations_log_independent (session : Session) :
  log_independent (GetAccount session)
  /\ (forall workspaceID timeEntryRequest,
        log_independent (StartTimeEntry session workspaceID timeEntryRequest))
  /\ (forall workspaceID timeEntryID,
        log_independent (GetTimeEntry session workspaceID timeEntryID))
  /\ (forall workspaceID timeEntryID,
        log_independent (DeleteTimeEntry session workspaceID timeEntryID))
  /\ (forall timer duronly, log_independent (ContinueTimeEntry session timer duronly))
  /\ (forall workspaceID userID, log_independent (StopTimeEntry session workspaceID userID))
  /\ (forall workspaceID, log_independent (GetProjects session workspaceID)).
Proof.
  repeat match goal with |- _ /\ _ => split end; intros; apply log_blind_independent.
  - unfold GetAccount. blind.
  - unfold StartTimeEntry. blind.
  - unfold GetTimeEntry. blind.
  - unfold DeleteTimeEntry. blind.
  - unfold ContinueTimeEntry. blind.
  - unfold StopTimeEntry. blind.
  - unfold GetProjects. blind.
Qed.

(** *** One request per call *)

Lemma sends_nothing_ret {A} (a : A) : sends_nothing (mret a).
Proof. intros w. by eexists _, _. Qed.

Lemma sends_nothing_dlog_Printf format a : sends_nothing (dlog_Printf format a).
Proof.
  intros w. destruct (dlog_Printf_returns format a w) as (w' & -> & _ & _ & Hs).
  by eexists _, _.
Qed.

Lemma sends_nothing_Now : sends_nothing Now_UTC_RFC3339.
Proof.
  intros w. unfold Now_UTC_RFC3339. rewrite bind_eq. unfold with_env.
  destruct (time_Now (env w)) as [now e]. by eexists _, _.
Qed.

Lemma sends_nothing_Sprintf format a s :
  fmt.Sprintf format a = Some s -> sends_nothing (Sprintf format a).
Proof. intros Hs w. unfold Sprintf. rewrite Hs. by eexists _, _. Qed.

Lemma sends_nothing_requestTimeEntry res : sends_nothing (requestTimeEntry res).
Proof.
  intros w. destruct (requestTimeEntry_returns res w) as (a & w' & -> & _ & _ & Hs).
  by eexists _, _.
Qed.

Lemma sends_one_bind_l {A B} method (m : M A) (f : A -> M B) :
  sends_nothing m -> (forall a, sends_one method (f a)) -> sends_one method (m ≫= f).
Proof.
  intros Hm Hf w. rewrite bind_eq. destruct (Hm w) as (a & w' & -> & Hs).
  specialize (Hf a w'). destruct (f a w') as [b w''|w''|]; [| |done]; by rewrite <- Hs.
Qed.

Lemma sends_one_bind_r {A B} method (m : M A) (f : A -> M B) :
  sends_one method m -> (forall a, sends_nothing (f a)) -> sends_one method (m ≫= f).
Proof.
  intros Hm Hf w. rewrite bind_eq. specialize (Hm w).
  destruct (m w) as [a w'|w'|]; [| |done]; [|done].
  destruct (Hf a w') as (b & w'' & -> & Hs). by rewrite Hs.
Qed.

Lemma sends_one_request session method requestURL body :
  method <> "" -> sends_one method (request session method requestURL body).
Proof.
  intros Hm w. pose proof (request_spec session method requestURL body w) as Hspec.
  destruct (request session method requestURL body w) as [a w'|w'|]; [| |done].
  - destruct Hspec as (req & Hnew & _ & _ & Hsent & _).
    exists (with_headers session req). split; [done|].
    destruct (with_headers_fields session req) as (-> & _).
    by destruct (NewRequest_fields _ _ _ _ Hm Hnew) as (-> & _).
  - by destruct Hspec as [-> _].
Qed.

Lemma sends_one_get session requestURL path :
  sends_one "GET" (get session requestURL path None).
Proof.
  unfold get. apply sends_one_bind_l; [apply sends_nothing_ret|]. intros u.
  apply sends_one_bind_l; [apply sends_nothing_dlog_Printf|]. intros _.
  by apply sends_one_request.
Qed.

Lemma sends_one_post session requestURL path r :
  sends_one "POST" (post session requestURL path (Some r)).
Proof.
  unfold post, marshal. pose proof (json_Marshal_ok r) as Hm.
  destruct (json_Marshal r) as [body err]. simpl in Hm. subst err.
  apply sends_one_bind_l; [apply sends_nothing_dlog_Printf|]. intros _.
  apply sends_one_bind_l; [apply sends_nothing_dlog_Printf|]. intros _.
  by apply sends_one_request.
Qed.

Lemma sends_one_patch session requestURL path r :
  sends_one "PATCH" (patch session requestURL path (Some r)).
Proof.
  unfold patch, marshal. pose proof (json_Marshal_ok r) as Hm.
  destruct (json_Marshal r) as [body err]. simpl in Hm. subst err.
  apply sends_one_bind_l; [apply sends_nothing_dlog_Printf|]. intros _.
  by apply sends_one_request.
Qed.

Lemma sends_one_delete session requestURL path :
  sends_one "DELETE" (delete session requestURL path).
Proof.
  unfold delete.
  apply sends_one_bind_l; [apply sends_nothing_dlog_Printf|]. intros _.
  by apply sends_one_request.
Qed.

Ltac one_step :=
  first
    [ apply sends_one_bind_l;
      [ first [ apply sends_nothing_dlog_Printf | apply sends_nothing_Now
              | eapply sends_nothing_Sprintf; reflexivity ] | intros ? ]
    | apply sends_one_bind_r;
      [ first [ apply sends_one_get | apply sends_one_post | apply sends_one_patch
              | apply sends_one_delete ] | intros ? ] ].

(** X9: every operation hands at most one request to the HTTP client: a
    call that returns has handed over exactly one, of the method of the
    operation, and a call that panics has handed over none.  Nothing is
    retried, and no operation returns without having asked the server. *)
Theorem operations_send_one_request (session : Session) :
  sends_one "GET" (GetAccount session)
  /\ (forall workspaceID timeEntryRequest,
        sends_one "POST" (StartTimeEntry session workspaceID timeEntryRequest))
  /\ (forall workspaceID timeEntryID,
        sends_one "GET" (GetTimeEntry session workspaceID timeEntryID))
  /\ (forall workspaceID timeEntryID,
        sends_one "DELETE" (DeleteTimeEntry session workspaceID timeEntryID))
  /\ (forall timer duronly, sends_one "POST" (ContinueTimeEntry session timer duronly))
  /\ (forall workspaceID userID, sends_one "PATCH" (StopTimeEntry session workspaceID userID))
  /\ (forall workspaceID, sends_one "GET" (GetProjects session workspaceID)).
Proof.
  repeat match goal with |- _ /\ _ => split end; intros.
  - unfold GetAccount. one_step.
    destruct (_.2); apply sends_nothing_ret.
  - unfold StartTimeEntry. do 2 one_step. apply sends_nothing_requestTimeEntry.
  - unfold GetTimeEntry. do 2 one_step.
    destruct (_.2); [apply sends_nothing_ret | apply sends_nothing_requestTimeEntry].
  - unfold DeleteTimeEntry. do 2 one_step. apply sends_one_delete.
  - unfold ContinueTimeEntry. do 4 one_step. apply sends_nothing_requestTimeEntry.
  - unfold StopTimeEntry. do 4 one_step. apply sends_nothing_requestTimeEntry.
  - unfold GetProjects. do 3 one_step.
    destruct (_.2); [apply sends_nothing_ret|].
    destruct (json.Unmarshal _ _ _) as [projects err].
    intros w. rewrite bind_eq. log_step. by eexists _, _.
Qed.


(** *** The log switch *)

Lemma quiet_ret {A} (a : A) : quiet (mret a).
Proof. intros w _. done. Qed.

Lemma quiet_bind {A B} (m : M A) (f : A -> M B) :
  quiet m -> (forall a, quiet (f a)) -> quiet (m ≫= f).
Proof.
  intros Hm Hf w Hw. rewrite bind_eq. specialize (Hm w Hw).
  destruct (m w) as [a w'|w'|]; [| |done]; [|done].
  destruct Hm as [Hs Hd].
  assert (log.out (dlog w') = log.Discard) as Hw' by (by rewrite Hd).
  specialize (Hf a w' Hw').
  destruct (f a w') as [b w''|w''|]; [| |done]; destruct Hf as [Hs' Hd']; split; congruence.
Qed.

Lemma quiet_panic {A} : quiet (panic : M A).
Proof. intros w _. done. Qed.

Lemma quiet_with_env {A} (f : Env -> A * Env) : quiet (with_env f).
Proof. intros w _. unfold with_env. by destruct (f (env w)). Qed.

Lemma quiet_Do req : quiet (Do req).
Proof. intros w _. unfold Do. by destruct (client_Do req (env w)). Qed.

Lemma quiet_Sprintf format a s : fmt.Sprintf format a = Some s -> quiet (Sprintf format a).
Proof. intros Hs w _. unfold Sprintf. by rewrite Hs. Qed.

Lemma quiet_dlog_Printf format a : quiet (dlog_Printf format a).
Proof. intros w Hw. unfold dlog_Printf. by rewrite Hw. Qed.

Create HintDb quiet discriminated.
Hint Resolve quiet_ret quiet_panic quiet_with_env quiet_Do quiet_dlog_Printf : quiet.

Ltac quiet :=
  repeat first
    [ progress auto with quiet
    | eapply quiet_Sprintf; reflexivity
    | apply quiet_bind; [|intros ?]
    | match goal with
      | |- quiet (match ?x with _ => _ end) => destruct x
      | |- quiet (if ?x then _ else _) => destruct x
      | |- quiet (let '(_, _) := ?x in _) => destruct x
      end ].

Lemma quiet_request session method requestURL body :
  quiet (request session method requestURL body).
Proof. unfold request. quiet. Qed.

Hint Resolve quiet_request : quiet.

Lemma quiet_get session requestURL path : quiet (get session requestURL path None).
Proof. unfold get. quiet. Qed.

Lemma quiet_post session requestURL path data : quiet (post session requestURL path data).
Proof. unfold post. quiet. Qed.

Lemma quiet_patch session requestURL path data : quiet (patch session requestURL path data).
Proof. unfold patch. quiet. Qed.

Lemma quiet_delete session requestURL path : quiet (delete session requestURL path).
Proof. unfold delete. quiet. Qed.

Lemma quiet_requestTimeEntry res : quiet (requestTimeEntry res).
Proof. unfold requestTimeEntry. quiet. Qed.

Lemma quiet_Now : quiet Now_UTC_RFC3339.
Proof. unfold Now_UTC_RFC3339. quiet. Qed.

Hint Resolve quiet_get quiet_post quiet_patch quiet_delete quiet_requestTimeEntry
  quiet_Now : quiet.

Lemma quiet_after_DisableLog {A} (m : M A) (w : World) :
  quiet m -> writes_nothing w ((_ ← DisableLog; m) w).
Proof.
  intros Hm. rewrite bind_eq. unfold DisableLog.
  match goal with |- writes_nothing _ (m ?w1) => specialize (Hm w1 eq_refl); destruct (m w1) end;
    [| |done]; destruct Hm as [Hs _]; exact Hs.
Qed.

(** X10: once DisableLog has run, no operation writes a line to standard
    error, whatever it does and whether it returns or panics. *)
Theorem operations_quiet_after_DisableLog (session : Session) (w : World) :
  writes_nothing w ((_ ← DisableLog; GetAccount session) w)
  /\ (forall workspaceID timeEntryRequest,
        writes_nothing w
          ((_ ← DisableLog; StartTimeEntry session workspaceID timeEntryRequest) w))
  /\ (forall workspaceID timeEntryID,
        writes_nothing w ((_ ← DisableLog; GetTimeEntry session workspaceID timeEntryID) w))
  /\ (forall workspaceID timeEntryID,
        writes_nothing w ((_ ← DisableLog; DeleteTimeEntry session workspaceID timeEntryID) w))
  /\ (forall timer duronly,
        writes_nothing w ((_ ← DisableLog; ContinueTimeEntry session timer duronly) w))
  /\ (forall workspaceID userID,
        writes_nothing w ((_ ← DisableLog; StopTimeEntry session workspaceID userID) w))
  /\ (forall workspaceID,
        writes_nothing w ((_ ← DisableLog; GetProjects session workspaceID) w)).
Proof.
  repeat match goal with |- _ /\ _ => split end; intros; apply quiet_after_DisableLog.
  - unfold GetAccount. quiet.
  - unfold StartTimeEntry. quiet.
  - unfold GetTimeEntry. quiet.
  - unfold DeleteTimeEntry. quiet.
  - unfold ContinueTimeEntry. quiet.
  - unfold StopTimeEntry. quiet.
  - unfold GetProjects. quiet.
Qed.

(** X11: EnableLog does not undo DisableLog.  DisableLog sets the flags of
    the logger to 0; EnableLog reads the flags and sets them to what it
    read, so after the two calls the logger writes to standard error again
    but with flags 0: a line logged then has lost the date and time that
    the flags of the initial logger ([log.LstdFlags]) ask for.  The prefix
    is kept. *)
Theorem EnableLog_keeps_the_flags_of_DisableLog (w : World) (format : string)
    (a : list operand) :
  (exists w', (_ ← DisableLog; _ ← EnableLog; dlog_Printf format a) w = Returns tt w'
      /\ dlog w' = log.mkLogger log.Stderr (log.prefix (dlog w)) 0
      /\ stderr w' = (stderr w ++ [mkLine _ (log.prefix (dlog w)) 0 format a])%list)
  /\ (exists w', EnableLog w = Returns tt w'
        /\ log.flags (dlog w') = log.flags (dlog w) /\ log.out (dlog w') = log.Stderr)
  /\ log.flags dlog_init = log.LstdFlags /\ log.LstdFlags <> 0.
Proof.
  split; [|split; [|split]].
  - eexists. split; [reflexivity|]. split; reflexivity.
  - eexists. split; [reflexivity|]. split; reflexivity.
  - reflexivity.
  - discriminate.
Qed.

(** *** Errors and the zero entry *)

Lemma ensures_bind {A B} (P : B -> Prop) (m : M A) (f : A -> M B) :
  (forall a, ensures P (f a)) -> ensures P (m ≫= f).
Proof.
  intros Hf w. rewrite bind_eq. destruct (m w) as [a w'|w'|]; [|done..]. apply Hf.
Qed.

Lemma ensures_ret {A} (P : A -> Prop) (a : A) : P a -> ensures P (mret a).
Proof. intros Ha w. exact Ha. Qed.

Lemma ensures_requestTimeEntry res :
  ensures (fun r => r.2 <> None -> r.1 = TimeEntry.zero) (requestTimeEntry res).
Proof.
  unfold requestTimeEntry. destruct res as [data [err|]]; [by apply ensures_ret|].
  destruct (json.Unmarshal _ _ _) as [entry [err|]];
    apply ensures_bind; intros _; by apply ensures_ret.
Qed.

(** X12: the operations that return a time entry never return a partly
    decoded one next to an error: whenever the error is not nil, the entry
    is the zero entry. *)
Theorem time_entry_is_zero_on_error (session : Session) :
  let zero_on_error (r : TimeEntry.t * option error) := r.2 <> None -> r.1 = TimeEntry.zero in
  (forall workspaceID timeEntryRequest,
      ensures zero_on_error (StartTimeEntry session workspaceID timeEntryRequest))
  /\ (forall workspaceID timeEntryID,
        ensures zero_on_error (GetTimeEntry session workspaceID timeEntryID))
  /\ (forall timer duronly, ensures zero_on_error (ContinueTimeEntry session timer duronly))
  /\ (forall workspaceID userID,
        ensures zero_on_error (StopTimeEntry session workspaceID userID)).
Proof.
  cbv zeta. repeat match goal with |- _ /\ _ => split end; intros.
  - unfold StartTimeEntry. do 2 (apply ensures_bind; intros ?). apply ensures_requestTimeEntry.
  - unfold GetTimeEntry. do 2 (apply ensures_bind; intros ?).
    destruct (_.2); [by apply ensures_ret | apply ensures_requestTimeEntry].
  - unfold ContinueTimeEntry. do 4 (apply ensures_bind; intros ?).
    apply ensures_requestTimeEntry.
  - unfold StopTimeEntry. do 4 (apply ensures_bind; intros ?). apply ensures_requestTimeEntry.
Qed.


(** *** What each operation asks and returns *)

Lemma request_eq session method requestURL body w :
  http.validMethod method = true ->
  request session method requestURL body w
  = if url.Parse_ok requestURL
    then let req := request_of session method requestURL body in
         Returns (read_response (client_Do req (env w)).1)
           (mkWorld (client_Do req (env w)).2 (dlog w) (stderr w) (sent w ++ [req])%list)
    else Panics w.
Proof.
  intros Hv. unfold request, http.NewRequest.
  assert (String.eqb method "" = false) as -> by (by destruct method).
  rewrite Hv. cbn [andb]. destruct (url.Parse_ok requestURL); [|done].
  cbv zeta. rewrite bind_eq. unfold Do, request_of, with_headers.
  match goal with |- context [client_Do ?r (env w)] => destruct (client_Do r (env w)) as [resp e] end.
  cbn [fst snd]. unfold read_response.
  destruct resp as [resp|err]; [|done].
  destruct (http.ReadAll resp) as [content [err|]]; [done|].
  by destruct (_ || _).
Qed.

(** The world after the call, as far as the caller and the server can see:
    the answer [client_Do] gave to [req] in [w], and [req] added to the
    trace. *)
Lemma get_eq session requestURL path w :
  exists w1, same_but_stderr w w1
    /\ get session requestURL path None w
       = request session "GET" (requestURL +:+ path) None w1.
Proof.
  unfold get. rewrite bind_eq, ret_eq, bind_eq. log_step. by exists w0.
Qed.

Lemma delete_eq session requestURL path w :
  exists w1, same_but_stderr w w1
    /\ delete session requestURL path w
       = request session "DELETE" (requestURL +:+ path) None w1.
Proof.
  unfold delete. rewrite bind_eq. log_step. by exists w0.
Qed.

Lemma post_eq session requestURL path r w :
  exists w1, same_but_stderr w w1
    /\ post session requestURL path (Some r) w
       = request session "POST" (requestURL +:+ path) (Some (json_Marshal r).1) w1.
Proof.
  unfold post, marshal. pose proof (json_Marshal_ok r) as Hm.
  destruct (json_Marshal r) as [body err]. simpl in Hm. subst err. simpl fst.
  rewrite bind_eq. log_step. rewrite bind_eq. log_step.
  exists w1. split; [|done]. repeat split; congruence.
Qed.

Lemma Sprintf_time_entry_path (workspaceID timeEntryID : string) :
  fmt.Sprintf "/workspaces/%s/time-entries/%s" [workspaceID; timeEntryID]
  = Some ("/workspaces/" +:+ workspaceID +:+ "/time-entries/" +:+ timeEntryID).
Proof.
  transitivity (Some ("/workspaces/" +:+ workspaceID +:+ "/time-entries/" +:+ timeEntryID +:+ ""));
    [reflexivity|]. by rewrite string_app_nil_r.
Qed.

Lemma GetAccount_eq session w :
  exists w1, same_but_stderr w w1
    /\ GetAccount session w
       = (res ← request session "GET" (ClockifyAPI +:+ "/user") None;
          match res.2 with
          | Some err => mret (Account.zero, Some err)
          | None => mret (decodeAccount res.1 Account.zero)
          end) w1.
Proof.
  unfold GetAccount. rewrite bind_eq.
  destruct (get_eq session ClockifyAPI "/user" w) as (w1 & Hw1 & ->).
  exists w1. split; [done|]. by rewrite bind_eq.
Qed.

(** X13: GetAccount never panics.  It hands one request to the HTTP
    client: a GET of [https://api.clockify.me/api/v1/user] with the
    headers that [request] sets and no body.  When [request] reports an error (of the
    transport, of reading the body, or a status outside 200..399) the call
    returns the zero Account and that error; else it returns what
    decodeAccount makes of the body, error included. *)
Theorem GetAccount_request (session : Session) (w : World) :
  let req := request_of session "GET" (ClockifyAPI +:+ "/user") None in
  let answer := read_response (client_Do req (env w)).1 in
  exists w',
    GetAccount session w
    = Returns (match answer.2 with
               | Some err => (Account.zero, Some err)
               | None => decodeAccount answer.1 Account.zero
               end) w'
    /\ sent w' = (sent w ++ [req])%list
    /\ env w' = (client_Do req (env w)).2
    /\ dlog w' = dlog w.
Proof.
  cbv zeta. destruct (GetAccount_eq session w) as (w1 & (He & Hd & Hs) & ->).
  rewrite bind_eq, request_eq by reflexivity.
  change (url.Parse_ok (ClockifyAPI +:+ "/user")) with true. cbv iota zeta.
  rewrite He, Hd, Hs.
  destruct (read_response _).2; eexists; (split; [reflexivity|done]).
Qed.

Lemma same_but_stderr_trans (w1 w2 w3 : World) :
  same_but_stderr w1 w2 -> same_but_stderr w2 w3 -> same_but_stderr w1 w3.
Proof. intros (? & ? & ?) (? & ? & ?). repeat split; congruence. Qed.

Lemma DeleteTimeEntry_eq session workspaceID timeEntryID w :
  exists w1, same_but_stderr w w1
    /\ DeleteTimeEntry session workspaceID timeEntryID w
       = request session "DELETE"
           (ClockifyAPI +:+ "/workspaces/" +:+ workspaceID +:+ "/time-entries/" +:+ timeEntryID)
           None w1.
Proof.
  unfold DeleteTimeEntry. rewrite bind_eq. log_step.
  rewrite bind_eq. unfold Sprintf at 1. rewrite Sprintf_time_entry_path.
  match goal with |- context [delete session ClockifyAPI ?p w0] =>
    destruct (delete_eq session ClockifyAPI p w0) as (w1 & Hw1 & ->) end.
  exists w1. split; [|done]. by apply (same_but_stderr_trans w w0 w1).
Qed.

(** X14: DeleteTimeEntry puts the two ids into the path as they are, the
    empty string included, and validates neither.  When [url.Parse]
    accepts the resulting URL the call hands one DELETE of it, without a
    body, to the HTTP client and returns what [request] returns: the bytes
    of the answer, next to the error if there is one.  When [url.Parse]
    rejects the URL the call panics and nothing is sent. *)
Theorem DeleteTimeEntry_request (session : Session) (workspaceID timeEntryID : string)
    (w : World) :
  let u := ClockifyAPI +:+ "/workspaces/" +:+ workspaceID +:+ "/time-entries/" +:+ timeEntryID in
  let req := request_of session "DELETE" u None in
  if url.Parse_ok u
  then exists w',
         DeleteTimeEntry session workspaceID timeEntryID w
         = Returns (read_response (client_Do req (env w)).1) w'
         /\ sent w' = (sent w ++ [req])%list /\ env w' = (client_Do req (env w)).2
  else exists w',
         DeleteTimeEntry session workspaceID timeEntryID w = Panics w' /\ sent w' = sent w.
Proof.
  cbv zeta.
  destruct (DeleteTimeEntry_eq session workspaceID timeEntryID w) as (w1 & (He & Hd & Hs) & ->).
  rewrite request_eq by reflexivity. cbv zeta. rewrite He, Hs.
  destruct (url.Parse_ok _); eexists; (split; [reflexivity|]); simpl; [split|]; congruence.
Qed.


Lemma requestTimeEntry_eq res w :
  exists w', requestTimeEntry res w = Returns (time_entry_of res) w' /\ same_but_stderr w w'.
Proof.
  unfold requestTimeEntry, time_entry_of. destruct res as [data [err|]]; simpl.
  - by eexists.
  - destruct (json.Unmarshal _ _ _) as [entry err]. rewrite bind_eq. log_step.
    destruct err; eexists; (split; [reflexivity|done]).
Qed.

Lemma GetTimeEntry_eq session workspaceID timeEntryID w :
  exists w1, same_but_stderr w w1
    /\ GetTimeEntry session workspaceID timeEntryID w
       = (res ← request session "GET"
                  (ClockifyAPI +:+ "/workspaces/" +:+ workspaceID
                   +:+ "/time-entries/" +:+ timeEntryID) None;
          match res.2 with
          | Some err => mret (TimeEntry.zero, Some err)
          | None => requestTimeEntry res
          end) w1.
Proof.
  unfold GetTimeEntry. rewrite bind_eq. unfold Sprintf at 1. rewrite Sprintf_time_entry_path.
  rewrite bind_eq.
  match goal with |- context [get session ClockifyAPI ?p None w] =>
    destruct (get_eq session ClockifyAPI p w) as (w1 & Hw1 & ->) end.
  exists w1. split; [done|]. by rewrite bind_eq.
Qed.

Lemma StartTimeEntry_eq session workspaceID r w :
  exists w1, same_but_stderr w w1
    /\ StartTimeEntry session workspaceID r w
       = (res ← request session "POST"
                  (ClockifyAPI +:+ "/workspaces/" +:+ workspaceID +:+ "/time-entries")
                  (Some (json_Marshal r).1);
          requestTimeEntry res) w1.
Proof.
  unfold StartTimeEntry. rewrite bind_eq. unfold Sprintf at 1. rewrite Sprintf_workspace_path.
  rewrite bind_eq.
  match goal with |- context [post session ClockifyAPI ?p (Some r) w] =>
    destruct (post_eq session ClockifyAPI p r w) as (w1 & Hw1 & ->) end.
  exists w1. split; [done|]. by rewrite bind_eq.
Qed.

Lemma GetProjects_eq session workspaceID w :
  exists w1, same_but_stderr w w1
    /\ GetProjects session workspaceID w
       = (res ← request session "GET"
                  (ClockifyAPI +:+ "/workspaces/" +:+ workspaceID +:+ "/projects") None;
          match res.2 with
          | Some err => mret ([], Some err)
          | None =>
              let '(projects, err) :=
                json.Unmarshal (json.slice "[]clockify.Project" Project.decoder Project.zero)
                  res.1 [] in
              _ ← dlog_Printf ("Unmarshaled '%s' into %#v" +:+ newline)
                    [OBytes res.1; OProjects projects];
              mret (projects, err)
          end) w1.
Proof.
  unfold GetProjects. rewrite bind_eq. log_step. rewrite bind_eq. unfold Sprintf at 1.
  assert (fmt.Sprintf "/workspaces/%s/projects" [workspaceID]
          = Some ("/workspaces/" +:+ workspaceID +:+ "/projects")) as -> by reflexivity.
  rewrite bind_eq.
  match goal with |- context [get session ClockifyAPI ?p None w0] =>
    destruct (get_eq session ClockifyAPI p w0) as (w1 & Hw1 & ->) end.
  exists w1. split; [by apply (same_but_stderr_trans w w0 w1)|]. by rewrite bind_eq.
Qed.

(** X15: GetTimeEntry puts the two ids into the path as they are.  When
    [url.Parse] accepts the URL, the call hands one GET of it to the HTTP
    client; an error of [request] comes back unchanged with the zero entry
    and the body is not decoded; else the body goes through
    [json.Unmarshal], whose entry is returned when it reports no error and
    whose error is returned with the zero entry otherwise.  When
    [url.Parse] rejects the URL the call panics and nothing is sent. *)
Theorem GetTimeEntry_result (session : Session) (workspaceID timeEntryID : string)
    (w : World) :
  let u := ClockifyAPI +:+ "/workspaces/" +:+ workspaceID +:+ "/time-entries/" +:+ timeEntryID in
  let req := request_of session "GET" u None in
  if url.Parse_ok u
  then exists w',
         GetTimeEntry session workspaceID timeEntryID w
         = Returns (time_entry_of (read_response (client_Do req (env w)).1)) w'
         /\ sent w' = (sent w ++ [req])%list /\ env w' = (client_Do req (env w)).2
  else exists w',
         GetTimeEntry session workspaceID timeEntryID w = Panics w' /\ sent w' = sent w.
Proof.
  cbv zeta.
  destruct (GetTimeEntry_eq session workspaceID timeEntryID w) as (w1 & (He & Hd & Hs) & ->).
  rewrite bind_eq, request_eq by reflexivity. cbv zeta. rewrite He, Hs.
  destruct (url.Parse_ok _); [|by eexists].
  set (answer := read_response _).
  destruct answer as [data [err|]] eqn:Ha; cbn [fst snd].
  - eexists. split; [reflexivity|]. done.
  - match goal with |- context [requestTimeEntry ?r ?w2] =>
      destruct (requestTimeEntry_eq r w2) as (w' & -> & He' & Hd' & Hs') end.
    exists w'. split; [reflexivity|]. simpl in *. split; congruence.
Qed.

(** X16: StartTimeEntry posts the request it is given, marshalled, to
    [/workspaces/<workspaceID>/time-entries], the id put in as it is.
    When [url.Parse] accepts the URL the HTTP client gets this one POST and
    the call returns what requestTimeEntry makes of the answer; when it
    rejects the URL the call panics and nothing is sent. *)
Theorem StartTimeEntry_request (session : Session) (workspaceID : string)
    (timeEntryRequest : TimeEntryRequest.t) (w : World) :
  let u := ClockifyAPI +:+ "/workspaces/" +:+ workspaceID +:+ "/time-entries" in
  let req := request_of session "POST" u (Some (json_Marshal timeEntryRequest).1) in
  if url.Parse_ok u
  then exists w',
         StartTimeEntry session workspaceID timeEntryRequest w
         = Returns (time_entry_of (read_response (client_Do req (env w)).1)) w'
         /\ sent w' = (sent w ++ [req])%list /\ env w' = (client_Do req (env w)).2
  else exists w',
         StartTimeEntry session workspaceID timeEntryRequest w = Panics w' /\ sent w' = sent w.
Proof.
  cbv zeta.
  destruct (StartTimeEntry_eq session workspaceID timeEntryRequest w)
    as (w1 & (He & Hd & Hs) & ->).
  rewrite bind_eq, request_eq by reflexivity. cbv zeta. rewrite He, Hs.
  destruct (url.Parse_ok _); [|by eexists].
  match goal with |- context [requestTimeEntry ?r ?w2] =>
    destruct (requestTimeEntry_eq r w2) as (w' & -> & He' & Hd' & Hs') end.
  exists w'. split; [reflexivity|]. simpl in *. split; congruence.
Qed.

(** X17: GetProjects puts the workspace id into the path as it is.  When
    [url.Parse] accepts the URL the call hands one GET of it to the HTTP
    client; an error of [request] comes back with a nil list; else the call
    returns what [json.Unmarshal] gives for the body, list and error both:
    unlike the operations on time entries it returns the projects decoded
    so far next to a decoding error.  When [url.Parse] rejects the URL the
    call panics and nothing is sent. *)
Theorem GetProjects_result (session : Session) (workspaceID : string) (w : World) :
  let u := ClockifyAPI +:+ "/workspaces/" +:+ workspaceID +:+ "/projects" in
  let req := request_of session "GET" u None in
  let answer := read_response (client_Do req (env w)).1 in
  if url.Parse_ok u
  then exists w',
         GetProjects session workspaceID w
         = Returns (match answer.2 with
                    | Some err => ([], Some err)
                    | None => json.Unmarshal
                                (json.slice "[]clockify.Project" Project.decoder Project.zero)
                                answer.1 []
                    end) w'
         /\ sent w' = (sent w ++ [req])%list /\ env w' = (client_Do req (env w)).2
  else exists w', GetProjects session workspaceID w = Panics w' /\ sent w' = sent w.
Proof.
  cbv zeta.
  destruct (GetProjects_eq session workspaceID w) as (w1 & (He & Hd & Hs) & ->).
  rewrite bind_eq, request_eq by reflexivity. cbv zeta. rewrite He, Hs.
  destruct (url.Parse_ok _); [|by eexists].
  set (answer := read_response _).
  destruct answer as [data [err|]] eqn:Ha; cbn [fst snd].
  - eexists. split; [reflexivity|]. done.
  - destruct (json.Unmarshal _ data []) as [projects err]. rewrite bind_eq. log_step.
    eexists. split; [reflexivity|]. simpl in *. split; congruence.
Qed.


(** *** Ids that cannot make a call panic *)

Lemma Parse_ok_workspace_path workspaceID tail_ :
  all_bytes unreserved workspaceID = true ->
  all_bytes (fun c => unreserved c || Ascii.eqb c "/") tail_ = true ->
  url.Parse_ok (ClockifyAPI +:+ "/workspaces/" +:+ workspaceID +:+ tail_) = true.
Proof.
  intros Hw Ht.
  change (ClockifyAPI +:+ "/workspaces/" +:+ workspaceID +:+ tail_)
    with (ClockifyAPI +:+ String "/" ("workspaces/" +:+ workspaceID +:+ tail_)).
  apply Parse_ok_plain. rewrite !all_bytes_app.
  by rewrite (all_bytes_unreserved_plain _ Hw), Ht.
Qed.

Lemma request_returns session method requestURL body w :
  http.validMethod method = true -> url.Parse_ok requestURL = true ->
  exists a w', request session method requestURL body w = Returns a w'.
Proof. intros Hv Hp. rewrite request_eq, Hp by done. by eexists _, _. Qed.

(** X18: ids made of letters, digits and [-_.~] cannot make a call panic:
    with such a workspace id and time entry id, GetProjects, GetTimeEntry,
    DeleteTimeEntry, StartTimeEntry and ContinueTimeEntry return, whatever
    the server answers. *)
Theorem unreserved_ids_never_panic (session : Session) (workspaceID timeEntryID : string)
    (w : World) :
  all_bytes unreserved workspaceID = true ->
  all_bytes unreserved timeEntryID = true ->
  (exists a, result_of (GetProjects session workspaceID w) = Returned a)
  /\ (exists a, result_of (GetTimeEntry session workspaceID timeEntryID w) = Returned a)
  /\ (exists a, result_of (DeleteTimeEntry session workspaceID timeEntryID w) = Returned a)
  /\ (forall timeEntryRequest,
        exists a, result_of (StartTimeEntry session workspaceID timeEntryRequest w) = Returned a)
  /\ (forall timer duronly, TimeEntry.Wid timer = workspaceID ->
        exists a, result_of (ContinueTimeEntry session timer duronly w) = Returned a).
Proof.
  intros Hw Hid.
  assert (forall tail_, all_bytes (fun c => unreserved c || Ascii.eqb c "/") tail_ = true ->
            url.Parse_ok (ClockifyAPI +:+ "/workspaces/" +:+ workspaceID +:+ tail_) = true)
    as Hok by (intros; by apply Parse_ok_workspace_path).
  assert (all_bytes (fun c => unreserved c || Ascii.eqb c "/")
            ("/time-entries/" +:+ timeEntryID) = true) as Hentry.
  { rewrite all_bytes_app. by rewrite (all_bytes_unreserved_plain _ Hid). }
  repeat match goal with |- _ /\ _ => split end.
  - destruct (GetProjects_eq session workspaceID w) as (w1 & _ & ->). rewrite bind_eq.
    destruct (request_returns session "GET" _ None w1 eq_refl (Hok "/projects" eq_refl))
      as (res & w2 & ->).
    destruct res as [data [err|]]; cbn [fst snd]; [by eexists|].
    destruct (json.Unmarshal _ data []) as [projects err]. rewrite bind_eq. log_step.
    by eexists.
  - destruct (GetTimeEntry_eq session workspaceID timeEntryID w) as (w1 & _ & ->).
    rewrite bind_eq.
    destruct (request_returns session "GET" _ None w1 eq_refl (Hok _ Hentry)) as (res & w2 & ->).
    destruct res as [data [err|]]; cbn [fst snd]; [by eexists|].
    destruct (requestTimeEntry_eq (data, None) w2) as (w' & -> & _). by eexists.
  - destruct (DeleteTimeEntry_eq session workspaceID timeEntryID w) as (w1 & _ & ->).
    destruct (request_returns session "DELETE" _ None w1 eq_refl (Hok _ Hentry))
      as (res & w2 & ->).
    by eexists.
  - intros r. destruct (StartTimeEntry_eq session workspaceID r w) as (w1 & _ & ->).
    rewrite bind_eq.
    destruct (request_returns session "POST" _ (Some (json_Marshal r).1) w1 eq_refl
                (Hok "/time-entries" eq_refl)) as (res & w2 & ->).
    destruct (requestTimeEntry_eq res w2) as (w' & -> & _). by eexists.
  - intros timer duronly Hwid.
    destruct (ContinueTimeEntry_eq session timer duronly w) as (w1 & _ & _ & _ & ->).
    rewrite bind_eq. rewrite Hwid.
    match goal with |- context [post session ClockifyAPI ?p (Some ?r) w1] =>
      destruct (post_eq session ClockifyAPI p r w1) as (w2 & _ & ->);
      destruct (request_returns session "POST" (ClockifyAPI +:+ p) (Some (json_Marshal r).1)
                  w2 eq_refl (Hok "/time-entries" eq_refl)) as (res & w3 & ->) end.
    destruct (requestTimeEntry_eq res w3) as (w' & -> & _). by eexists.
Qed.


(** *** What ContinueTimeEntry reads of the entry *)

Lemma ContinueTimeEntry_spec session timer duronly w :
  let now := time_Now (env w) in
  let r := TimeEntryRequest.mk (time.Format (time.UTC now.1) time.RFC3339)
             (TimeEntry.Pid timer) (TimeEntry.Tid timer) (TimeEntry.Description timer) ""
             (TimeEntry.Tags timer) (TimeEntry.Billable timer) in
  let u := ClockifyAPI +:+ "/workspaces/" +:+ TimeEntry.Wid timer +:+ "/time-entries" in
  let req := request_of session "POST" u (Some (json_Marshal r).1) in
  exists w',
    ContinueTimeEntry session timer duronly w
    = (if url.Parse_ok u
       then Returns (time_entry_of (read_response (client_Do req now.2).1)) w'
       else Panics w')
    /\ dlog w' = dlog w
    /\ sent w' = (if url.Parse_ok u then (sent w ++ [req])%list else sent w)
    /\ env w' = (if url.Parse_ok u then (client_Do req now.2).2 else now.2).
Proof.
  cbv zeta.
  destruct (ContinueTimeEntry_eq session timer duronly w) as (w1 & He1 & Hd1 & Hs1 & ->).
  rewrite bind_eq.
  match goal with |- context [post session ClockifyAPI ?p (Some ?r) w1] =>
    destruct (post_eq session ClockifyAPI p r w1) as (w2 & (He2 & Hd2 & Hs2) & ->) end.
  rewrite request_eq by reflexivity. cbv zeta. rewrite He2, He1, Hs2, Hs1.
  destruct (url.Parse_ok _).
  - match goal with |- context [requestTimeEntry ?r ?w3] =>
      destruct (requestTimeEntry_eq r w3) as (w' & -> & He' & Hd' & Hs') end.
    exists w'. split; [reflexivity|]. simpl in *. repeat split; congruence.
  - exists w2. split; [reflexivity|]. repeat split; congruence.
Qed.

(** X19: ContinueTimeEntry reads six fields of the entry it is given:
    the workspace id, the project id, the task id, the description, the
    tag ids and the billable flag.  Two calls in the same state whose
    entries agree on these, whatever their ids, their time intervals and
    the [duronly] flags, are told apart neither by the caller nor by the
    server: both panic, or both return the same entry and error, having
    sent the same request and left the same environment and logger (the
    lines written to standard error name the entry, and so may differ). *)
Theorem ContinueTimeEntry_reads_six_fields (session : Session) (timer1 timer2 : TimeEntry.t)
    (duronly1 duronly2 : bool) (w : World) :
  TimeEntry.Wid timer1 = TimeEntry.Wid timer2 ->
  TimeEntry.Pid timer1 = TimeEntry.Pid timer2 ->
  TimeEntry.Tid timer1 = TimeEntry.Tid timer2 ->
  TimeEntry.Description timer1 = TimeEntry.Description timer2 ->
  TimeEntry.Tags timer1 = TimeEntry.Tags timer2 ->
  TimeEntry.Billable timer1 = TimeEntry.Billable timer2 ->
  match ContinueTimeEntry session timer1 duronly1 w,
        ContinueTimeEntry session timer2 duronly2 w with
  | Returns a1 w1, Returns a2 w2 => a1 = a2 /\ same_but_stderr w1 w2
  | Panics w1, Panics w2 => same_but_stderr w1 w2
  | _, _ => False
  end.
Proof.
  intros Hwid Hpid Htid Hdesc Htags Hbill.
  destruct (ContinueTimeEntry_spec session timer1 duronly1 w) as (w1 & -> & Hd1 & Hs1 & He1).
  destruct (ContinueTimeEntry_spec session timer2 duronly2 w) as (w2 & -> & Hd2 & Hs2 & He2).
  revert Hs1 He1. rewrite Hwid, Hpid, Htid, Hdesc, Htags, Hbill. intros Hs1 He1.
  destruct (url.Parse_ok _); repeat split; congruence.
Qed.


(** *** request and the verb helpers *)

(** X20: what [request] makes of the answer of the HTTP client, for a
    method and a URL that [http.NewRequest] accepts.  An error of the
    client, or of reading the body, is returned as it is, with no bytes.
    With the body read, a status code from 200 to 399 gives the body and
    no error (a redirect that was not followed counts as success); any
    other code gives the body next to an error, and the text of that error
    is the status line whenever the status line has no [%] in it. *)
Theorem request_classifies_the_answer (session : Session) (method requestURL : string)
    (body : option string) (w : World) :
  http.validMethod method = true ->
  url.Parse_ok requestURL = true ->
  exists a w',
    request session method requestURL body w = Returns a w'
    /\ match (client_Do (request_of session method requestURL body) (env w)).1 with
       | inr err => a = ("", Some err)
       | inl resp =>
           match http.ReadAll resp with
           | (_, Some err) => a = ("", Some err)
           | (content, None) =>
               if (200 <=? http.StatusCode resp) && (http.StatusCode resp <? 400)
               then a = (content, None)
               else exists err,
                      a = (content, Some err)
                      /\ (Contains "%" (http.Status resp) = false ->
                          Error err = Some (http.Status resp))
           end
       end.
Proof.
  intros Hv Hp. rewrite request_eq, Hp by done. cbv zeta. eexists _, _.
  split; [reflexivity|].
  destruct (client_Do _ _).1 as [resp|err]; [|done]. unfold read_response.
  destruct (http.ReadAll resp) as [content [err|]]; [done|].
  destruct (Z.ltb_spec (http.StatusCode resp) 200),  (Z.leb_spec 400 (http.StatusCode resp)),
    (Z.leb_spec 200 (http.StatusCode resp)), (Z.ltb_spec (http.StatusCode resp) 400);
    cbn [orb andb]; try lia; try done;
    (eexists; split; [reflexivity|apply Error_Errorf_plain]).
Qed.

(** *** The query string, byte by byte *)

Lemma all_bytes_Join p sep l :
  all_bytes p sep = true -> Forall (fun x => all_bytes p x = true) l ->
  all_bytes p (Join sep l) = true.
Proof.
  intros Hsep Hl. induction Hl as [|x l Hx Hl IH]; [done|].
  destruct l as [|y l]; [done|].
  change (Join sep (x :: y :: l)) with (x +:+ sep +:+ Join sep (y :: l)).
  by rewrite !all_bytes_app, Hx, Hsep, IH.
Qed.

Lemma QueryEscape_byte c :
  all_bytes (fun c => unreserved c || one_of "%+=&" c) (url.QueryEscape (String c "")) = true.
Proof. destruct c as [[] [] [] [] [] [] [] []]; reflexivity. Qed.

Lemma QueryEscape_cons c s :
  url.QueryEscape (String c s) = url.QueryEscape (String c "") +:+ url.QueryEscape s.
Proof.
  cbn [url.QueryEscape]. destruct (Ascii.eqb c " "); [done|].
  by destruct (url.shouldEscape c url.encodeQueryComponent).
Qed.

Lemma QueryEscape_bytes s :
  all_bytes (fun c => unreserved c || one_of "%+=&" c) (url.QueryEscape s) = true.
Proof.
  induction s as [|c s IH]; [done|].
  by rewrite QueryEscape_cons, all_bytes_app, QueryEscape_byte, IH.
Qed.

(** X22: whatever bytes the keys and values of the parameter map hold,
    the query string that [get] appends holds only letters, digits, the
    bytes [-_.~], [%] and [+] from the escaping, and the separators [=]
    and [&]: no key and no value can add a [#], a [/], a [?], a space, a
    control byte or a byte above 127 to the URL.  For an empty map that
    is not nil the query string is empty and the URL ends in [?]. *)
Theorem get_query_bytes (session : Session) (requestURL path : string)
    (params : gmap string string) (w : World) :
  exists (q : string) (w' : World),
    get session requestURL path (Some params) w
    = (_ ← dlog_Printf "GETing from URL: %s" [OString ((requestURL +:+ path) +:+ "?" +:+ q)];
       request session "GET" ((requestURL +:+ path) +:+ "?" +:+ q) None) w'
    /\ all_bytes (fun c => unreserved c || one_of "%+=&" c) q = true
    /\ (params = ∅ -> q = "").
Proof.
  destruct (get_Some_eq session requestURL path params w) as (w' & _ & _ & _ & Heq).
  exists (Join "&" (query_pair <$> sorted_entries params)), w'.
  split; [done|]. split.
  - apply all_bytes_Join; [done|]. apply Forall_fmap, Forall_forall. intros kv _.
    unfold compose, query_pair. by rewrite !all_bytes_app, !QueryEscape_bytes.
  - by intros ->.
Qed.


(** *** The command *)

(** X23: the command line tool.  Run with an empty [os.Args], [main]
    panics on [os.Args[0]].  Run with anything but one argument after the
    program name, it prints the usage line and asks the server nothing.
    Run with one argument it never panics: it hands one request to the
    HTTP client, the GET of GetAccount for a session whose token is the
    argument, and then prints either [error:] and the error GetAccount
    returned, or [account:] and the account as [json.MarshalIndent]
    rendered it (the error of MarshalIndent is dropped). *)
Theorem main_asks_once (json_MarshalIndent : Account.t -> string * option error)
    (Args : list string) (w : World) :
  match Args with
  | [] => main json_MarshalIndent Args w = Panics w
  | [_; token] =>
      exists account err w',
        GetAccount (OpenSession token) w = Returns (account, err) w'
        /\ main json_MarshalIndent Args w
           = Returns (match err with
                      | Some err => [PString "error:"; PError err]
                      | None => [PString "account:"; PString (json_MarshalIndent account).1]
                      end) w'
        /\ sent w' = (sent w ++ [request_of (OpenSession token) "GET"
                                   (ClockifyAPI +:+ "/user") None])%list
  | arg0 :: _ =>
      main json_MarshalIndent Args w
      = Returns [PString "usage:"; PString arg0; PString "API_TOKEN"] w
  end.
Proof.
  destruct Args as [|arg0 [|token [|arg2 Args]]]; try reflexivity.
  unfold main. cbn [length Nat.eqb negb nth]. rewrite bind_eq.
  destruct (GetAccount_eq (OpenSession token) w) as (w1 & (He & Hd & Hs) & Heq).
  rewrite Heq, bind_eq, request_eq by reflexivity.
  change (url.Parse_ok (ClockifyAPI +:+ "/user")) with true. cbv iota zeta.
  rewrite He, Hs.
  destruct (read_response _) as [data [err|]]; cbn [fst snd]; rewrite ret_eq.
  - eexists _, _, _. split; [reflexivity|]. split; reflexivity.
  - destruct (decodeAccount data Account.zero) as [account [err|]].
    + eexists _, _, _. split; [reflexivity|]. split; reflexivity.
    + destruct (json_MarshalIndent account) as [text merr] eqn:Htext.
      eexists _, _, _. split; [reflexivity|]. rewrite Htext. split; reflexivity.
Qed.


(** *** Where the token goes *)

Section Token.

(** A server whose answer does not depend on the headers of a request. *)
Hypothesis headers_ignored : forall (req1 req2 : http.Request) (e : Env),
  same_but_header req1 req2 -> client_Do req1 e = client_Do req2 e.

Lemma sbh_refl_world (w : World) : same_but_headers w w.
Proof.
  repeat split. induction (sent w) as [|r l IH]; constructor; [done|exact IH].
Qed.

Lemma sbh_ret {A} (a : A) : same_but_for_headers (mret a) (mret a).
Proof. intros w1 w2 Hw. by split. Qed.

Lemma sbh_bind {A B} (m1 m2 : M A) (f1 f2 : A -> M B) :
  same_but_for_headers m1 m2 -> (forall a, same_but_for_headers (f1 a) (f2 a)) ->
  same_but_for_headers (m1 ≫= f1) (m2 ≫= f2).
Proof.
  intros Hm Hf w1 w2 Hw. rewrite !bind_eq. specialize (Hm w1 w2 Hw).
  destruct (m1 w1) as [a1 w1'|w1'|], (m2 w2) as [a2 w2'|w2'|]; try done.
  destruct Hm as [<- Hw']. by apply Hf.
Qed.

Lemma sbh_panic {A} : same_but_for_headers (panic : M A) panic.
Proof. intros w1 w2 Hw. exact Hw. Qed.

Lemma sbh_with_env {A} (f : Env -> A * Env) : same_but_for_headers (with_env f) (with_env f).
Proof.
  intros w1 w2 (He & Hd & Hs & Ht). unfold with_env. rewrite He.
  destruct (f (env w2)). by repeat split.
Qed.

Lemma sbh_Sprintf format a : same_but_for_headers (Sprintf format a) (Sprintf format a).
Proof. intros w1 w2 Hw. unfold Sprintf. by destruct (fmt.Sprintf format a). Qed.

Lemma sbh_dlog_Printf format a :
  same_but_for_headers (dlog_Printf format a) (dlog_Printf format a).
Proof.
  intros w1 w2 (He & Hd & Hs & Ht). unfold dlog_Printf. rewrite Hd.
  destruct (log.out (dlog w2)); repeat split; simpl; congruence.
Qed.

Lemma sbh_Do req1 req2 :
  same_but_header req1 req2 -> same_but_for_headers (Do req1) (Do req2).
Proof.
  intros Hreq w1 w2 (He & Hd & Hs & Ht). unfold Do.
  rewrite He, (headers_ignored req1 req2 (env w2) Hreq).
  destruct (client_Do req2 (env w2)) as [resp e]. repeat split; simpl; try done.
  apply Forall2_app; [done|]. by constructor.
Qed.

Lemma with_headers_same session1 session2 req :
  same_but_header (with_headers session1 req) (with_headers session2 req).
Proof.
  destruct (with_headers_fields session1 req) as (? & ? & ?).
  destruct (with_headers_fields session2 req) as (? & ? & ?).
  repeat split; congruence.
Qed.

Lemma sbh_request session1 session2 method requestURL body :
  same_but_for_headers (request session1 method requestURL body)
    (request session2 method requestURL body).
Proof.
  unfold request. destruct (http.NewRequest method requestURL body) as [req|];
    [|apply sbh_panic].
  apply sbh_bind; [apply sbh_Do, with_headers_same|].
  intros [resp|err]; [|apply sbh_ret].
  destruct (http.ReadAll resp) as [content [err|]]; [apply sbh_ret|].
  destruct (_ || _); apply sbh_ret.
Qed.

Create HintDb sbh discriminated.
Hint Resolve sbh_ret sbh_panic sbh_with_env sbh_Sprintf sbh_dlog_Printf sbh_request : sbh.

Ltac sbh :=
  repeat first
    [ progress auto with sbh
    | apply sbh_bind; [|intros ?]
    | match goal with
      | |- same_but_for_headers (match ?x with _ => _ end) (match ?x with _ => _ end) =>
          destruct x
      | |- same_but_for_headers (if ?x then _ else _) (if ?x then _ else _) => destruct x
      | |- same_but_for_headers (let '(_, _) := ?x in _) (let '(_, _) := ?x in _) =>
          destruct x
      end ].

Lemma sbh_get session1 session2 requestURL path params :
  same_but_for_headers (get session1 requestURL path params)
    (get session2 requestURL path params).
Proof. unfold get, Values_Encode. sbh. Qed.

Lemma sbh_post session1 session2 requestURL path data :
  same_but_for_headers (post session1 requestURL path data)
    (post session2 requestURL path data).
Proof. unfold post. sbh. Qed.

Lemma sbh_patch session1 session2 requestURL path data :
  same_but_for_headers (patch session1 requestURL path data)
    (patch session2 requestURL path data).
Proof. unfold patch. sbh. Qed.

Lemma sbh_delete session1 session2 requestURL path :
  same_but_for_headers (delete session1 requestURL path) (delete session2 requestURL path).
Proof. unfold delete. sbh. Qed.

Lemma sbh_requestTimeEntry res :
  same_but_for_headers (requestTimeEntry res) (requestTimeEntry res).
Proof. unfold requestTimeEntry. sbh. Qed.

Lemma sbh_Now : same_but_for_headers Now_UTC_RFC3339 Now_UTC_RFC3339.
Proof. unfold Now_UTC_RFC3339. sbh. Qed.

Hint Resolve sbh_get sbh_post sbh_patch sbh_delete sbh_requestTimeEntry sbh_Now : sbh.

(** X24: the API token goes into the headers of the request and nowhere
    else.  Against a server whose answers do not depend on the headers,
    every operation does the same for any two sessions: started in the
    same state (or in two states that differ in the headers of earlier
    requests only) it returns the same values or panics alike, writes the
    same lines to standard error, leaves the same environment, and sends
    requests that differ in their headers at most.  In particular no log
    line depends on the token. *)
Theorem token_only_in_headers (session1 session2 : Session) :
  (forall w : World, same_but_headers w w)
  /\ same_but_for_headers (GetAccount session1) (GetAccount session2)
  /\ (forall workspaceID timeEntryRequest,
        same_but_for_headers (StartTimeEntry session1 workspaceID timeEntryRequest)
          (StartTimeEntry session2 workspaceID timeEntryRequest))
  /\ (forall workspaceID timeEntryID,
        same_but_for_headers (GetTimeEntry session1 workspaceID timeEntryID)
          (GetTimeEntry session2 workspaceID timeEntryID))
  /\ (forall workspaceID timeEntryID,
        same_but_for_headers (DeleteTimeEntry session1 workspaceID timeEntryID)
          (DeleteTimeEntry session2 workspaceID timeEntryID))
  /\ (forall timer duronly,
        same_but_for_headers (ContinueTimeEntry session1 timer duronly)
          (ContinueTimeEntry session2 timer duronly))
  /\ (forall workspaceID userID,
        same_but_for_headers (StopTimeEntry session1 workspaceID userID)
          (StopTimeEntry session2 workspaceID userID))
  /\ (forall workspaceID,
        same_but_for_headers (GetProjects session1 workspaceID)
          (GetProjects session2 workspaceID)).
Proof.
  repeat match goal with |- _ /\ _ => split end; intros.
  - apply sbh_refl_world.
  - unfold GetAccount. sbh.
  - unfold StartTimeEntry. sbh.
  - unfold GetTimeEntry. sbh.
  - unfold DeleteTimeEntry. sbh.
  - unfold ContinueTimeEntry. sbh.
  - unfold StopTimeEntry. sbh.
  - unfold GetProjects. sbh.
Qed.

End Token.

End Operations.

(** C10: with a parameter map, the query string lists the [key=value]
    pairs in the byte order of the keys, whatever order the runtime ranges
    over the map in: two calls with the same base URL, path and map, in any
    two runtimes and states, log and request the same URL. *)
Theorem get_query_sorted_by_key `{H : time.Pkg} (RT1 RT2 : Runtime) (session : Session)
    (requestURL path : string) (params : gmap string string)
    (w1 : World (RT := RT1)) (w2 : World (RT := RT2)) :
  let u := (requestURL +:+ path) +:+ "?"
           +:+ Join "&" (query_pair <$> sorted_entries params) in
  Sorted String.le (sorted_entries params).*1
  /\ sorted_entries params ≡ₚ map_to_list params
  /\ (exists w1', get (RT := RT1) session requestURL path (Some params) w1
                 = (_ ← dlog_Printf "GETing from URL: %s" [OString u];
                    request session "GET" u None) w1')
  /\ (exists w2', get (RT := RT2) session requestURL path (Some params) w2
                 = (_ ← dlog_Printf "GETing from URL: %s" [OString u];
                    request session "GET" u None) w2').
Proof.
  cbv zeta. split; [apply sorted_entries_Sorted|]. split; [apply sorted_entries_perm|].
  split.
  - destruct (get_Some_eq (RT := RT1) session requestURL path params w1) as (w' & _ & _ & _ & Heq).
    by exists w'.
  - destruct (get_Some_eq (RT := RT2) session requestURL path params w2) as (w' & _ & _ & _ & Heq).
    by exists w'.
Qed.

(** ** Two responses *)

(** C2 (the code differs): the status line is given to [fmt.Errorf] as the
    format.  A response [500 Load 100%] with body [busy] makes GetTimeEntry
    return the zero entry and an error whose text is
    [500 Load 100%!(NOVERB)], not the status line.  (The body comes back
    from [request] next to the error and is not decoded.) *)
Theorem status_line_used_as_format :
  result_of (request (RT := Fixture.runtime) (OpenSession "key") "GET"
               (ClockifyAPI +:+ "/workspaces/w1/time-entries/e1") None
               (Fixture.start (inl (http.mkResponse 500 "500 Load 100%" ("busy", None))) 0))
  = Returned ("busy", Some (Errorf "500 Load 100%"))
  /\ result_of (GetTimeEntry (RT := Fixture.runtime) (OpenSession "key") "w1" "e1"
                  (Fixture.start (inl (http.mkResponse 500 "500 Load 100%" ("busy", None))) 0))
     = Returned (TimeEntry.zero, Some (Errorf "500 Load 100%"))
  /\ Error (Errorf "500 Load 100%") = Some "500 Load 100%!(NOVERB)".
Proof. repeat split; reflexivity. Qed.

(** C6 (the code differs): decodeAccount reads the body with a
    [json.Decoder], which decodes the first value and leaves the rest
    unread.  The body [{}}] is not valid JSON, and on a 200 response
    GetAccount returns the zero Account and a nil error; GetTimeEntry, which
    goes through [json.Unmarshal], returns a syntax error for the same
    body. *)
Theorem GetAccount_accepts_trailing_bytes :
  json.whole_value "{}}" = None
  /\ result_of (GetAccount (RT := Fixture.runtime) (OpenSession "key")
                  (Fixture.start (Fixture.ok "{}}") 0))
     = Returned (Account.zero, None)
  /\ result_of (GetTimeEntry (RT := Fixture.runtime) (OpenSession "key") "w1" "e1"
                  (Fixture.start (Fixture.ok "{}}") 0))
     = Returned (TimeEntry.zero, Some SyntaxError).
Proof. repeat split; reflexivity. Qed.

(** ** Instances *)

Lemma unreserved_ids_never_panic_witness :
  exists a,
    result_of (GetProjects (RT := Fixture.runtime) (OpenSession "key") "5e0f1a2b"
                 (Fixture.start (Fixture.ok "[]") 0)) = Returned a.
Proof.
  exact (proj1 (unreserved_ids_never_panic (RT := Fixture.runtime) (OpenSession "key")
                  "5e0f1a2b" "64c7" (Fixture.start (Fixture.ok "[]") 0) eq_refl eq_refl)).
Defined.

Lemma ContinueTimeEntry_reads_six_fields_witness :
  match ContinueTimeEntry (RT := Fixture.runtime) (OpenSession "key")
          (TimeEntry.mk Fixture.time_pkg "w1" "e1" "p1" "t1" "tea" TimeInterval.zero ["a"] true) true
          (Fixture.start (Fixture.ok "{}") 0),
        ContinueTimeEntry (RT := Fixture.runtime) (OpenSession "key")
          (TimeEntry.mk Fixture.time_pkg "w1" "e2" "p1" "t1" "tea"
             (TimeInterval.mk Fixture.time_pkg "PT1H" None (Some (0 : @time.Time Fixture.time_pkg))) ["a"] true) false
          (Fixture.start (Fixture.ok "{}") 0) with
  | Returns a1 w1, Returns a2 w2 => a1 = a2 /\ same_but_stderr w1 w2
  | Panics w1, Panics w2 => same_but_stderr w1 w2
  | _, _ => False
  end.
Proof. apply ContinueTimeEntry_reads_six_fields; reflexivity. Defined.

Lemma time_entry_Pid_only_from_pid_witness :
  TimeEntry.Pid
    (time_entry_of (H := Fixture.time_pkg)
       ("{" +:+ Fixture.quote "projectId" +:+ ":" +:+ Fixture.quote "p1" +:+ "}", None)).1 = "".
Proof.
  exact (time_entry_Pid_only_from_pid (H := Fixture.time_pkg)
           ("{" +:+ Fixture.quote "projectId" +:+ ":" +:+ Fixture.quote "p1" +:+ "}")
           [("projectId", json.JString "p1" "p1")] eq_refl eq_refl).
Defined.

Lemma Project_member_names_fold_witness :
  exists p saved',
    Project.decoder (json.JObject [("Archived", json.JBool true)]) Project.zero None
    = json.Stored p saved'
    /\ Project.Active p = true /\ Project.IsActive p = true.
Proof. exact (Project_member_names_fold "Archived" [] true Project.zero None eq_refl). Defined.

Lemma one_Project_per_element_witness :
  length (json.Unmarshal (json.slice "[]clockify.Project" Project.decoder Project.zero)
            "[7,{}]" []).1 = 2%nat.
Proof.
  exact (one_Project_per_element "[7,{}]" [json.JNumber "7"; json.JObject []] eq_refl).
Defined.

Lemma request_classifies_the_answer_witness :
  exists a w',
    request (RT := Fixture.runtime) (OpenSession "key") "GET" (ClockifyAPI +:+ "/user") None
      (Fixture.start (inl (http.mkResponse 404 "404 Not Found" ("{}", None))) 0)
    = Returns a w'
    /\ exists err, a = ("{}", Some err) /\ (true = false -> Error err = Some "404 Not Found").
Proof.
  destruct (request_classifies_the_answer (RT := Fixture.runtime) (OpenSession "key") "GET"
              (ClockifyAPI +:+ "/user") None
              (Fixture.start (inl (http.mkResponse 404 "404 Not Found" ("{}", None))) 0)
              eq_refl eq_refl) as (a & w' & Heq & Ha).
  exists a, w'. split; [exact Heq|].
  destruct Ha as (err & Ha & _). exists err. split; [exact Ha|]. discriminate.
Defined.

Lemma blank_body_is_an_error_witness :
  decodeAccount (H := Fixture.time_pkg) (String " " newline) Account.zero
  = (Account.zero, Some EOF).
Proof.
  exact (proj1 (blank_body_is_an_error (H := Fixture.time_pkg) (String " " newline)
                  Account.zero eq_refl)).
Defined.

Lemma token_only_in_headers_witness :
  same_but_for_headers (RT := Fixture.runtime)
    (GetAccount (OpenSession "key-1")) (GetAccount (OpenSession "key-2")).
Proof.
  exact (proj1 (proj2 (token_only_in_headers (RT := Fixture.runtime) (fun _ _ _ _ => eq_refl)
                         (OpenSession "key-1") (OpenSession "key-2")))).
Defined.

Lemma request_read_back_as_entry_witness :
  json.Unmarshal (TimeEntry.decoder (H := Fixture.time_pkg))
    (Fixture.Marshal
       (TimeEntryRequest.mk "2024-05-01T08:00:00Z" "p1" "t1" "tea" "" ["a"; "b"] true)).1
    TimeEntry.zero
  = (TimeEntry.mk Fixture.time_pkg "" "" "" "t1" "tea" TimeInterval.zero ["a"; "b"] true, None).
Proof.
  exact (request_read_back_as_entry (H := Fixture.time_pkg)
           (TimeEntryRequest.mk "2024-05-01T08:00:00Z" "p1" "t1" "tea" "" ["a"; "b"] true)
           eq_refl).
Defined.

Lemma decodeAccount_reads_id_name_email_witness :
  decodeAccount (H := Fixture.time_pkg)
    (("{" +:+ Join "," [Fixture.member "id" (Fixture.quote "u1");
                         Fixture.member "name" (Fixture.quote "Ada");
                         Fixture.member "email" (Fixture.quote "ada@example.org")] +:+ "}")
     +:+ "}")
    Account.zero
  = (Account.mk Fixture.time_pkg "u1" "Ada" "ada@example.org" [] [] [] [] [] []
       AccountSettings.zero, None).
Proof.
  exact (decodeAccount_reads_id_name_email (H := Fixture.time_pkg) "u1" "Ada"
           "ada@example.org" "}" eq_refl eq_refl eq_refl).
Defined.

Lemma Project_Active_from_archived_witness :
  exists p saved',
    Project.decoder
      (json.JObject [("archived", json.JBool true); ("name", json.JString "x" "x")])
      Project.zero None
    = json.Stored p saved'
    /\ Project.IsActive p = true.
Proof.
  destruct (Project_Active_from_archived
              [("archived", json.JBool true); ("name", json.JString "x" "x")]
              Project.zero None) as [(p & saved' & Hdec & _ & Hlast & _) _].
  exists p, saved'. split; [exact Hdec|].
  apply (Hlast [] "archived" true [("name", json.JString "x" "x")] eq_refl eq_refl).
  intros key' b' [Hin|[]]. discriminate Hin.
Defined.

Lemma decodeSession_token_witness :
  (decodeSession
     ("{" +:+ Fixture.member "apitoken" (Fixture.quote "abc") +:+ "} trailing")
     (Build_Session "old")).1
  = Build_Session "abc".
Proof.
  destruct (decodeSession_token
              ("{" +:+ Fixture.member "apitoken" (Fixture.quote "abc") +:+ "} trailing")
              (Build_Session "old")) as [Hobject _].
  destruct (Hobject [("apitoken", json.JString "abc" "abc")] " trailing" eq_refl)
    as [Hlast _].
  apply (Hlast [] "apitoken" "abc" "abc" [] eq_refl eq_refl).
  intros key' raw' tok' [].
Defined.
